(** * AI music generator: a shallow embedding of [main.py]

    The development follows the source top to bottom: the note and mood
    tables, [create_waveform], and the three phases of [generate_music]
    (the melody-planning loop, the mixing loop, the normalisation).

    Number model.  Python [int]s are [Z].  Python [float]s that carry
    times (durations, tempo, frequencies, sample rates) are exact rationals
    [Q]; sample values, which go through [sin] and [exp], are real numbers
    [R].  Rounding of binary64 arithmetic is therefore not part of the
    model: the planning loop [plan_step] in particular is the algorithm in
    exact arithmetic, and for a total duration that is no whole number of
    seconds the floats of the source can plan another last event than it
    does.  The module [Binary64] evaluates the tempo arithmetic and the
    planning loop of the source in IEEE-754 double precision: it checks the
    sample counts the proofs rely on, and it runs the planning on the input
    where the floats make the mixing loop fail.  The statements about the
    mixing loop hold for every list of events, whichever arithmetic planned
    it.  Python exceptions are an explicit error value.

    After the engine come the conversion to 16-bit samples, the file name
    and the script that reads the three choices from the input. *)

From Stdlib Require Import ZArith QArith Qround Qreals Reals List String Bool Lia Psatz.
From Stdlib Require Import SpecFloat.
From Stdlib Require Import DecimalString.
From Stdlib Require DecimalPos DecimalZ.
Import ListNotations.

(** Linear arithmetic over [Q] with halving written as a division. *)
Ltac qlra :=
  unfold Qdiv in *; change (/ 2)%Q with (1 # 2)%Q in *; lra.

Local Open Scope Z_scope.

(** ** Exceptions *)

Inductive py_error : Type :=
| ValueError
| KeyError
| IndexError
| ZeroDivisionError.

Inductive result (A : Type) : Type :=
| Ok (a : A)
| Raise (e : py_error).

Arguments Ok {A} a.
Arguments Raise {A} e.

Definition bind {A B : Type} (m : result A) (k : A -> result B) : result B :=
  match m with
  | Ok a => k a
  | Raise e => Raise e
  end.

Notation "x <- m ;; k" := (bind m (fun x => k))
  (at level 61, m at next level, right associativity).

(** ** Numbers *)

(** [int(x)] on a float: truncation toward zero. *)
Definition py_int (x : Q) : Z := Z.quot (Qnum x) (Zpos (Qden x)).

(** [x < y] on floats, as a boolean. *)
Definition Qltb (x y : Q) : bool := (Qnum x * QDen y <? Qnum y * QDen x)%Z.

(** Python's built-in [round] on a float: to the nearest integer, ties to
    the even one.  Not used by the source; it is the [round] that the
    specification of the synthesizer's length speaks of. *)
Definition py_round (x : Q) : Z :=
  let f := Qfloor x in
  let r := (x - inject_Z f)%Q in
  if Qltb r (1 # 2) then f
  else if Qltb (1 # 2) r then f + 1
  else if Z.even f then f else f + 1.

(** ** Note and mood tables *)

Local Open Scope string_scope.

Definition NOTES : list (string * Q) :=
  [ ("C3", 13081 # 100); ("D3", 14683 # 100); ("E3", 16481 # 100);
    ("F3", 17461 # 100); ("G3", 196 # 1); ("A3", 220 # 1);
    ("B3", 24694 # 100);
    ("C4", 26163 # 100); ("D4", 29366 # 100); ("Eb4", 31113 # 100);
    ("E4", 32963 # 100); ("F4", 34923 # 100); ("G4", 392 # 1);
    ("Ab4", 4153 # 10); ("A4", 440 # 1); ("B4", 49388 # 100);
    ("C5", 52325 # 100); ("D5", 58733 # 100); ("E5", 65925 # 100);
    ("G5", 78399 # 100) ].

Definition REST : string := "REST".

(** Lookup in a dict given by its literal (the keys of the literals of the
    source are pairwise distinct). *)
Fixpoint dict_get {V : Type} (d : list (string * V)) (key : string) : option V :=
  match d with
  | [] => None
  | (k, v) :: rest => if String.eqb k key then Some v else dict_get rest key
  end.

(** [note_name in NOTES] *)
Definition in_NOTES (note_name : string) : bool :=
  match dict_get NOTES note_name with
  | Some _ => true
  | None => false
  end.

(** [NOTES[note_name]] *)
Definition NOTES_item (note_name : string) : result Q :=
  match dict_get NOTES note_name with
  | Some f => Ok f
  | None => Raise KeyError
  end.

Record Mood : Type := mkMood {
  scale : list string;
  chords : list (list string);
  bpm : Z
}.

Definition happy : Mood :=
  {| scale := ["C4"; "D4"; "E4"; "F4"; "G4"; "A4"; "B4"; "C5"];
     chords := [ ["C4"; "E4"; "G4"]; ["G4"; "B4"; "D5"];
                 ["A4"; "C5"; "E5"]; ["F4"; "A4"; "C5"] ];
     bpm := 120 |}.

Definition sad : Mood :=
  {| scale := ["C4"; "Eb4"; "F4"; "G4"; "Ab4"; "C5"];
     chords := [ ["C4"; "Eb4"; "G4"]; ["Ab4"; "C5"; "Eb4"];
                 ["F3"; "Ab3"; "C4"]; ["G3"; "A3"; "D4"] ];
     bpm := 75 |}.

Definition dreamy : Mood :=
  {| scale := ["C4"; "E4"; "G4"; "A4"; "C5"; "E5"; "G5"];
     chords := [ ["C4"; "E4"; "G4"; "B4"]; ["A3"; "C4"; "E4"; "G4"] ];
     bpm := 60 |}.

Definition MOODS : list (string * Mood) :=
  [ ("happy", happy); ("sad", sad); ("dreamy", dreamy) ].

(** [MOODS[mood_key]] *)
Definition MOODS_item (mood_key : string) : result Mood :=
  match dict_get MOODS mood_key with
  | Some m => Ok m
  | None => Raise KeyError
  end.

Local Close Scope string_scope.

(** ** The random source

    [random.choice(seq)] returns [seq[i]] for some index [i] below
    [len(seq)].  The generator is an oracle [rnd]: its [k]-th draw picks the
    index [rnd k mod len(seq)], so that every behaviour of [random.choice]
    is the behaviour under some oracle.  Both sequences the source draws
    from are non-empty by construction; [default] is never returned. *)
Definition random_choice {A : Type} (draw : nat) (seq : list A) (default : A) : A :=
  nth (draw mod List.length seq)%nat seq default.

(** ** The melody-planning loop of [generate_music] *)

Record MelodyEvent : Type := mkEvent {
  note : string;
  duration : Q
}.

Section Planner.

Local Open Scope Q_scope.

Variable mood : Mood.
Variable rnd : nat -> nat.
Variable total_duration_seconds : Q.

Definition quarter_note_duration : Q := 60 / inject_Z (bpm mood).

Definition rhythms : list Q :=
  [ quarter_note_duration;
    quarter_note_duration / 2;
    quarter_note_duration * (3 # 2) ].

(** One iteration of the [while] body at elapsed time [current_time]; it
    is the [k]-th iteration and uses the draws [2k] and [2k+1].  Returns
    the appended event and the new elapsed time. *)
Definition plan_step (k : nat) (current_time : Q) : MelodyEvent * Q :=
  let duration := random_choice (rnd (2 * k)%nat) rhythms quarter_note_duration in
  let duration :=
    if Qltb total_duration_seconds (current_time + duration)
    then total_duration_seconds - current_time
    else duration in
  let melody_note := random_choice (rnd (2 * k + 1)%nat) (scale mood ++ [REST]) REST in
  ({| note := melody_note; duration := duration |}, current_time + duration).

(** The [while] loop; [None] when the fuel runs out before the loop
    condition becomes false. *)
Fixpoint planning_loop (fuel k : nat) (current_time : Q) : option (list MelodyEvent) :=
  match fuel with
  | O => None
  | S fuel' =>
      if Qltb current_time total_duration_seconds then
        let (item, current_time') := plan_step k current_time in
        match planning_loop fuel' (S k) current_time' with
        | Some melody_sequence => Some (item :: melody_sequence)
        | None => None
        end
      else Some []
  end.

(** A number of iterations that always suffices: every iteration but the
    last advances by at least half a quarter note. *)
Definition plan_fuel : nat :=
  S (Z.to_nat (Qceiling (total_duration_seconds / (quarter_note_duration / 2)))).

Definition melody_sequence_of (fuel : nat) : option (list MelodyEvent) :=
  planning_loop fuel 0%nat 0.

End Planner.

Definition total_of (l : list MelodyEvent) : Q :=
  fold_right (fun e acc => duration e + acc)%Q 0%Q l.

(** ** numpy on one-dimensional arrays

    Arrays are lists; the functions below are numpy's, in exact arithmetic. *)

Definition zip_with {A B C : Type} (f : A -> B -> C) : list A -> list B -> list C :=
  fix go (xs : list A) (ys : list B) : list C :=
    match xs, ys with
    | x :: xs', y :: ys' => f x y :: go xs' ys'
    | _, _ => []
    end.

(** [np.arange(0, num)] *)
Definition arange (num : Z) : list Z := map Z.of_nat (seq 0 (Z.to_nat num)).

(** [np.linspace(start, stop, num, endpoint)]: [num] evenly spaced points.
    The step is [(stop - start) / div] with [div = num - 1] when the end
    point is included and [div = num] when it is not; numpy multiplies by
    [stop - start] itself when [div] is not positive, and raises
    [ValueError] for a negative [num].  [linspace_point] is the point of
    index [i]. *)
Definition linspace_point (start stop : Q) (num : Z) (endpoint : bool) (i : Z) : Q :=
  let div := if endpoint then num - 1 else num in
  let delta := (stop - start)%Q in
  ((if 0 <? div then inject_Z i * (delta / inject_Z div)
    else inject_Z i * delta) + start)%Q.

Definition linspace (start stop : Q) (num : Z) (endpoint : bool) : result (list Q) :=
  if num <? 0 then Raise ValueError
  else Ok (map (linspace_point start stop num endpoint) (arange num)).

(** [np.sign] *)
Definition np_sign (x : R) : R :=
  if Rlt_dec 0 x then 1%R else if Rlt_dec x 0 then (-1)%R else 0%R.

(** [np.zeros(n)] *)
Definition np_zeros (n : Z) : result (list R) :=
  if n <? 0 then Raise ValueError else Ok (repeat 0%R (Z.to_nat n)).

(** [np.max(np.abs(a))]; numpy raises [ValueError] on an empty array. *)
Definition np_max_abs (a : list R) : result R :=
  match a with
  | [] => Raise ValueError
  | x :: rest => Ok (fold_left (fun m y => Rmax m (Rabs y)) rest (Rabs x))
  end.

(** Python's resolution of one bound of a slice of a sequence of length
    [len]: a negative bound counts from the end, and the result is clamped
    to [0..len]. *)
Definition slice_index (len i : Z) : Z :=
  if i <? 0 then Z.max 0 (i + len) else Z.min i len.

(** Apply [f j] to the element at every position [j], counted from [start]. *)
Fixpoint imap {A : Type} (f : nat -> A -> A) (start : nat) (l : list A) : list A :=
  match l with
  | [] => []
  | x :: rest => f start x :: imap f (S start) rest
  end.

(** [a[start:stop] += wave].  The slice has [m] elements; [wave] must have
    [m] elements too, or exactly one (which numpy broadcasts over the
    slice); any other shape raises [ValueError]. *)
Definition slice_add (a : list R) (start stop : Z) (wave : list R) : result (list R) :=
  let len := Z.of_nat (List.length a) in
  let lo := Z.to_nat (slice_index len start) in
  let hi := Z.to_nat (slice_index len stop) in
  let m := (hi - lo)%nat in
  let inside (j : nat) : bool := ((lo <=? j) && (j <? lo + m))%nat in
  if (List.length wave =? m)%nat then
    Ok (imap (fun j x => if inside j then (x + nth (j - lo) wave 0)%R else x) 0 a)
  else if (List.length wave =? 1)%nat then
    Ok (imap (fun j x => if inside j then (x + nth 0 wave 0)%R else x) 0 a)
  else Raise ValueError.

(** ** [create_waveform] *)

Local Open Scope string_scope.

(** The instrument recipes: the raw sample at time [t] for [frequency]. *)
Definition recipe (instrument : string) (frequency t : R) : R :=
  (if instrument =? "piano" then
     6 / 10 * sin (2 * PI * frequency * t) +
     2 / 10 * sin (2 * PI * (frequency * 2) * t) +
     1 / 10 * sin (2 * PI * (frequency * 3) * t)
   else if instrument =? "organ" then
     5 / 10 * sin (2 * PI * (frequency * (5 / 10)) * t) +
     5 / 10 * sin (2 * PI * frequency * t) +
     3 / 10 * sin (2 * PI * (frequency * 2) * t)
   else if instrument =? "retro_synth" then
     np_sign (sin (2 * PI * frequency * t))
   else
     6 / 10 * sin (2 * PI * frequency * t) +
     2 / 10 * sin (2 * PI * (frequency * 2) * t))%R.

Definition create_waveform (frequency duration sample_rate : Q) (instrument : string)
  : result (list R) :=
  t <- linspace 0 duration (py_int (sample_rate * duration)) false ;;
  let data := map (fun ti => recipe instrument (Q2R frequency) (Q2R ti)) t in
  ramp <- linspace 0 (-5) (Z.of_nat (List.length data)) true ;;
  let envelope := map (fun x => exp (Q2R x)) ramp in
  Ok (zip_with Rmult data envelope).

(** The sample of index [j] of [create_waveform]'s result, read off the
    body above: the recipe at the [j]-th time point, times the envelope at
    the [j]-th point of the ramp from 0 to -5. *)
Definition waveform_sample (frequency duration sample_rate : Q) (instrument : string)
    (j : nat) : R :=
  let num := py_int (sample_rate * duration) in
  (recipe instrument (Q2R frequency)
          (Q2R (linspace_point 0 duration num false (Z.of_nat j))) *
   exp (Q2R (linspace_point 0 (-5) (Z.of_nat (Z.to_nat num)) true (Z.of_nat j))))%R.

(** ** The mixing loop of [generate_music] *)

Definition sample_rate : Q := 44100.

Record MixState : Type := mkMix {
  final_track_data : list R;
  current_pos_samples : Z;
  chord_index : nat
}.

(** [int(item["duration"] * sample_rate)] *)
Definition duration_samples (item : MelodyEvent) : Z :=
  py_int (duration item * sample_rate).

(** [int((quarter_note_duration * 4) * sample_rate)] *)
Definition bar_samples (mood : Mood) : Z :=
  py_int ((quarter_note_duration mood * 4) * sample_rate).

(** The "Add Melody" block. *)
Definition add_melody (instrument : string) (item : MelodyEvent)
    (pos : Z) (track : list R) : result (list R) :=
  if negb (note item =? REST) then
    freq <- NOTES_item (note item) ;;
    mel_wave <- create_waveform freq (duration item) sample_rate instrument ;;
    slice_add track pos (pos + duration_samples item)
              (map (fun x => x * (45 / 100))%R mel_wave)
  else Ok track.

(** The [for note_name in current_chord_notes] loop. *)
Fixpoint add_harmony (current_chord_notes : list string) (item : MelodyEvent)
    (pos : Z) (track : list R) : result (list R) :=
  match current_chord_notes with
  | [] => Ok track
  | note_name :: rest =>
      if in_NOTES note_name then
        freq <- NOTES_item note_name ;;
        chord_wave <- create_waveform freq (duration item) sample_rate "organ" ;;
        track' <- slice_add track pos (pos + duration_samples item)
                            (map (fun x => x * (20 / 100))%R chord_wave) ;;
        add_harmony rest item pos track'
      else add_harmony rest item pos track
  end.

(** The two statements that close the loop body: the cursor moves on, and
    the chord index advances when the new cursor position, modulo a bar, is
    less than the event's length. *)
Definition advance_indices (mood : Mood) (item : MelodyEvent)
    (pos : Z) (index : nat) : result (Z * nat) :=
  let pos' := pos + duration_samples item in
  if (bar_samples mood =? 0)%Z then Raise ZeroDivisionError
  else if (pos' mod bar_samples mood <? duration_samples item)%Z
       then Ok (pos', ((index + 1) mod List.length (chords mood))%nat)
       else Ok (pos', index).

(** One iteration of [for item in melody_sequence]. *)
Definition render_step (mood : Mood) (instrument : string)
    (st : MixState) (item : MelodyEvent) : result MixState :=
  let pos := current_pos_samples st in
  track1 <- add_melody instrument item pos (final_track_data st) ;;
  current_chord_notes <-
    match nth_error (chords mood) (chord_index st) with
    | Some c => Ok c
    | None => Raise IndexError
    end ;;
  track2 <- add_harmony current_chord_notes item pos track1 ;;
  ix <- advance_indices mood item pos (chord_index st) ;;
  Ok {| final_track_data := track2;
        current_pos_samples := fst ix;
        chord_index := snd ix |}.

Fixpoint mix_loop (mood : Mood) (instrument : string)
    (st : MixState) (melody_sequence : list MelodyEvent) : result MixState :=
  match melody_sequence with
  | [] => Ok st
  | item :: rest =>
      st' <- render_step mood instrument st item ;;
      mix_loop mood instrument st' rest
  end.

(** ** What one event adds to the track

    The layers of one event as functions of the sample index [i] inside the
    event, for stating what the loop body does to the track.  A chord note
    that is not a key of [NOTES] adds nothing. *)

Definition melody_sample (instrument : string) (item : MelodyEvent) (i : nat) : R :=
  if (note item =? REST)%string then 0%R
  else match dict_get NOTES (note item) with
       | Some freq =>
           (waveform_sample freq (duration item) sample_rate instrument i * (45 / 100))%R
       | None => 0%R
       end.

Fixpoint harmony_sample (current_chord_notes : list string) (item : MelodyEvent)
    (i : nat) : R :=
  match current_chord_notes with
  | [] => 0%R
  | note_name :: rest =>
      (match dict_get NOTES note_name with
       | Some freq =>
           waveform_sample freq (duration item) sample_rate "organ" i * (20 / 100)
       | None => 0
       end + harmony_sample rest item i)%R
  end.

(** The positions [pos .. pos + n - 1] of the track. *)
Definition in_window (pos n : Z) (j : nat) : bool :=
  ((Z.to_nat pos <=? j) && (j <? Z.to_nat pos + Z.to_nat n))%nat.

(** The cursor and the chord index after a run of events, without the
    track: the loop's index bookkeeping on its own. *)
Fixpoint indices_after (mood : Mood) (pos : Z) (index : nat)
    (melody_sequence : list MelodyEvent) : result (Z * nat) :=
  match melody_sequence with
  | [] => Ok (pos, index)
  | item :: rest =>
      ix <- advance_indices mood item pos index ;;
      indices_after mood (fst ix) (snd ix) rest
  end.

(** The samples a run of events takes up on the track. *)
Definition samples_total (melody_sequence : list MelodyEvent) : Z :=
  fold_right (fun item acc => duration_samples item + acc) 0 melody_sequence.

(** The events the loop body can take: a duration that is not negative,
    and a melody note that is a rest or a key of [NOTES]. *)
Definition playable (item : MelodyEvent) : Prop :=
  (0 <= duration item)%Q /\ (note item = REST \/ in_NOTES (note item) = true).

(** The state the mixing loop starts from. *)
Definition initial_state (zeros : list R) : MixState :=
  {| final_track_data := zeros; current_pos_samples := 0; chord_index := 0 |}.

(** ** The tempo arithmetic in double precision

    The same expressions of [generate_music] on IEEE-754 binary64 numbers
    (precision 53, maximal exponent 1024, round to nearest even). *)
Module Binary64.

Definition prec : Z := 53.
Definition emax : Z := 1024.

(** The float of a Python [int] (exact below 2^53). *)
Definition of_int (z : Z) : spec_float := binary_normalize prec emax z 0 false.

Definition mul : spec_float -> spec_float -> spec_float := SFmul prec emax.
Definition div : spec_float -> spec_float -> spec_float := SFdiv prec emax.

(** [int(x)]: truncation toward zero; [None] on infinities and NaN. *)
Definition to_int (x : spec_float) : option Z :=
  match x with
  | S754_zero _ => Some 0
  | S754_finite s m e =>
      let mag := if (0 <=? e)%Z then Z.shiftl (Zpos m) e
                 else Z.quot (Zpos m) (2 ^ (- e)) in
      Some (if s then - mag else mag)
  | S754_infinity _ | S754_nan => None
  end.

(** [60 / bpm] *)
Definition quarter_note_duration (mood : Mood) : spec_float :=
  div (of_int 60) (of_int (bpm mood)).

(** The literal [1.5]. *)
Definition one_and_a_half : spec_float := binary_normalize prec emax 3 (-1) false.

Definition rhythms (mood : Mood) : list spec_float :=
  [ quarter_note_duration mood;
    div (quarter_note_duration mood) (of_int 2);
    mul (quarter_note_duration mood) one_and_a_half ].

(** [int(duration * sample_rate)] at the sample rate 44100. *)
Definition duration_samples (d : spec_float) : option Z :=
  to_int (mul d (of_int 44100)).

(** [int((quarter_note_duration * 4) * sample_rate)] *)
Definition bar_samples (mood : Mood) : option Z :=
  to_int (mul (mul (quarter_note_duration mood) (of_int 4)) (of_int 44100)).

Definition add : spec_float -> spec_float -> spec_float := SFadd prec emax.
Definition sub : spec_float -> spec_float -> spec_float := SFsub prec emax.
Definition ltb : spec_float -> spec_float -> bool := SFltb.

(** The planning loop on doubles, for an [int] total duration: the
    durations it emits and the elapsed time at exit. *)
Fixpoint planning_loop (mood : Mood) (rnd : nat -> nat) (total : Z)
    (fuel k : nat) (current_time : spec_float) : option (list spec_float * spec_float) :=
  match fuel with
  | O => None
  | S fuel' =>
      if ltb current_time (of_int total) then
        let duration :=
          random_choice (rnd (2 * k)%nat) (rhythms mood) (quarter_note_duration mood) in
        let duration :=
          if ltb (of_int total) (add current_time duration)
          then sub (of_int total) current_time
          else duration in
        match planning_loop mood rnd total fuel' (S k) (add current_time duration) with
        | Some (durations, elapsed) => Some (duration :: durations, elapsed)
        | None => None
        end
      else Some ([], current_time)
  end.

(** A run is in order when the loop returns, the elapsed time at exit is
    the total duration exactly, every duration is positive, and the sample
    counts of the events fit the [44100 * total] samples of the track. *)
Definition run_in_order (mood : Mood) (rnd : nat -> nat) (total : Z) (fuel : nat) : bool :=
  match planning_loop mood rnd total fuel 0 (of_int 0) with
  | Some (durations, elapsed) =>
      SFeqb elapsed (of_int total) &&
      forallb (fun d => ltb (of_int 0) d) durations &&
      match fold_right (fun d acc =>
                          match duration_samples d, acc with
                          | Some n, Some m => Some (n + m)%Z
                          | _, _ => None
                          end) (Some 0%Z) durations with
      | Some n => (n <=? 44100 * total)%Z
      | None => false
      end
  | None => false
  end.

(** The rational number a finite double is; 0 for the others. *)
Definition to_Q (x : spec_float) : Q :=
  match x with
  | S754_finite s m e =>
      let mag := if (0 <=? e)%Z then inject_Z (Z.shiftl (Zpos m) e)
                 else (Zpos m # Z.to_pos (2 ^ (- e)))%Q in
      if s then (- mag)%Q else mag
  | S754_zero _ | S754_infinity _ | S754_nan => 0%Q
  end.

(** The planning loop on doubles for a [float] total duration, with the
    notes: the events as the mixing loop receives them. *)
Fixpoint plan (mood : Mood) (rnd : nat -> nat) (total : spec_float)
    (fuel k : nat) (current_time : spec_float) : option (list (string * spec_float)) :=
  match fuel with
  | O => None
  | S fuel' =>
      if ltb current_time total then
        let duration :=
          random_choice (rnd (2 * k)%nat) (rhythms mood) (quarter_note_duration mood) in
        let duration :=
          if ltb total (add current_time duration)
          then sub total current_time
          else duration in
        let melody_note := random_choice (rnd (2 * k + 1)%nat) (scale mood ++ [REST]) REST in
        match plan mood rnd total fuel' (S k) (add current_time duration) with
        | Some melody_sequence => Some ((melody_note, duration) :: melody_sequence)
        | None => None
        end
      else Some []
  end.

(** The event of the mixing model for a planned note and duration: the
    duration is the rational the double stands for. *)
Definition event_of (planned : string * spec_float) : MelodyEvent :=
  {| note := fst planned; duration := to_Q (snd planned) |}.

(** [int(sample_rate * total_duration_seconds)] at the sample rate 44100 *)
Definition track_samples (total : spec_float) : option Z :=
  to_int (mul (of_int 44100) total).

(** The literal [5.6]: the double nearest to 56/10. *)
Definition five_point_six : spec_float := div (of_int 56) (of_int 10).

End Binary64.

(** ** Normalisation *)

Definition normalize (track : list R) : result (list R) :=
  max_amp <- np_max_abs track ;;
  if Rlt_dec 0 max_amp then Ok (map (fun x => x / max_amp)%R track)
  else Ok track.

(** ** [generate_music], up to the normalised track

    The conversion to 16-bit integers and the file are outside the model.
    [None] when the planning loop is out of fuel. *)
Definition generate_music (fuel : nat) (rnd : nat -> nat)
    (mood_key instrument : string) (total_duration_seconds : Q)
  : option (result (list R)) :=
  match MOODS_item mood_key with
  | Raise e => Some (Raise e)
  | Ok mood =>
      if (bpm mood =? 0)%Z then Some (Raise ZeroDivisionError)
      else
        match melody_sequence_of mood rnd total_duration_seconds fuel with
        | None => None
        | Some melody_sequence =>
            Some (zeros <- np_zeros (py_int (sample_rate * total_duration_seconds)) ;;
                  st <- mix_loop mood instrument (initial_state zeros) melody_sequence ;;
                  normalize (final_track_data st))
        end
  end.

(** What [generate_music] does with the melody once it is planned, up to the
    normalised track: the silent track, the mixing loop and the
    normalisation. *)
Definition render_track (mood : Mood) (instrument : string)
    (total_duration_seconds : Q) (melody_sequence : list MelodyEvent)
  : result (list R) :=
  zeros <- np_zeros (py_int (sample_rate * total_duration_seconds)) ;;
  st <- mix_loop mood instrument (initial_state zeros) melody_sequence ;;
  normalize (final_track_data st).

Local Close Scope string_scope.

(** ** Conversion to 16-bit samples and the output file *)

(** The conversion of a float to an integer type: the fraction is dropped
    (rounding toward zero). *)
Definition trunc_R (x : R) : Z :=
  if Rle_dec 0 x then Int_part x else - Int_part (- x).

(** A 16-bit signed integer keeps the low 16 bits, in two's complement.
    (numpy leaves the conversion of a float outside the 16-bit range to the
    platform; the tracks of [generate_music] never leave the range.) *)
Definition wrap_int16 (z : Z) : Z := (z + 32768) mod 65536 - 32768.

(** [a.astype(np.int16)] *)
Definition astype_int16 (a : list R) : list Z :=
  map (fun x => wrap_int16 (trunc_R x)) a.

(** [scaled_data = (final_track_data * 32767).astype(np.int16)] *)
Definition scaled_data (final_track_data : list R) : list Z :=
  astype_int16 (map (fun x => x * 32767)%R final_track_data).

(** [str(n)] for an [int]. *)
Definition py_str_int (n : Z) : string :=
  DecimalString.NilZero.string_of_int (Z.to_int n).

(** [f"track_{mood_key}_{instrument}_{timestamp}.wav"] *)
Definition track_filename (mood_key instrument : string) (timestamp : Z) : string :=
  ("track_" ++ mood_key ++ "_" ++ instrument ++ "_" ++ py_str_int timestamp ++ ".wav")%string.

(** What [generate_music] hands to [write]: the file name, the sample rate
    and the 16-bit samples.  [timestamp] is [int(time.time())]. *)
Definition generate_music_file (fuel : nat) (rnd : nat -> nat)
    (mood_key instrument : string) (total_duration_seconds : Q) (timestamp : Z)
  : option (result (string * Z * list Z)) :=
  match generate_music fuel rnd mood_key instrument total_duration_seconds with
  | None => None
  | Some r =>
      Some (final_track_data <- r ;;
            Ok (track_filename mood_key instrument timestamp, 44100,
                scaled_data final_track_data))
  end.

(** ** The script

    [int(input(...))] reads one line: the input is the list of the lines
    still to come, each already parsed ([None] when the line is not an
    integer literal, for which [int] raises [ValueError]); reading past the
    end raises [EOFError].  The prompts and messages are not modelled; the
    outcome tells which message the script ends with.  [write] is taken to
    succeed, and memory to be unbounded. *)

Inductive script_error : Type :=
| EngineError (e : py_error)
| EOFError.

Inductive outcome : Type :=
| Saved (filename : string) (rate : Z) (data : list Z)
| InvalidChoice
| UnexpectedError.

(** [l[i]] on a Python list: a negative index counts from the end. *)
Definition py_list_item {A : Type} (l : list A) (i : Z) : result A :=
  let len := Z.of_nat (List.length l) in
  let i' := if i <? 0 then i + len else i in
  if (i' <? 0) || (len <=? i') then Raise IndexError
  else match nth_error l (Z.to_nat i') with
       | Some x => Ok x
       | None => Raise IndexError
       end.

Definition instrument_options : list string :=
  ["piano"; "organ"; "retro_synth"]%string.

(** [list(MOODS.keys())] *)
Definition mood_options : list string := map fst MOODS.

(** [int(input(...))] *)
Definition input_int (stdin : list (option Z))
  : script_error + (Z * list (option Z)) :=
  match stdin with
  | [] => inl EOFError
  | None :: _ => inl (EngineError ValueError)
  | Some n :: rest => inr (n, rest)
  end.

Definition lift_result {A : Type} (r : result A) : script_error + A :=
  match r with
  | Ok a => inr a
  | Raise e => inl (EngineError e)
  end.

(** The body of the [try] block; [None] when the planning loop is out of
    fuel. *)
Definition script_body (fuel : nat) (rnd : nat -> nat) (timestamp : Z)
    (stdin : list (option Z)) : option (script_error + (string * Z * list Z)) :=
  match input_int stdin with
  | inl e => Some (inl e)
  | inr (inst_choice_num, stdin1) =>
      match lift_result (py_list_item instrument_options (inst_choice_num - 1)) with
      | inl e => Some (inl e)
      | inr chosen_instrument =>
          match input_int stdin1 with
          | inl e => Some (inl e)
          | inr (mood_choice_num, stdin2) =>
              match lift_result (py_list_item mood_options (mood_choice_num - 1)) with
              | inl e => Some (inl e)
              | inr chosen_mood =>
                  match input_int stdin2 with
                  | inl e => Some (inl e)
                  | inr (duration, _) =>
                      option_map lift_result
                        (generate_music_file fuel rnd chosen_mood chosen_instrument
                                             (inject_Z duration) timestamp)
                  end
              end
          end
      end
  end.

(** The [try] statement with its two handlers. *)
Definition script (fuel : nat) (rnd : nat -> nat) (timestamp : Z)
    (stdin : list (option Z)) : option outcome :=
  match script_body fuel rnd timestamp stdin with
  | None => None
  | Some (inr (filename, rate, data)) => Some (Saved filename rate data)
  | Some (inl (EngineError ValueError)) => Some InvalidChoice
  | Some (inl (EngineError IndexError)) => Some InvalidChoice
  | Some (inl _) => Some UnexpectedError
  end.

(** ** Amplitudes

    The largest absolute value a recipe can take: the sum of its
    weights. *)
Definition recipe_peak (instrument : string) : R :=
  (if (instrument =? "piano")%string then 9 / 10
   else if (instrument =? "organ")%string then 13 / 10
   else if (instrument =? "retro_synth")%string then 1
   else 8 / 10)%R.

(** * Worked examples *)

Example py_int_truncates : py_int (7 # 2) = 3 /\ py_int (-7 # 2) = -3.
Proof. split; reflexivity. Qed.

Example py_round_half_even :
  py_round (5 # 2) = 2 /\ py_round (7 # 2) = 4 /\ py_round (1764 # 1000) = 2.
Proof. repeat split; reflexivity. Qed.

Example linspace_open :
  match linspace 0 1 4 false with
  | Ok t => map Qred t = [0; 1 # 4; 1 # 2; 3 # 4]%Q
  | Raise _ => False
  end.
Proof. reflexivity. Qed.

Example linspace_closed :
  match linspace 0 (-5) 3 true with
  | Ok t => map Qred t = [0; -5 # 2; -5 # 1]%Q
  | Raise _ => False
  end.
Proof. reflexivity. Qed.

Example slice_index_clamps :
  slice_index 10 3 = 3 /\ slice_index 10 12 = 10 /\
  slice_index 10 (-2) = 8 /\ slice_index 10 (-12) = 0.
Proof. repeat split; reflexivity. Qed.

(** Two seconds of "sad" with the draws 0, 1, 2, ...: a quarter note of
    0.8 s, then a dotted quarter clipped by nothing (0.8 + 1.2 = 2). *)
Example plan_sad_two_seconds :
  melody_sequence_of sad (fun k => k) 2 (plan_fuel sad 2)
  = Some [ {| note := "Eb4"; duration := 60 # 75 |};
           {| note := "G4"; duration := 180 # 150 |} ].
Proof. reflexivity. Qed.

(** One second of "happy" with every draw 2: a dotted quarter of 0.75 s,
    then a second one clipped to the remaining 0.25 s. *)
Example plan_happy_clipped :
  option_map (map (fun item => Qred (duration item)))
             (melody_sequence_of happy (fun _ => 2%nat) 1 (plan_fuel happy 1))
  = Some [3 # 4; 1 # 4]%Q.
Proof. reflexivity. Qed.

(** * Facts about the numbers *)

Lemma Qltb_lt (x y : Q) : Qltb x y = true <-> (x < y)%Q.
Proof. unfold Qltb, Qlt. apply Z.ltb_lt. Qed.

Lemma Qltb_ge (x y : Q) : Qltb x y = false <-> (y <= x)%Q.
Proof. unfold Qltb, Qle. apply Z.ltb_ge. Qed.

Lemma random_choice_In {A : Type} (draw : nat) (seq : list A) (default : A) :
  seq <> [] -> In (random_choice draw seq default) seq.
Proof.
  intros Hne. unfold random_choice. apply nth_In.
  apply Nat.mod_upper_bound. destruct seq; [congruence | discriminate].
Qed.

(** * Facts about the planning loop *)

Section PlannerFacts.

Local Open Scope Q_scope.

Variable mood : Mood.
Variable rnd : nat -> nat.
Variable total : Q.
Hypothesis bpm_pos : (0 < bpm mood)%Z.

Let q := quarter_note_duration mood.

Lemma quarter_note_duration_pos : 0 < q.
Proof.
  unfold q, quarter_note_duration.
  apply Qlt_shift_div_l.
  - change 0 with (inject_Z 0). rewrite <- Zlt_Qlt. exact bpm_pos.
  - reflexivity.
Qed.

Lemma rhythm_choice_bounds (draw : nat) :
  q / 2 <= random_choice draw (rhythms mood) q.
Proof.
  pose proof quarter_note_duration_pos as Hq.
  assert (Hin : In (random_choice draw (rhythms mood) q) (rhythms mood))
    by (apply random_choice_In; discriminate).
  set (d := random_choice draw (rhythms mood) q) in *. clearbody d.
  unfold rhythms in Hin. fold q in Hin. simpl in Hin.
  destruct Hin as [<- | [<- | [<- | []]]]; qlra.
Qed.

Lemma plan_step_spec (k : nat) (current_time : Q) :
  current_time < total ->
  let (item, current_time') := plan_step mood rnd total k current_time in
  0 < duration item /\
  current_time' == current_time + duration item /\
  current_time < current_time' /\
  current_time' <= total /\
  (current_time' == total \/ q / 2 <= duration item) /\
  In (note item) (scale mood ++ [REST]).
Proof.
  intros Hlt. unfold plan_step. fold q.
  pose proof quarter_note_duration_pos as Hq.
  pose proof (rhythm_choice_bounds (rnd (2 * k)%nat)) as Hd.
  set (d := random_choice (rnd (2 * k)%nat) (rhythms mood) q) in *.
  assert (Hnote : In (random_choice (rnd (2 * k + 1)%nat) (scale mood ++ [REST]) REST)
                     (scale mood ++ [REST])).
  { apply random_choice_In. intros H. apply app_eq_nil in H. destruct H; discriminate. }
  destruct (Qltb total (current_time + d)) eqn:Hclip; cbn [duration note].
  - apply Qltb_lt in Hclip. repeat split; try qlra; auto.
  - apply Qltb_ge in Hclip. repeat split; try qlra; auto.
Qed.

(** More fuel does not change a result. *)
Lemma planning_loop_fuel_mono (fuel fuel' : nat) :
  (fuel <= fuel')%nat ->
  forall k current_time melody_sequence,
    planning_loop mood rnd total fuel k current_time = Some melody_sequence ->
    planning_loop mood rnd total fuel' k current_time = Some melody_sequence.
Proof.
  revert fuel'. induction fuel as [| fuel IH]; intros fuel' Hle k ct ms H.
  - discriminate.
  - destruct fuel' as [| fuel']; [lia |].
    cbn [planning_loop] in *.
    destruct (Qltb ct total); [| exact H].
    destruct (plan_step mood rnd total k ct) as [item ct'].
    destruct (planning_loop mood rnd total fuel (S k) ct') as [ms' |] eqn:E;
      [| discriminate].
    rewrite (IH fuel' ltac:(lia) _ _ _ E). exact H.
Qed.

(** [n] half quarter notes of remaining time are covered by [n+1]
    evaluations of the loop condition. *)
Lemma planning_loop_terminates (n : nat) :
  forall k current_time,
    total - current_time <= inject_Z (Z.of_nat n) * (q / 2) ->
    exists melody_sequence,
      planning_loop mood rnd total (S n) k current_time = Some melody_sequence.
Proof.
  pose proof quarter_note_duration_pos as Hq.
  induction n as [| n IH]; intros k ct Hrem; cbn [planning_loop].
  - destruct (Qltb ct total) eqn:Hc; [| eauto].
    apply Qltb_lt in Hc. change (inject_Z (Z.of_nat 0)) with 0 in Hrem. qlra.
  - destruct (Qltb ct total) eqn:Hc; [| eauto].
    apply Qltb_lt in Hc.
    pose proof (plan_step_spec k ct Hc) as Hs.
    destruct (plan_step mood rnd total k ct) as [item ct'].
    destruct Hs as (Hpos & Hsum & Hadv & Hle & Hlast & _).
    assert (HS : inject_Z (Z.of_nat (S n)) == inject_Z (Z.of_nat n) + 1).
    { rewrite Nat2Z.inj_succ, <- Z.add_1_r, inject_Z_plus. reflexivity. }
    assert (Hn : 0 <= inject_Z (Z.of_nat n)).
    { change 0 with (inject_Z 0). rewrite <- Zle_Qle. lia. }
    destruct (IH (S k) ct') as [ms Hms].
    + rewrite HS in Hrem.
      destruct Hlast as [Hend | Hhalf]; [| qlra].
      assert (0 <= inject_Z (Z.of_nat n) * (q / 2)) by (apply Qmult_le_0_compat; qlra).
      qlra.
    + cbn [planning_loop] in Hms. rewrite Hms. eauto.
Qed.

Lemma plan_fuel_enough :
  total - 0 <= inject_Z (Z.of_nat (Z.to_nat (Qceiling (total / (q / 2))))) * (q / 2).
Proof.
  pose proof quarter_note_duration_pos as Hq.
  set (c := Qceiling (total / (q / 2))).
  assert (Hc : total / (q / 2) <= inject_Z c) by apply Qle_ceiling.
  assert (Hz : inject_Z c <= inject_Z (Z.of_nat (Z.to_nat c))).
  { rewrite <- Zle_Qle. lia. }
  assert (Hm : total / (q / 2) * (q / 2) <= inject_Z (Z.of_nat (Z.to_nat c)) * (q / 2)).
  { apply Qmult_le_compat_r; qlra. }
  assert (He : total / (q / 2) * (q / 2) == total) by (field; intro; qlra).
  qlra.
Qed.

(** What every result of the loop satisfies. *)
Lemma planning_loop_sound (fuel : nat) :
  forall k current_time melody_sequence,
    planning_loop mood rnd total fuel k current_time = Some melody_sequence ->
    Forall (fun item => 0 < duration item /\ In (note item) (scale mood ++ [REST]))
           melody_sequence /\
    (current_time <= total -> current_time + total_of melody_sequence == total).
Proof.
  induction fuel as [| fuel IH]; intros k ct ms H; [discriminate |].
  cbn [planning_loop] in H.
  destruct (Qltb ct total) eqn:Hc.
  - apply Qltb_lt in Hc.
    pose proof (plan_step_spec k ct Hc) as Hs.
    destruct (plan_step mood rnd total k ct) as [item ct'].
    destruct Hs as (Hpos & Hsum & Hadv & Hle & _ & Hnote).
    destruct (planning_loop mood rnd total fuel (S k) ct') as [ms' |] eqn:E;
      [| discriminate].
    injection H as <-.
    destruct (IH _ _ _ E) as [Hall Htot]. split.
    + constructor; auto.
    + intros _. cbn [total_of fold_right]. specialize (Htot Hle).
      fold (total_of ms'). qlra.
  - apply Qltb_ge in Hc. injection H as <-. split; [constructor |].
    intros Hle. cbn. qlra.
Qed.

End PlannerFacts.

(** * The mood catalog *)

Lemma catalog_cases (mood_key : string) (mood : Mood) :
  dict_get MOODS mood_key = Some mood ->
  mood = happy \/ mood = sad \/ mood = dreamy.
Proof.
  unfold MOODS. cbn [dict_get].
  repeat match goal with
         | |- context [String.eqb ?a ?b] => destruct (String.eqb a b)
         end; intros H; inversion H; auto.
Qed.

Lemma catalog_bpm_pos (mood_key : string) (mood : Mood) :
  dict_get MOODS mood_key = Some mood -> (0 < bpm mood)%Z.
Proof.
  intros H. destruct (catalog_cases _ _ H) as [-> | [-> | ->]]; reflexivity.
Qed.

Lemma catalog_scale_in_NOTES (mood_key : string) (mood : Mood) :
  dict_get MOODS mood_key = Some mood ->
  forallb in_NOTES (scale mood) = true.
Proof.
  intros H. destruct (catalog_cases _ _ H) as [-> | [-> | ->]]; reflexivity.
Qed.

(** The planner returns, whatever the draws, for a catalog mood. *)
Lemma planner_returns (mood : Mood) (rnd : nat -> nat) (total : Q) :
  (0 < bpm mood)%Z ->
  exists melody_sequence,
    (forall fuel, (plan_fuel mood total <= fuel)%nat ->
       melody_sequence_of mood rnd total fuel = Some melody_sequence) /\
    Forall (fun item => (0 < duration item)%Q /\ In (note item) (scale mood ++ [REST]))
           melody_sequence /\
    ((0 <= total)%Q -> (total_of melody_sequence == total)%Q).
Proof.
  intros Hbpm.
  destruct (planning_loop_terminates mood rnd total Hbpm _ 0%nat 0%Q
              (plan_fuel_enough mood total Hbpm)) as [ms Hms].
  exists ms.
  destruct (planning_loop_sound mood rnd total Hbpm _ _ _ _ Hms) as [Hall Hsum].
  split; [| split].
  - intros fuel Hfuel. unfold melody_sequence_of.
    eapply planning_loop_fuel_mono; [| exact Hms]. exact Hfuel.
  - exact Hall.
  - intros Hd. specialize (Hsum Hd). lra.
Qed.

(** C1.  For every mood of the catalog and every total duration [d > 0],
    the planning loop returns a sequence of events (with [plan_fuel] or more
    iterations allowed) whose durations sum to [d] exactly, and every event
    has a strictly positive duration. *)
Theorem planned_durations_sum_to_total
    (mood_key : string) (mood : Mood) (rnd : nat -> nat) (d : Q) :
  dict_get MOODS mood_key = Some mood ->
  (0 < d)%Q ->
  exists melody_sequence,
    (forall fuel, (plan_fuel mood d <= fuel)%nat ->
       melody_sequence_of mood rnd d fuel = Some melody_sequence) /\
    (total_of melody_sequence == d)%Q /\
    Forall (fun item => (0 < duration item)%Q) melody_sequence.
Proof.
  intros Hmood Hd.
  destruct (planner_returns mood rnd d (catalog_bpm_pos _ _ Hmood))
    as (ms & Hret & Hall & Hsum).
  exists ms. split; [exact Hret | split].
  - apply Hsum. lra.
  - eapply Forall_impl; [| exact Hall]. intros item [H _]. exact H.
Qed.

Lemma planned_durations_sum_to_total_witness :
  exists melody_sequence,
    (forall fuel, (plan_fuel sad 8 <= fuel)%nat ->
       melody_sequence_of sad (fun k => k) 8 fuel = Some melody_sequence) /\
    (total_of melody_sequence == 8)%Q /\
    Forall (fun item => (0 < duration item)%Q) melody_sequence.
Proof.
  apply (planned_durations_sum_to_total "sad" sad (fun k => k) 8).
  - reflexivity.
  - reflexivity.
Defined.

(** C8.  For every mood of the catalog and every total duration the
    planning loop terminates: [plan_fuel] iterations are enough whatever the
    draws; every iteration entered moves the elapsed time forward by the
    strictly positive duration of the event it emits, so no event of
    duration zero is emitted. *)
Theorem planning_loop_total
    (mood_key : string) (mood : Mood) (rnd : nat -> nat) (d : Q) :
  dict_get MOODS mood_key = Some mood ->
  (exists melody_sequence,
     (forall fuel, (plan_fuel mood d <= fuel)%nat ->
        melody_sequence_of mood rnd d fuel = Some melody_sequence) /\
     Forall (fun item => (0 < duration item)%Q) melody_sequence) /\
  (forall k current_time,
     (current_time < d)%Q ->
     (0 < duration (fst (plan_step mood rnd d k current_time)))%Q /\
     (snd (plan_step mood rnd d k current_time) ==
        current_time + duration (fst (plan_step mood rnd d k current_time)))%Q /\
     (current_time < snd (plan_step mood rnd d k current_time))%Q).
Proof.
  intros Hmood. pose proof (catalog_bpm_pos _ _ Hmood) as Hbpm. split.
  - destruct (planner_returns mood rnd d Hbpm) as (ms & Hret & Hall & _).
    exists ms. split; [exact Hret |].
    eapply Forall_impl; [| exact Hall]. intros item [H _]. exact H.
  - intros k ct Hlt.
    pose proof (plan_step_spec mood rnd d Hbpm k ct Hlt) as Hs.
    destruct (plan_step mood rnd d k ct) as [item ct']. cbn [fst snd].
    destruct Hs as (H1 & H2 & H3 & _). auto.
Qed.

Lemma planning_loop_total_witness :
  (exists melody_sequence,
     (forall fuel, (plan_fuel happy 3 <= fuel)%nat ->
        melody_sequence_of happy (fun k => k) 3 fuel = Some melody_sequence) /\
     Forall (fun item => (0 < duration item)%Q) melody_sequence) /\
  (forall k current_time,
     (current_time < 3)%Q ->
     (0 < duration (fst (plan_step happy (fun k => k) 3 k current_time)))%Q /\
     (snd (plan_step happy (fun k => k) 3 k current_time) ==
        current_time + duration (fst (plan_step happy (fun k => k) 3 k current_time)))%Q /\
     (current_time < snd (plan_step happy (fun k => k) 3 k current_time))%Q).
Proof.
  apply (planning_loop_total "happy" happy (fun k => k) 3).
  reflexivity.
Defined.

(** C9.  Every note of the scale of every mood of the catalog is a key of
    [NOTES]; hence for every event the planner emits for a catalog mood
    that is not a rest, the lookup [NOTES[item["note"]]] of the mixing loop
    returns a frequency and raises no [KeyError]. *)
Theorem scale_notes_resolve
    (mood_key : string) (mood : Mood) (rnd : nat -> nat) (d : Q) :
  dict_get MOODS mood_key = Some mood ->
  (forall note_name, In note_name (scale mood) -> in_NOTES note_name = true) /\
  exists melody_sequence,
    (forall fuel, (plan_fuel mood d <= fuel)%nat ->
       melody_sequence_of mood rnd d fuel = Some melody_sequence) /\
    forall item, In item melody_sequence ->
      note item <> REST ->
      exists freq, NOTES_item (note item) = Ok freq.
Proof.
  intros Hmood.
  pose proof (catalog_scale_in_NOTES _ _ Hmood) as Hscale.
  rewrite forallb_forall in Hscale. split; [exact Hscale |].
  destruct (planner_returns mood rnd d (catalog_bpm_pos _ _ Hmood))
    as (ms & Hret & Hall & _).
  exists ms. split; [exact Hret |].
  intros item Hin Hrest.
  rewrite Forall_forall in Hall. destruct (Hall item Hin) as [_ Hnote].
  apply in_app_or in Hnote. destruct Hnote as [Hs | [Hr | []]].
  - specialize (Hscale _ Hs). unfold in_NOTES in Hscale. unfold NOTES_item.
    destruct (dict_get NOTES (note item)); [eauto | discriminate].
  - congruence.
Qed.

Lemma scale_notes_resolve_witness :
  (forall note_name, In note_name (scale dreamy) -> in_NOTES note_name = true) /\
  exists melody_sequence,
    (forall fuel, (plan_fuel dreamy 5 <= fuel)%nat ->
       melody_sequence_of dreamy (fun k => 3 * k)%nat 5 fuel = Some melody_sequence) /\
    forall item, In item melody_sequence ->
      note item <> REST ->
      exists freq, NOTES_item (note item) = Ok freq.
Proof.
  apply (scale_notes_resolve "dreamy" dreamy (fun k => 3 * k)%nat 5).
  reflexivity.
Defined.

Lemma py_int_nonneg (x : Q) : (0 <= x)%Q -> py_int x = Qfloor x.
Proof.
  destruct x as [n d]. unfold Qle, py_int, Qfloor. cbn. intros H.
  apply Z.quot_div_nonneg; lia.
Qed.

Lemma py_int_neg (x : Q) : (x <= 0)%Q -> py_int x = Qceiling x.
Proof.
  destruct x as [n d]. unfold Qle, py_int, Qceiling, Qfloor. cbn. intros H.
  replace n with (- - n) at 1 by lia.
  rewrite Z.quot_opp_l by lia. f_equal.
  apply Z.quot_div_nonneg; lia.
Qed.

Lemma py_int_comp (x y : Q) : (x == y)%Q -> py_int x = py_int y.
Proof.
  intros E. destruct (Qlt_le_dec x 0) as [Hneg | Hpos].
  - rewrite (py_int_neg x), (py_int_neg y) by lra. now rewrite E.
  - rewrite (py_int_nonneg x), (py_int_nonneg y) by lra. now rewrite E.
Qed.

Lemma py_int_nonneg_le (x : Q) : (0 <= x)%Q -> 0 <= py_int x.
Proof.
  intros H. rewrite py_int_nonneg by exact H.
  rewrite <- (Qfloor_Z 0). apply Qfloor_resp_le. exact H.
Qed.

(** Truncation is monotone and superadditive on non-negative numbers. *)
Lemma py_int_mono (x y : Q) : (0 <= x)%Q -> (x <= y)%Q -> py_int x <= py_int y.
Proof.
  intros Hx Hxy. rewrite !py_int_nonneg by lra. apply Qfloor_resp_le. exact Hxy.
Qed.

Lemma py_int_superadd (x y : Q) :
  (0 <= x)%Q -> (0 <= y)%Q -> py_int x + py_int y <= py_int (x + y).
Proof.
  intros Hx Hy. rewrite !py_int_nonneg by lra.
  rewrite <- (Qfloor_Z (Qfloor x + Qfloor y)).
  apply Qfloor_resp_le. rewrite inject_Z_plus.
  pose proof (Qfloor_le x). pose proof (Qfloor_le y). lra.
Qed.

(** * Facts about arrays *)

Lemma zip_with_length {A B C : Type} (f : A -> B -> C) (xs : list A) :
  forall ys, List.length (zip_with f xs ys) = Nat.min (List.length xs) (List.length ys).
Proof.
  induction xs as [| x xs IH]; intros [| y ys]; cbn; auto.
Qed.

Lemma zip_with_nth {A B C : Type} (f : A -> B -> C) (da : A) (db : B) (dc : C)
    (xs : list A) :
  forall ys j,
    (j < List.length xs)%nat -> (j < List.length ys)%nat ->
    nth j (zip_with f xs ys) dc = f (nth j xs da) (nth j ys db).
Proof.
  induction xs as [| x xs IH]; intros [| y ys] [| j] Hx Hy; cbn in *; try lia; auto.
  apply IH; lia.
Qed.

Lemma map_nth_in {A B : Type} (f : A -> B) (da : A) (db : B) (l : list A) (j : nat) :
  (j < List.length l)%nat -> nth j (map f l) db = f (nth j l da).
Proof.
  intros Hj. rewrite (nth_indep _ db (f da)) by (rewrite length_map; exact Hj).
  apply map_nth.
Qed.

Lemma arange_length (num : Z) : List.length (arange num) = Z.to_nat num.
Proof. unfold arange. rewrite length_map, length_seq. reflexivity. Qed.

Lemma arange_nth (num : Z) (j : nat) :
  (j < Z.to_nat num)%nat -> nth j (arange num) 0 = Z.of_nat j.
Proof.
  intros Hj. unfold arange.
  rewrite (map_nth_in Z.of_nat 0%nat) by (rewrite length_seq; exact Hj).
  rewrite seq_nth by exact Hj. reflexivity.
Qed.

Lemma linspace_ok (start stop : Q) (num : Z) (endpoint : bool) :
  0 <= num ->
  linspace start stop num endpoint =
    Ok (map (linspace_point start stop num endpoint) (arange num)).
Proof.
  intros Hnum. unfold linspace.
  destruct (num <? 0) eqn:E; [apply Z.ltb_lt in E; lia | reflexivity].
Qed.

Lemma linspace_negative (start stop : Q) (num : Z) (endpoint : bool) :
  num < 0 -> linspace start stop num endpoint = Raise ValueError.
Proof.
  intros Hnum. unfold linspace.
  destruct (num <? 0) eqn:E; [reflexivity | apply Z.ltb_ge in E; lia].
Qed.

(** * Facts about [create_waveform] *)

Section Waveform.

Variables frequency duration rate : Q.
Variable instrument : string.

Let N : Z := py_int (rate * duration).

Lemma create_waveform_raises :
  N < 0 -> create_waveform frequency duration rate instrument = Raise ValueError.
Proof.
  intros HN. unfold create_waveform. fold N.
  rewrite linspace_negative by exact HN. reflexivity.
Qed.

Lemma create_waveform_ok :
  0 <= N ->
  exists buf,
    create_waveform frequency duration rate instrument = Ok buf /\
    List.length buf = Z.to_nat N /\
    forall j, (j < Z.to_nat N)%nat -> nth j buf 0%R = waveform_sample frequency duration rate instrument j.
Proof.
  intros HN. unfold create_waveform. fold N.
  rewrite linspace_ok by exact HN. cbn [bind].
  rewrite length_map, length_map, arange_length.
  rewrite linspace_ok by lia. cbn [bind].
  eexists. split; [reflexivity |]. split.
  - rewrite zip_with_length. repeat rewrite length_map.
    rewrite !arange_length. rewrite Nat2Z.id. apply Nat.min_id.
  - intros j Hj.
    rewrite (zip_with_nth Rmult 0%R 0%R).
    2: { rewrite !length_map, arange_length. exact Hj. }
    2: { rewrite !length_map, arange_length, Nat2Z.id. exact Hj. }
    unfold waveform_sample. fold N. f_equal.
    + rewrite (map_nth_in _ 0%Q) by (rewrite length_map, arange_length; exact Hj).
      rewrite (map_nth_in _ 0) by (rewrite arange_length; exact Hj).
      rewrite arange_nth by exact Hj. reflexivity.
    + rewrite (map_nth_in _ 0%Q)
        by (rewrite length_map, arange_length, Nat2Z.id; exact Hj).
      rewrite (map_nth_in _ 0) by (rewrite arange_length, Nat2Z.id; exact Hj).
      rewrite arange_nth by (rewrite Nat2Z.id; exact Hj). reflexivity.
Qed.

End Waveform.

Lemma Q2R_of_Qeq (x y : Q) : (x == y)%Q -> Q2R x = Q2R y.
Proof. apply Qeq_eqR. Qed.

Lemma Q2R_zero : Q2R 0 = 0%R.
Proof. unfold Q2R. cbn. lra. Qed.

Lemma np_sign_cases (x : R) : np_sign x = (-1)%R \/ np_sign x = 0%R \/ np_sign x = 1%R.
Proof.
  unfold np_sign. destruct (Rlt_dec 0 x); [auto |]. destruct (Rlt_dec x 0); auto.
Qed.

Lemma np_sign_zero : np_sign 0 = 0%R.
Proof.
  unfold np_sign. destruct (Rlt_dec 0 0); [lra |]. destruct (Rlt_dec 0 0); [lra | reflexivity].
Qed.

Lemma np_sign_pos (x : R) : (0 < x)%R -> np_sign x = 1%R.
Proof. intros H. unfold np_sign. destruct (Rlt_dec 0 x); [reflexivity | contradiction]. Qed.

Lemma exp_le_one (x : R) : (x <= 0)%R -> (0 < exp x <= 1)%R.
Proof.
  intros H. split; [apply exp_pos |].
  destruct H as [H | ->]; [| rewrite exp_0; lra].
  left. rewrite <- exp_0. apply exp_increasing. exact H.
Qed.

Lemma exp_lt_one (x : R) : (x < 0)%R -> (0 < exp x < 1)%R.
Proof.
  intros H. split; [apply exp_pos |]. rewrite <- exp_0. apply exp_increasing. exact H.
Qed.

(** The ramp of the envelope starts at 0 and never rises above it. *)
Lemma envelope_ramp_nonpos (num : Z) (j : nat) :
  (linspace_point 0 (-5) num true (Z.of_nat j) <= 0)%Q.
Proof.
  unfold linspace_point.
  assert (Hj : (0 <= inject_Z (Z.of_nat j))%Q).
  { change 0%Q with (inject_Z 0). rewrite <- Zle_Qle. lia. }
  destruct (0 <? num - 1) eqn:E.
  - apply Z.ltb_lt in E.
    assert (Hd : (0 < inject_Z (num - 1))%Q).
    { change 0%Q with (inject_Z 0). rewrite <- Zlt_Qlt. exact E. }
    assert (Hs : ((-5 - 0) / inject_Z (num - 1) <= 0)%Q).
    { apply Qle_shift_div_r; [exact Hd | lra]. }
    set (s := ((-5 - 0) / inject_Z (num - 1))%Q) in *. nra.
  - nra.
Qed.

Lemma envelope_ramp_first (num : Z) :
  (linspace_point 0 (-5) num true (Z.of_nat 0) == 0)%Q.
Proof.
  unfold linspace_point. change (inject_Z (Z.of_nat 0)) with 0%Q.
  destruct (0 <? num - 1); ring.
Qed.

Lemma recipe_silent (instrument : string) (t : R) : recipe instrument 0 t = 0%R.
Proof.
  unfold recipe.
  assert (H1 : sin (2 * PI * 0 * t) = 0%R)
    by (replace (2 * PI * 0 * t)%R with 0%R by ring; apply sin_0).
  assert (H2 : sin (2 * PI * (0 * 2) * t) = 0%R)
    by (replace (2 * PI * (0 * 2) * t)%R with 0%R by ring; apply sin_0).
  assert (H3 : sin (2 * PI * (0 * 3) * t) = 0%R)
    by (replace (2 * PI * (0 * 3) * t)%R with 0%R by ring; apply sin_0).
  assert (H4 : sin (2 * PI * (0 * (5 / 10)) * t) = 0%R)
    by (replace (2 * PI * (0 * (5 / 10)) * t)%R with 0%R by field; apply sin_0).
  rewrite H1, H2, H3, H4, np_sign_zero.
  destruct (instrument =? "piano")%string; [lra |].
  destruct (instrument =? "organ")%string; [lra |].
  destruct (instrument =? "retro_synth")%string; lra.
Qed.

Lemma positive_sample_count (duration rate : Q) :
  (0 < duration)%Q -> (0 < rate)%Q -> 0 <= py_int (rate * duration).
Proof.
  intros Hd Hr. apply py_int_nonneg_le. apply Qmult_le_0_compat; lra.
Qed.

(** C2, as the source has it.  For every frequency [f > 0], duration
    [d > 0], sample rate [r > 0] and instrument identifier, [create_waveform]
    returns a buffer of [int(r * d)] samples: the product truncated, which
    for these inputs is its floor, not its rounding. *)
Theorem waveform_length_truncated (f d r : Q) (instrument : string) :
  (0 < f)%Q -> (0 < d)%Q -> (0 < r)%Q ->
  exists buf,
    create_waveform f d r instrument = Ok buf /\
    Z.of_nat (List.length buf) = py_int (r * d) /\
    py_int (r * d) = Qfloor (r * d).
Proof.
  intros Hf Hd Hr.
  pose proof (positive_sample_count d r Hd Hr) as HN.
  destruct (create_waveform_ok f d r instrument HN) as (buf & Hbuf & Hlen & _).
  exists buf. split; [exact Hbuf | split].
  - rewrite Hlen. apply Z2Nat.id. exact HN.
  - apply py_int_nonneg. apply Qmult_le_0_compat; lra.
Qed.

Lemma waveform_length_truncated_witness :
  exists buf,
    create_waveform 440 (1 # 2) 44100 "organ" = Ok buf /\
    Z.of_nat (List.length buf) = py_int (44100 * (1 # 2)) /\
    py_int (44100 * (1 # 2)) = Qfloor (44100 * (1 # 2)).
Proof.
  apply (waveform_length_truncated 440 (1 # 2) 44100 "organ"); reflexivity.
Defined.

(** C2 as stated fails: at 440 Hz, 0.00004 s and 44100 Hz the product
    [r * d] is 1.764; the buffer has 1 sample, and [round(r * d)] is 2. *)
Lemma waveform_length_not_rounded :
  (0 < 440)%Q /\ (0 < 1 # 25000)%Q /\ (0 < 44100)%Q /\
  exists buf,
    create_waveform 440 (1 # 25000) 44100 "piano" = Ok buf /\
    Z.of_nat (List.length buf) = 1 /\
    py_round (44100 * (1 # 25000)) = 2.
Proof.
  repeat (split; [reflexivity |]).
  destruct (create_waveform_ok 440 (1 # 25000) 44100 "piano") as (buf & Hbuf & Hlen & _).
  - vm_compute. discriminate.
  - exists buf. split; [exact Hbuf | split].
    + rewrite Hlen. reflexivity.
    + reflexivity.
Qed.

Lemma Forall_of_nth (P : R -> Prop) (l : list R) :
  (forall j, (j < List.length l)%nat -> P (nth j l 0%R)) -> Forall P l.
Proof.
  intros H. apply Forall_forall. intros x Hin.
  destruct (In_nth l x 0%R Hin) as (j & Hj & <-). apply H. exact Hj.
Qed.

(** At time 0 every recipe is silent, whatever the frequency. *)
Lemma recipe_at_zero (instrument : string) (frequency : R) :
  recipe instrument frequency 0 = 0%R.
Proof.
  unfold recipe.
  rewrite !Rmult_0_r, sin_0, np_sign_zero.
  destruct (instrument =? "piano")%string; [lra |].
  destruct (instrument =? "organ")%string; [lra |].
  destruct (instrument =? "retro_synth")%string; lra.
Qed.

(** C5, as the source has it.  With a frequency or a duration that is not
    positive, a sample count [int(r * d)] that is not negative, and a
    frequency of 0 or a sample count of at most 1, [create_waveform] raises
    no error and returns a buffer of [int(r * d)] samples that are all zero,
    for every instrument identifier; the buffer is empty whenever the
    duration is not positive and the sample rate not negative. *)
Theorem degenerate_waveform_silent (f d r : Q) (instrument : string) :
  (f <= 0)%Q \/ (d <= 0)%Q ->
  0 <= py_int (r * d) ->
  (f == 0)%Q \/ py_int (r * d) <= 1 ->
  exists buf,
    create_waveform f d r instrument = Ok buf /\
    List.length buf = Z.to_nat (py_int (r * d)) /\
    Forall (fun x => x = 0%R) buf /\
    ((d <= 0)%Q -> (0 <= r)%Q -> buf = []).
Proof.
  intros _ HN Hdeg.
  destruct (create_waveform_ok f d r instrument HN) as (buf & Hbuf & Hlen & Hnth).
  exists buf. split; [exact Hbuf | split; [exact Hlen |]].
  split.
  - apply Forall_of_nth. intros j Hj. rewrite Hnth by (rewrite <- Hlen; exact Hj).
    unfold waveform_sample.
    destruct Hdeg as [Hf | Hone].
    + rewrite (Q2R_of_Qeq f 0 Hf), Q2R_zero, recipe_silent. ring.
    + assert (Hj0 : j = 0%nat) by lia. subst j.
      rewrite (Q2R_of_Qeq (linspace_point 0 d (py_int (r * d)) false (Z.of_nat 0)) 0).
      * rewrite Q2R_zero, recipe_at_zero. ring.
      * unfold linspace_point. change (inject_Z (Z.of_nat 0)) with 0%Q.
        destruct (0 <? py_int (r * d)); ring.
  - intros Hd Hr. apply length_zero_iff_nil. rewrite Hlen.
    assert (Hx : (r * d <= 0)%Q) by nra.
    assert (Hle : py_int (r * d) <= 0).
    { rewrite py_int_neg by exact Hx.
      rewrite <- (Qceiling_Z 0). apply Qceiling_resp_le. exact Hx. }
    replace (py_int (r * d)) with 0 by lia. reflexivity.
Qed.

(** A duration of -0.00001 s at 44100 Hz: the sample count is
    [int(-0.441) = 0]. *)
Lemma degenerate_waveform_silent_witness :
  exists buf,
    create_waveform 440 (-1 # 100000) 44100 "piano" = Ok buf /\
    List.length buf = Z.to_nat (py_int (44100 * (-1 # 100000))) /\
    Forall (fun x => x = 0%R) buf /\
    (((-1 # 100000) <= 0)%Q -> (0 <= 44100)%Q -> buf = []).
Proof.
  apply (degenerate_waveform_silent 440 (-1 # 100000) 44100 "piano").
  - right. discriminate.
  - vm_compute. discriminate.
  - right. vm_compute. discriminate.
Defined.

Lemma quarter_turn_sample :
  Q2R (linspace_point 0 1 (py_int (4 * 1)) false (Z.of_nat 1)) = (1 / 4)%R.
Proof.
  rewrite (Q2R_of_Qeq _ (1 # 4)) by reflexivity. unfold Q2R. cbn. lra.
Qed.

Lemma quarter_turn_envelope :
  Q2R (linspace_point 0 (-5) (Z.of_nat (Z.to_nat (py_int (4 * 1)))) true (Z.of_nat 1))
  = (- (5 / 3))%R.
Proof.
  rewrite (Q2R_of_Qeq _ (-5 # 3)) by reflexivity. unfold Q2R. cbn. lra.
Qed.

Lemma negative_quarter_turn_sample :
  Q2R (linspace_point 0 (-1) (py_int (-4 * -1)) false (Z.of_nat 1)) = (- (1 / 4))%R.
Proof.
  rewrite (Q2R_of_Qeq _ (-1 # 4)) by reflexivity. unfold Q2R. cbn. lra.
Qed.

Lemma negative_quarter_turn_envelope :
  Q2R (linspace_point 0 (-5) (Z.of_nat (Z.to_nat (py_int (-4 * -1)))) true (Z.of_nat 1))
  = (- (5 / 3))%R.
Proof.
  rewrite (Q2R_of_Qeq _ (-5 # 3)) by reflexivity. unfold Q2R. cbn. lra.
Qed.

Lemma np_sign_neg (x : R) : (x < 0)%R -> np_sign x = (-1)%R.
Proof.
  intros H. unfold np_sign. destruct (Rlt_dec 0 x); [lra |].
  destruct (Rlt_dec x 0); [reflexivity | contradiction].
Qed.

(** C5 as stated fails three times.  A negative duration makes the sample
    count negative and [np.linspace] raises [ValueError]; a negative
    frequency is synthesized like any other, and from the second sample on
    the buffer need not be zero: at -1 Hz, 1 s and 4 Hz the second piano
    sample is [-0.5 * exp(-5/3)]; and a negative duration under a negative
    sample rate has a positive sample count: at 1 Hz, -1 s and -4 Hz the
    second ['retro_synth'] sample is [- exp(-5/3)]. *)
Lemma degenerate_waveform_not_silent :
  ((-1 <= 0)%Q /\ create_waveform 440 (-1) 44100 "piano" = Raise ValueError) /\
  ((-1 <= 0)%Q /\
   exists buf,
     create_waveform (-1) 1 4 "piano" = Ok buf /\
     nth 1 buf 0%R = (- (5 / 10) * exp (- (5 / 3)))%R /\
     nth 1 buf 0%R <> 0%R) /\
  ((-1 <= 0)%Q /\
   exists buf,
     create_waveform 1 (-1) (-4) "retro_synth" = Ok buf /\
     nth 1 buf 0%R = (- exp (- (5 / 3)))%R /\
     nth 1 buf 0%R <> 0%R).
Proof.
  split; [| split]; split; try (vm_compute; discriminate).
  - apply create_waveform_raises. reflexivity.
  - destruct (create_waveform_ok (-1) 1 4 "piano") as (buf & Hbuf & _ & Hnth).
    { vm_compute. discriminate. }
    exists buf. split; [exact Hbuf |].
    assert (Hval : nth 1 buf 0%R = (- (5 / 10) * exp (- (5 / 3)))%R).
    { rewrite Hnth by (vm_compute; lia).
      unfold waveform_sample.
      rewrite quarter_turn_sample, quarter_turn_envelope.
      replace (Q2R (-1)) with (-1)%R by (unfold Q2R; cbn; lra).
      change (recipe "piano" (-1) (1 / 4)) with
        (6 / 10 * sin (2 * PI * -1 * (1 / 4)) +
         2 / 10 * sin (2 * PI * (-1 * 2) * (1 / 4)) +
         1 / 10 * sin (2 * PI * (-1 * 3) * (1 / 4)))%R.
      replace (2 * PI * -1 * (1 / 4))%R with (- (PI / 2))%R by field.
      replace (2 * PI * (-1 * 2) * (1 / 4))%R with (- PI)%R by field.
      replace (2 * PI * (-1 * 3) * (1 / 4))%R with (- (3 * (PI / 2)))%R by field.
      rewrite !sin_neg, sin_PI2, sin_PI, sin_3PI2. f_equal. lra. }
    split; [exact Hval |].
    rewrite Hval. pose proof (exp_pos (- (5 / 3))). lra.
  - destruct (create_waveform_ok 1 (-1) (-4) "retro_synth") as (buf & Hbuf & _ & Hnth).
    { vm_compute. discriminate. }
    exists buf. split; [exact Hbuf |].
    assert (Hval : nth 1 buf 0%R = (- exp (- (5 / 3)))%R).
    { rewrite Hnth by (vm_compute; lia).
      unfold waveform_sample.
      rewrite negative_quarter_turn_sample, negative_quarter_turn_envelope.
      replace (Q2R 1) with 1%R by (unfold Q2R; cbn; lra).
      change (recipe "retro_synth" 1 (- (1 / 4)))
        with (np_sign (sin (2 * PI * 1 * (- (1 / 4))))).
      replace (2 * PI * 1 * (- (1 / 4)))%R with (- (PI / 2))%R by field.
      rewrite sin_neg, sin_PI2, np_sign_neg by lra. ring. }
    split; [exact Hval |].
    rewrite Hval. pose proof (exp_pos (- (5 / 3))). lra.
Qed.

(** C6, as the source has it.  For every frequency [f > 0], duration
    [d > 0] and sample rate [r > 0], every sample of the buffer returned for
    ['retro_synth'] is the square-wave value [s = sign(sin(2 pi f t))], one
    of -1, 0, 1, multiplied by the decay envelope [e] at that sample, which
    lies in (0, 1] and is 1 at the first sample; so every sample lies in
    [-1, 1]. *)
Theorem retro_synth_samples (f d r : Q) :
  (0 < f)%Q -> (0 < d)%Q -> (0 < r)%Q ->
  exists buf,
    create_waveform f d r "retro_synth" = Ok buf /\
    forall j, (j < List.length buf)%nat ->
      exists s e : R,
        nth j buf 0%R = (s * e)%R /\
        s = np_sign (sin (2 * PI * Q2R f *
                          Q2R (linspace_point 0 d (py_int (r * d)) false (Z.of_nat j)))) /\
        (s = (-1)%R \/ s = 0%R \/ s = 1%R) /\
        (0 < e <= 1)%R /\
        (j = 0%nat -> e = 1%R) /\
        (-1 <= nth j buf 0%R <= 1)%R.
Proof.
  intros Hf Hd Hr.
  pose proof (positive_sample_count d r Hd Hr) as HN.
  destruct (create_waveform_ok f d r "retro_synth" HN) as (buf & Hbuf & Hlen & Hnth).
  exists buf. split; [exact Hbuf |].
  intros j Hj. rewrite Hnth by (rewrite <- Hlen; exact Hj).
  unfold waveform_sample.
  change (recipe "retro_synth" ?a ?b) with (np_sign (sin (2 * PI * a * b))).
  set (s := np_sign _).
  set (x := Q2R (linspace_point 0 (-5) _ true (Z.of_nat j))).
  assert (Hx : (x <= 0)%R).
  { unfold x. rewrite <- Q2R_zero. apply Qle_Rle. apply envelope_ramp_nonpos. }
  pose proof (exp_le_one x Hx) as He.
  assert (Hs : s = (-1)%R \/ s = 0%R \/ s = 1%R) by apply np_sign_cases.
  exists s, (exp x). repeat split; auto; try lra.
  - intros ->. unfold x.
    rewrite (Q2R_of_Qeq _ 0) by apply envelope_ramp_first.
    rewrite Q2R_zero. apply exp_0.
  - destruct Hs as [-> | [-> | ->]]; lra.
  - destruct Hs as [-> | [-> | ->]]; lra.
Qed.

Lemma retro_synth_samples_witness :
  exists buf,
    create_waveform 440 (1 # 2) 44100 "retro_synth" = Ok buf /\
    forall j, (j < List.length buf)%nat ->
      exists s e : R,
        nth j buf 0%R = (s * e)%R /\
        s = np_sign (sin (2 * PI * Q2R 440 *
                          Q2R (linspace_point 0 (1 # 2) (py_int (44100 * (1 # 2))) false
                                              (Z.of_nat j)))) /\
        (s = (-1)%R \/ s = 0%R \/ s = 1%R) /\
        (0 < e <= 1)%R /\
        (j = 0%nat -> e = 1%R) /\
        (-1 <= nth j buf 0%R <= 1)%R.
Proof.
  apply (retro_synth_samples 440 (1 # 2) 44100); reflexivity.
Defined.

(** C6 as stated fails: at 1 Hz, 1 s and 4 Hz the second sample of the
    ['retro_synth'] buffer is the square-wave value 1 times the envelope
    [exp(-5/3)], which is none of -1, 0, 1. *)
Lemma retro_synth_sample_not_square :
  (0 < 1)%Q /\ (0 < 4)%Q /\
  exists buf,
    create_waveform 1 1 4 "retro_synth" = Ok buf /\
    nth 1 buf 0%R = exp (- (5 / 3)) /\
    nth 1 buf 0%R <> (-1)%R /\ nth 1 buf 0%R <> 0%R /\ nth 1 buf 0%R <> 1%R.
Proof.
  split; [reflexivity |]. split; [reflexivity |].
  destruct (create_waveform_ok 1 1 4 "retro_synth") as (buf & Hbuf & _ & Hnth).
  { vm_compute. discriminate. }
  exists buf. split; [exact Hbuf |].
  assert (Hval : nth 1 buf 0%R = exp (- (5 / 3))).
  { rewrite Hnth by (vm_compute; lia).
    unfold waveform_sample.
    rewrite quarter_turn_sample, quarter_turn_envelope.
    replace (Q2R 1) with 1%R by (unfold Q2R; cbn; lra).
    change (recipe "retro_synth" 1 (1 / 4)) with (np_sign (sin (2 * PI * 1 * (1 / 4)))).
    replace (2 * PI * 1 * (1 / 4))%R with (PI / 2)%R by field.
    rewrite sin_PI2, np_sign_pos by lra. ring. }
  split; [exact Hval |]. rewrite Hval.
  assert (Hlt : (- (5 / 3) < 0)%R) by lra.
  pose proof (exp_lt_one _ Hlt). repeat split; lra.
Qed.

(** * Facts about the normalisation *)

Lemma fold_max_abs_spec (l : list R) :
  forall a,
    let m := fold_left (fun m y => Rmax m (Rabs y)) l a in
    (a <= m)%R /\
    (forall y, In y l -> (Rabs y <= m)%R) /\
    (m = a \/ exists y, In y l /\ m = Rabs y).
Proof.
  induction l as [| x l IH]; intros a; cbn.
  - split; [lra |]. split; [intros y [] | auto].
  - destruct (IH (Rmax a (Rabs x))) as (Hge & Hub & Hatt).
    pose proof (Rmax_l a (Rabs x)). pose proof (Rmax_r a (Rabs x)).
    split; [lra |]. split.
    + intros y [<- | Hy]; [lra | auto].
    + destruct Hatt as [-> | (y & Hy & ->)].
      * destruct (Rmax_case a (Rabs x) (fun r => r = a \/ r = Rabs x)); eauto.
      * eauto.
Qed.

(** [np.max(np.abs(a))] is the largest absolute value of [a]. *)
Lemma np_max_abs_spec (a : list R) (m : R) :
  np_max_abs a = Ok m <->
  (forall y, In y a -> (Rabs y <= m)%R) /\ (exists y, In y a /\ m = Rabs y).
Proof.
  destruct a as [| x rest]; cbn [np_max_abs].
  - split; [discriminate | intros (_ & y & [] & _)].
  - pose proof (fold_max_abs_spec rest (Rabs x)) as (Hge & Hub & Hatt). cbn zeta in *.
    set (p := fold_left _ rest (Rabs x)) in *.
    assert (Hp : (forall y, In y (x :: rest) -> (Rabs y <= p)%R) /\
                 (exists y, In y (x :: rest) /\ p = Rabs y)).
    { split.
      - intros y [<- | Hy]; auto.
      - destruct Hatt as [-> | (y & Hy & ->)]; [exists x | exists y]; cbn; auto. }
    split.
    + intros H. injection H as <-. exact Hp.
    + intros (Hub' & y' & Hy' & ->). f_equal.
      destruct Hp as (Hubp & y & Hy & Hpy).
      apply Rle_antisym; [rewrite Hpy; auto | auto].
Qed.

(** C3.  [normalize] raises only on an empty track.  On any other track
    the peak [max_amp], the largest absolute value of a sample of the
    track, decides: either it is zero, the track is all-zero and is returned
    unchanged; or every sample was divided by the non-zero peak, and then
    no sample of the result exceeds 1 in absolute value and one sample has
    absolute value exactly 1. *)
Theorem normalize_peak (track : list R) :
  (track = [] /\ normalize track = Raise ValueError) \/
  (exists max_amp out,
     normalize track = Ok out /\
     (forall x, In x track -> (Rabs x <= max_amp)%R) /\
     (exists y, In y track /\ Rabs y = max_amp) /\
     ((max_amp = 0%R /\ Forall (fun x => x = 0%R) track /\ out = track) \/
      (max_amp <> 0%R /\
       out = map (fun x => x / max_amp)%R track /\
       Forall (fun x => (Rabs x <= 1)%R) out /\
       exists y, In y out /\ Rabs y = 1%R))).
Proof.
  destruct track as [| x0 rest]; [left; split; reflexivity | right].
  set (track := x0 :: rest).
  destruct (np_max_abs track) as [max_amp | e] eqn:Hmax; [| discriminate].
  pose proof Hmax as Hspec. apply np_max_abs_spec in Hspec.
  destruct Hspec as (Hub & y & Hy & Hatt).
  assert (Hnn : (0 <= max_amp)%R) by (rewrite Hatt; apply Rabs_pos).
  unfold normalize. rewrite Hmax. cbn [bind].
  exists max_amp. destruct (Rlt_dec 0 max_amp) as [Hpos | Hzero].
  - eexists. split; [reflexivity |]. split; [exact Hub |].
    split; [exists y; split; [exact Hy | symmetry; exact Hatt] |]. right.
    split; [lra | split; [reflexivity |]]. split.
    + apply Forall_forall. intros z Hz. apply in_map_iff in Hz.
      destruct Hz as (x & <- & Hx).
      unfold Rdiv. rewrite Rabs_mult, (Rabs_right (/ max_amp)).
      * specialize (Hub x Hx).
        apply Rmult_le_reg_r with max_amp; [exact Hpos |].
        rewrite Rmult_assoc, Rinv_l by lra. lra.
      * left. apply Rinv_0_lt_compat. exact Hpos.
    + exists (y / max_amp)%R. split; [apply in_map_iff; eauto |].
      unfold Rdiv. rewrite Rabs_mult, (Rabs_right (/ max_amp)).
      * rewrite <- Hatt. field. lra.
      * left. apply Rinv_0_lt_compat. exact Hpos.
  - exists track. split; [reflexivity |]. split; [exact Hub |].
    split; [exists y; split; [exact Hy | symmetry; exact Hatt] |]. left.
    assert (Hz : max_amp = 0%R) by lra.
    split; [exact Hz | split; [| reflexivity]].
    apply Forall_forall. intros x Hx. specialize (Hub x Hx).
    pose proof (Rabs_pos x).
    destruct (Req_dec x 0) as [E | E]; [exact E |].
    pose proof (Rabs_pos_lt x E). lra.
Qed.

(** * Facts about the mixing loop *)

Lemma imap_length {A : Type} (f : nat -> A -> A) (l : list A) :
  forall start, List.length (imap f start l) = List.length l.
Proof. induction l as [| x l IH]; intros start; cbn; [| rewrite IH]; reflexivity. Qed.

Lemma imap_nth {A : Type} (f : nat -> A -> A) (d : A) (l : list A) :
  forall start j,
    (j < List.length l)%nat ->
    nth j (imap f start l) d = f (start + j)%nat (nth j l d).
Proof.
  induction l as [| x l IH]; intros start [| j] Hj; cbn in *; try lia.
  - rewrite Nat.add_0_r. reflexivity.
  - rewrite IH by lia. f_equal. lia.
Qed.

(** A wave of [n] samples added at a window that lies inside the track. *)
Lemma slice_add_fits (a : list R) (pos n : Z) (wave : list R) :
  0 <= pos -> 0 <= n -> pos + n <= Z.of_nat (List.length a) ->
  List.length wave = Z.to_nat n ->
  exists a',
    slice_add a pos (pos + n) wave = Ok a' /\
    List.length a' = List.length a /\
    forall j,
      nth j a' 0%R =
      (nth j a 0 + if in_window pos n j then nth (j - Z.to_nat pos) wave 0 else 0)%R.
Proof.
  intros Hpos Hn Hfit Hwave. unfold slice_add.
  set (len := Z.of_nat (List.length a)).
  assert (Hlo : Z.to_nat (slice_index len pos) = Z.to_nat pos).
  { unfold slice_index. destruct (pos <? 0) eqn:E; [apply Z.ltb_lt in E; lia |].
    f_equal. lia. }
  assert (Hhi : Z.to_nat (slice_index len (pos + n)) = (Z.to_nat pos + Z.to_nat n)%nat).
  { unfold slice_index. destruct (pos + n <? 0) eqn:E; [apply Z.ltb_lt in E; lia |].
    rewrite Z.min_l by lia. apply Z2Nat.inj_add; lia. }
  rewrite Hlo, Hhi.
  replace (Z.to_nat pos + Z.to_nat n - Z.to_nat pos)%nat with (Z.to_nat n) by lia.
  rewrite Hwave, Nat.eqb_refl.
  eexists. split; [reflexivity |]. split; [apply imap_length |].
  intros j. destruct (Nat.lt_ge_cases j (List.length a)) as [Hj | Hj].
  - rewrite imap_nth by exact Hj. cbn [Nat.add]. unfold in_window.
    destruct ((Z.to_nat pos <=? j)%nat && (j <? Z.to_nat pos + Z.to_nat n)%nat); lra.
  - rewrite !nth_overflow by (rewrite ?imap_length; exact Hj).
    unfold in_window.
    destruct (Z.to_nat pos <=? j)%nat eqn:E1; cbn [andb]; [| lra].
    destruct (j <? Z.to_nat pos + Z.to_nat n)%nat eqn:E2; [| lra].
    apply Nat.ltb_lt in E2. lia.
Qed.

Lemma in_window_lt (pos n : Z) (j : nat) :
  in_window pos n j = true -> (j - Z.to_nat pos < Z.to_nat n)%nat.
Proof.
  unfold in_window. intros H. apply andb_prop in H. destruct H as [H1 H2].
  apply Nat.leb_le in H1. apply Nat.ltb_lt in H2. lia.
Qed.

Lemma duration_samples_count (item : MelodyEvent) :
  py_int (sample_rate * duration item) = duration_samples item.
Proof. unfold duration_samples. apply py_int_comp. ring. Qed.

(** One synthesized voice added at the cursor with a gain. *)
Lemma add_voice (track : list R) (pos : Z) (item : MelodyEvent)
    (freq : Q) (instrument : string) (gain : R) :
  0 <= pos -> 0 <= duration_samples item ->
  pos + duration_samples item <= Z.of_nat (List.length track) ->
  exists wave track',
    create_waveform freq (duration item) sample_rate instrument = Ok wave /\
    slice_add track pos (pos + duration_samples item) (map (fun x => x * gain)%R wave)
      = Ok track' /\
    List.length track' = List.length track /\
    forall j,
      nth j track' 0%R =
      (nth j track 0 +
       if in_window pos (duration_samples item) j
       then waveform_sample freq (duration item) sample_rate instrument
                            (j - Z.to_nat pos) * gain
       else 0)%R.
Proof.
  intros Hpos Hn Hfit.
  destruct (create_waveform_ok freq (duration item) sample_rate instrument)
    as (wave & Hwave & Hlen & Hnth).
  { rewrite duration_samples_count. exact Hn. }
  rewrite duration_samples_count in Hlen, Hnth.
  destruct (slice_add_fits track pos (duration_samples item)
              (map (fun x => x * gain)%R wave) Hpos Hn Hfit)
    as (track' & Hadd & Hlen' & Hnth').
  { rewrite length_map. exact Hlen. }
  exists wave, track'. repeat split; auto.
  intros j. rewrite Hnth'.
  destruct (in_window pos (duration_samples item) j) eqn:Hw; [| reflexivity].
  apply in_window_lt in Hw.
  rewrite (map_nth_in _ 0%R) by (rewrite Hlen; exact Hw).
  rewrite Hnth by exact Hw. reflexivity.
Qed.

Lemma add_harmony_spec (current_chord_notes : list string) (item : MelodyEvent) (pos : Z) :
  0 <= pos -> 0 <= duration_samples item ->
  forall track,
    pos + duration_samples item <= Z.of_nat (List.length track) ->
    exists track',
      add_harmony current_chord_notes item pos track = Ok track' /\
      List.length track' = List.length track /\
      forall j,
        nth j track' 0%R =
        (nth j track 0 +
         if in_window pos (duration_samples item) j
         then harmony_sample current_chord_notes item (j - Z.to_nat pos)
         else 0)%R.
Proof.
  intros Hpos Hn.
  induction current_chord_notes as [| note_name rest IH]; intros track Hfit.
  - exists track. cbn. repeat split; auto. intros j.
    destruct (in_window pos (duration_samples item) j); lra.
  - cbn [add_harmony harmony_sample]. unfold in_NOTES, NOTES_item.
    destruct (dict_get NOTES note_name) as [freq |].
    + cbn [bind].
      destruct (add_voice track pos item freq "organ" (20 / 100) Hpos Hn Hfit)
        as (wave & track1 & Hwave & Hadd & Hlen1 & Hnth1).
      rewrite Hwave. cbn [bind]. rewrite Hadd. cbn [bind].
      destruct (IH track1) as (track' & Hrest & Hlen' & Hnth');
        [rewrite Hlen1; exact Hfit |].
      exists track'. split; [exact Hrest |]. split; [congruence |].
      intros j. rewrite Hnth', Hnth1.
      destruct (in_window pos (duration_samples item) j); lra.
    + destruct (IH track Hfit) as (track' & Hrest & Hlen' & Hnth').
      exists track'. split; [exact Hrest |]. split; [exact Hlen' |].
      intros j. rewrite Hnth'.
      destruct (in_window pos (duration_samples item) j); lra.
Qed.

Lemma add_melody_spec (instrument : string) (item : MelodyEvent) (pos : Z)
    (track : list R) :
  0 <= pos -> 0 <= duration_samples item ->
  pos + duration_samples item <= Z.of_nat (List.length track) ->
  note item = REST \/ in_NOTES (note item) = true ->
  exists track',
    add_melody instrument item pos track = Ok track' /\
    List.length track' = List.length track /\
    forall j,
      nth j track' 0%R =
      (nth j track 0 +
       if in_window pos (duration_samples item) j
       then melody_sample instrument item (j - Z.to_nat pos)
       else 0)%R.
Proof.
  intros Hpos Hn Hfit Hnote. unfold add_melody, melody_sample.
  destruct (note item =? REST)%string eqn:Hrest; cbn [negb].
  - exists track. repeat split; auto. intros j.
    destruct (in_window pos (duration_samples item) j); lra.
  - destruct Hnote as [Hr | Hin].
    { rewrite Hr, String.eqb_refl in Hrest. discriminate. }
    unfold in_NOTES in Hin. unfold NOTES_item.
    destruct (dict_get NOTES (note item)) as [freq |]; [| discriminate].
    cbn [bind].
    destruct (add_voice track pos item freq instrument (45 / 100) Hpos Hn Hfit)
      as (wave & track' & Hwave & Hadd & Hlen & Hnth).
    rewrite Hwave. cbn [bind]. exists track'. auto.
Qed.

Lemma advance_indices_spec (mood : Mood) (item : MelodyEvent) (pos : Z) (index : nat) :
  bar_samples mood <> 0 ->
  advance_indices mood item pos index =
    Ok (pos + duration_samples item,
        if (pos + duration_samples item) mod bar_samples mood <? duration_samples item
        then ((index + 1) mod List.length (chords mood))%nat
        else index).
Proof.
  intros Hbar. unfold advance_indices.
  destruct (bar_samples mood =? 0) eqn:E; [apply Z.eqb_eq in E; contradiction |].
  destruct (_ <? _); reflexivity.
Qed.

(** The loop body on an event whose window lies inside the track. *)
Lemma render_step_spec (mood : Mood) (instrument : string) (st : MixState)
    (item : MelodyEvent) (current_chord_notes : list string) :
  0 <= current_pos_samples st ->
  (0 <= duration item)%Q ->
  current_pos_samples st + duration_samples item
    <= Z.of_nat (List.length (final_track_data st)) ->
  note item = REST \/ in_NOTES (note item) = true ->
  nth_error (chords mood) (chord_index st) = Some current_chord_notes ->
  bar_samples mood <> 0 ->
  exists track1 st',
    add_melody instrument item (current_pos_samples st) (final_track_data st) = Ok track1 /\
    add_harmony current_chord_notes item (current_pos_samples st) track1
      = Ok (final_track_data st') /\
    render_step mood instrument st item = Ok st' /\
    List.length (final_track_data st') = List.length (final_track_data st) /\
    advance_indices mood item (current_pos_samples st) (chord_index st)
      = Ok (current_pos_samples st', chord_index st') /\
    forall j,
      nth j (final_track_data st') 0%R =
      (nth j (final_track_data st) 0 +
       if in_window (current_pos_samples st) (duration_samples item) j
       then melody_sample instrument item (j - Z.to_nat (current_pos_samples st)) +
            harmony_sample current_chord_notes item (j - Z.to_nat (current_pos_samples st))
       else 0)%R.
Proof.
  intros Hpos Hdur Hfit Hnote Hchord Hbar.
  assert (Hn : 0 <= duration_samples item).
  { unfold duration_samples. apply py_int_nonneg_le.
    apply Qmult_le_0_compat; [exact Hdur | discriminate]. }
  destruct (add_melody_spec instrument item _ _ Hpos Hn Hfit Hnote)
    as (track1 & Hmel & Hlen1 & Hnth1).
  destruct (add_harmony_spec current_chord_notes item _ Hpos Hn track1)
    as (track2 & Hhar & Hlen2 & Hnth2); [rewrite Hlen1; exact Hfit |].
  pose proof (advance_indices_spec mood item (current_pos_samples st) (chord_index st) Hbar)
    as Hix.
  eexists track1, (mkMix track2 _ _).
  split; [exact Hmel |]. split; [exact Hhar |]. split.
  - unfold render_step. rewrite Hmel. cbn [bind]. rewrite Hchord. cbn [bind].
    rewrite Hhar. cbn [bind]. rewrite Hix. cbn [bind fst snd]. reflexivity.
  - cbn [final_track_data current_pos_samples chord_index].
    split; [congruence |]. split; [exact Hix |].
    intros j. rewrite Hnth2, Hnth1.
    destruct (in_window (current_pos_samples st) (duration_samples item) j); lra.
Qed.

(** C7.  For an event that the loop body processes (its window lies inside
    the track, its melody note is a rest or resolves), the chord at the
    current chord index is mixed by [add_harmony] after the melody: every
    note of the chord that is a key of [NOTES] adds its ['organ'] waveform
    times 0.20 at the cursor, every other note adds nothing and raises
    nothing, and the chord layer [harmony_sample] does not depend on the
    instrument chosen for the melody. *)
Theorem chord_layer_mixed (mood : Mood) (instrument : string) (st : MixState)
    (item : MelodyEvent) (current_chord_notes : list string) :
  0 <= current_pos_samples st ->
  (0 <= duration item)%Q ->
  current_pos_samples st + duration_samples item
    <= Z.of_nat (List.length (final_track_data st)) ->
  note item = REST \/ in_NOTES (note item) = true ->
  nth_error (chords mood) (chord_index st) = Some current_chord_notes ->
  bar_samples mood <> 0 ->
  exists track1 st',
    add_melody instrument item (current_pos_samples st) (final_track_data st) = Ok track1 /\
    render_step mood instrument st item = Ok st' /\
    List.length (final_track_data st') = List.length track1 /\
    (forall j,
       nth j (final_track_data st') 0%R =
       (nth j track1 0 +
        if in_window (current_pos_samples st) (duration_samples item) j
        then harmony_sample current_chord_notes item (j - Z.to_nat (current_pos_samples st))
        else 0)%R) /\
    (forall note_name rest i,
       harmony_sample (note_name :: rest) item i =
       (match dict_get NOTES note_name with
        | Some freq =>
            waveform_sample freq (duration item) sample_rate "organ" i * (20 / 100)
        | None => 0
        end + harmony_sample rest item i)%R) /\
    (forall i, harmony_sample [] item i = 0%R).
Proof.
  intros Hpos Hdur Hfit Hnote Hchord Hbar.
  assert (Hn : 0 <= duration_samples item).
  { unfold duration_samples. apply py_int_nonneg_le.
    apply Qmult_le_0_compat; [exact Hdur | discriminate]. }
  destruct (render_step_spec mood instrument st item current_chord_notes
              Hpos Hdur Hfit Hnote Hchord Hbar)
    as (track1 & st' & Hmel & Hhar & Hstep & Hlen & _ & _).
  destruct (add_melody_spec instrument item _ _ Hpos Hn Hfit Hnote)
    as (track1' & Hmel' & Hlen1 & _).
  assert (track1' = track1) by congruence. subst track1'.
  destruct (add_harmony_spec current_chord_notes item _ Hpos Hn track1)
    as (track2 & Hhar' & Hlen2 & Hnth2); [rewrite Hlen1; exact Hfit |].
  assert (track2 = final_track_data st') by congruence. subst track2.
  exists track1, st'. repeat split; auto.
Qed.

(** An event of two samples at the third chord of "sad", whose second
    note, Ab3, is not a key of [NOTES]. *)
Lemma chord_layer_mixed_witness :
  let st := {| final_track_data := [0; 0; 0]%R; current_pos_samples := 1; chord_index := 2 |} in
  let item := {| note := "REST"; duration := 1 # 22050 |} in
  exists track1 st',
    add_melody "piano" item 1 [0; 0; 0]%R = Ok track1 /\
    render_step sad "piano" st item = Ok st' /\
    List.length (final_track_data st') = List.length track1 /\
    (forall j,
       nth j (final_track_data st') 0%R =
       (nth j track1 0 +
        if in_window 1 (duration_samples item) j
        then harmony_sample ["F3"; "Ab3"; "C4"]%string item (j - Z.to_nat 1)
        else 0)%R) /\
    (forall note_name rest i,
       harmony_sample (note_name :: rest) item i =
       (match dict_get NOTES note_name with
        | Some freq =>
            waveform_sample freq (duration item) sample_rate "organ" i * (20 / 100)
        | None => 0
        end + harmony_sample rest item i)%R) /\
    (forall i, harmony_sample [] item i = 0%R).
Proof.
  intros st item.
  apply (chord_layer_mixed sad "piano" st item ["F3"; "Ab3"; "C4"]%string).
  - cbn. lia.
  - cbn. discriminate.
  - vm_compute. discriminate.
  - left. reflexivity.
  - reflexivity.
  - vm_compute. discriminate.
Defined.

Lemma mix_loop_app (mood : Mood) (instrument : string) (pre : list MelodyEvent) :
  forall st post,
    mix_loop mood instrument st (pre ++ post) =
    (st1 <- mix_loop mood instrument st pre ;; mix_loop mood instrument st1 post).
Proof.
  induction pre as [| item pre IH]; intros st post; cbn [mix_loop app bind].
  - reflexivity.
  - destruct (render_step mood instrument st item) as [st' | e]; cbn [bind]; auto.
Qed.

Lemma render_step_indices (mood : Mood) (instrument : string) (st st' : MixState)
    (item : MelodyEvent) :
  render_step mood instrument st item = Ok st' ->
  advance_indices mood item (current_pos_samples st) (chord_index st)
    = Ok (current_pos_samples st', chord_index st').
Proof.
  unfold render_step. intros H.
  destruct (add_melody _ _ _ _); cbn [bind] in H; [| discriminate].
  destruct (nth_error _ _); cbn [bind] in H; [| discriminate].
  destruct (add_harmony _ _ _ _); cbn [bind] in H; [| discriminate].
  destruct (advance_indices _ _ _ _) as [[pos' index'] | e]; cbn [bind] in H;
    [| discriminate].
  injection H as <-. reflexivity.
Qed.

(** The indices of the mixing loop are those of [indices_after]. *)
Lemma mix_loop_indices (mood : Mood) (instrument : string) (events : list MelodyEvent) :
  forall st st',
    mix_loop mood instrument st events = Ok st' ->
    indices_after mood (current_pos_samples st) (chord_index st) events
      = Ok (current_pos_samples st', chord_index st').
Proof.
  induction events as [| item rest IH]; intros st st' H; cbn [mix_loop indices_after] in *.
  - injection H as <-. reflexivity.
  - destruct (render_step mood instrument st item) as [st1 | e] eqn:Hstep;
      cbn [bind] in H; [| discriminate].
    rewrite (render_step_indices _ _ _ _ _ Hstep). cbn [bind fst snd].
    apply IH. exact H.
Qed.

Lemma advance_indices_inv (mood : Mood) (item : MelodyEvent) (pos pos' : Z)
    (index index' : nat) :
  advance_indices mood item pos index = Ok (pos', index') ->
  bar_samples mood <> 0 /\
  pos' = pos + duration_samples item /\
  index' = if pos' mod bar_samples mood <? duration_samples item
           then ((index + 1) mod List.length (chords mood))%nat
           else index.
Proof.
  unfold advance_indices. intros H.
  destruct (bar_samples mood =? 0) eqn:E; [discriminate |].
  apply Z.eqb_neq in E. split; [exact E |].
  destruct (_ <? _) eqn:C; injection H as <- <-; rewrite ?C; auto.
Qed.

(** Counting quarter notes in bars of four. *)
Lemma quarter_in_bar (n : Z) (k : nat) :
  0 < n ->
  ((Z.of_nat (S k) * n) mod (4 * n) <? n) = (S k mod 4 =? 0)%nat.
Proof.
  intros Hn. rewrite Z.mul_mod_distr_r by lia.
  assert (Hm : Z.of_nat (S k) mod 4 = Z.of_nat (S k mod 4)).
  { rewrite Nat2Z.inj_mod. reflexivity. }
  rewrite Hm.
  pose proof (Nat.mod_upper_bound (S k) 4 ltac:(lia)) as Hlt.
  destruct (S k mod 4)%nat as [| r] eqn:E.
  - cbn [Nat.eqb]. apply Z.ltb_lt. lia.
  - cbn [Nat.eqb]. apply Z.ltb_ge. nia.
Qed.

Lemma bar_count_succ (k : nat) :
  (S k / 4 = if S k mod 4 =? 0 then k / 4 + 1 else k / 4)%nat.
Proof.
  pose proof (Nat.div_mod_eq k 4) as Hk.
  pose proof (Nat.mod_upper_bound k 4 ltac:(lia)) as Hr.
  pose proof (Nat.div_mod_eq (S k) 4) as Hk'.
  pose proof (Nat.mod_upper_bound (S k) 4 ltac:(lia)) as Hr'.
  destruct (S k mod 4 =? 0)%nat eqn:E.
  - apply Nat.eqb_eq in E. lia.
  - apply Nat.eqb_neq in E. lia.
Qed.

Section UniformMelody.

Variable mood : Mood.
Variable n : Z.
Hypothesis n_pos : 0 < n.
Hypothesis quarter_samples : py_int (quarter_note_duration mood * sample_rate) = n.
Hypothesis bar_is_four : bar_samples mood = 4 * n.
Hypothesis has_chords : (0 < List.length (chords mood))%nat.

Lemma uniform_melody_indices (events : list MelodyEvent) :
  Forall (fun item => (duration item == quarter_note_duration mood)%Q) events ->
  forall k,
    indices_after mood (Z.of_nat k * n) ((k / 4) mod List.length (chords mood))%nat events
    = Ok (Z.of_nat (k + List.length events) * n,
          (((k + List.length events) / 4) mod List.length (chords mood))%nat).
Proof.
  induction 1 as [| item rest Hitem Hrest IH]; intros k; cbn [indices_after List.length].
  - rewrite Nat.add_0_r. reflexivity.
  - assert (Hds : duration_samples item = n).
    { unfold duration_samples. rewrite <- quarter_samples.
      apply py_int_comp. rewrite Hitem. reflexivity. }
    rewrite advance_indices_spec by lia.
    rewrite Hds, bar_is_four. cbn [bind fst snd].
    replace (Z.of_nat k * n + n) with (Z.of_nat (S k) * n) by lia.
    rewrite quarter_in_bar by exact n_pos.
    replace (k + S (List.length rest))%nat with (S k + List.length rest)%nat by lia.
    rewrite <- IH. f_equal.
    rewrite (bar_count_succ k).
    destruct (S k mod 4 =? 0)%nat; [| reflexivity].
    apply Nat.Div0.add_mod_idemp_l.
Qed.

End UniformMelody.

Lemma Forall_prefix {A : Type} (P : A -> Prop) (l : list A) :
  Forall P l -> forall k, Forall P (firstn k l).
Proof.
  induction 1 as [| x l Hx Hl IH]; intros [| k]; cbn; constructor; auto.
Qed.

(** For the three catalog moods a quarter note is a whole number of samples
    (22050, 35280, 44100) and a bar is exactly four of them. *)
Lemma catalog_bar (mood_key : string) (mood : Mood) :
  dict_get MOODS mood_key = Some mood ->
  0 < py_int (quarter_note_duration mood * sample_rate) /\
  bar_samples mood = 4 * py_int (quarter_note_duration mood * sample_rate) /\
  (0 < List.length (chords mood))%nat /\
  (inject_Z (bar_samples mood) == 4 * (60 / inject_Z (bpm mood)) * sample_rate)%Q.
Proof.
  intros H. destruct (catalog_cases _ _ H) as [-> | [-> | ->]];
    (split; [reflexivity | split; [reflexivity | split; [cbn; lia | reflexivity]]]).
Qed.

(** In double precision the three rhythm values of every catalog mood, and
    its bar, come to the same sample counts as in exact arithmetic. *)
Lemma binary64_sample_counts (mood_key : string) (mood : Mood) :
  dict_get MOODS mood_key = Some mood ->
  map Binary64.duration_samples (Binary64.rhythms mood)
    = map (fun r => Some (py_int (r * sample_rate))) (rhythms mood) /\
  Binary64.bar_samples mood = Some (bar_samples mood).
Proof.
  intros H. destruct (catalog_cases _ _ H) as [-> | [-> | ->]];
    split; vm_compute; reflexivity.
Qed.

(** Some runs of the planning loop in double precision, among them thirty
    seconds of eighth notes in "sad", where the elapsed time drifts below
    the exact one and a last event of a few femtoseconds closes the gap. *)
Lemma binary64_runs_in_order :
  Binary64.run_in_order happy (fun k => k) 3 100 = true /\
  Binary64.run_in_order sad (fun k => k) 8 100 = true /\
  Binary64.run_in_order sad (fun _ => 1%nat) 30 100 = true /\
  Binary64.run_in_order dreamy (fun k => (3 * k)%nat) 5 100 = true.
Proof. repeat split; vm_compute; reflexivity. Qed.

(** C4.  For a catalog mood the bar length is exactly [4 * 60/bpm * 44100]
    samples.  An iteration of the mixing loop that completes moves the
    cursor by the event's sample count and then advances the chord index to
    [(index + 1) mod len(chords)] exactly when the new cursor position
    modulo the bar length is less than the event's sample count, leaving it
    unchanged otherwise.  For a melody whose events all last one quarter
    note, the index after [k] events is [(k / 4) mod len(chords)]: it
    advances at every fourth event and at no other; and this is the chord
    index of the mixing loop itself. *)
Theorem chord_index_rule (mood_key : string) (mood : Mood) (instrument : string)
    (st st' : MixState) (item : MelodyEvent) (events : list MelodyEvent) :
  dict_get MOODS mood_key = Some mood ->
  render_step mood instrument st item = Ok st' ->
  Forall (fun e => (duration e == quarter_note_duration mood)%Q) events ->
  (inject_Z (bar_samples mood) == 4 * (60 / inject_Z (bpm mood)) * sample_rate)%Q /\
  current_pos_samples st' = current_pos_samples st + duration_samples item /\
  chord_index st' =
    (if current_pos_samples st' mod bar_samples mood <? duration_samples item
     then ((chord_index st + 1) mod List.length (chords mood))%nat
     else chord_index st) /\
  (forall k, (k <= List.length events)%nat ->
     indices_after mood 0 0 (firstn k events)
     = Ok (Z.of_nat k * py_int (quarter_note_duration mood * sample_rate),
           ((k / 4) mod List.length (chords mood))%nat)) /\
  (forall k st0 st1, (k <= List.length events)%nat ->
     current_pos_samples st0 = 0 -> chord_index st0 = 0%nat ->
     mix_loop mood instrument st0 (firstn k events) = Ok st1 ->
     chord_index st1 = ((k / 4) mod List.length (chords mood))%nat).
Proof.
  intros Hmood Hstep Huniform.
  destruct (catalog_bar _ _ Hmood) as (Hn & Hbar & Hchords & Hexact).
  split; [exact Hexact |].
  apply render_step_indices in Hstep. apply advance_indices_inv in Hstep.
  destruct Hstep as (_ & Hpos & Hindex).
  split; [exact Hpos |]. split; [exact Hindex |].
  assert (Hclosed : forall k, (k <= List.length events)%nat ->
     indices_after mood 0 0 (firstn k events)
     = Ok (Z.of_nat k * py_int (quarter_note_duration mood * sample_rate),
           ((k / 4) mod List.length (chords mood))%nat)).
  { intros k Hk.
    pose proof (uniform_melody_indices mood _ Hn eq_refl Hbar Hchords (firstn k events)) as Hu.
    specialize (Hu (Forall_prefix _ _ Huniform k) 0%nat).
    rewrite length_firstn, Nat.min_l in Hu by exact Hk.
    cbn [Nat.add] in Hu. rewrite <- Hu. f_equal.
    cbn [Nat.div Nat.divmod fst]. rewrite Nat.Div0.mod_0_l. reflexivity. }
  split; [exact Hclosed |].
  intros k st0 st1 Hk Hp0 Hc0 Hloop.
  apply mix_loop_indices in Hloop. rewrite Hp0, Hc0, (Hclosed k Hk) in Hloop.
  injection Hloop as _ <-. reflexivity.
Qed.

Lemma chord_index_rule_witness :
  let st := {| final_track_data := [0; 0; 0]%R; current_pos_samples := 0; chord_index := 0 |} in
  let item := {| note := "REST"; duration := 1 # 22050 |} in
  let beat := {| note := "C4"; duration := 1 # 2 |} in
  let events := [beat; beat; beat; beat; beat] in
  exists st',
    render_step happy "piano" st item = Ok st' /\
    (inject_Z (bar_samples happy) == 4 * (60 / inject_Z (bpm happy)) * sample_rate)%Q /\
    current_pos_samples st' = current_pos_samples st + duration_samples item /\
    chord_index st' =
      (if current_pos_samples st' mod bar_samples happy <? duration_samples item
       then ((chord_index st + 1) mod List.length (chords happy))%nat
       else chord_index st) /\
    (forall k, (k <= List.length events)%nat ->
       indices_after happy 0 0 (firstn k events)
       = Ok (Z.of_nat k * py_int (quarter_note_duration happy * sample_rate),
             ((k / 4) mod List.length (chords happy))%nat)) /\
    (forall k st0 st1, (k <= List.length events)%nat ->
       current_pos_samples st0 = 0 -> chord_index st0 = 0%nat ->
       mix_loop happy "piano" st0 (firstn k events) = Ok st1 ->
       chord_index st1 = ((k / 4) mod List.length (chords happy))%nat).
Proof.
  intros st item beat events.
  destruct (render_step_spec happy "piano" st item ["C4"; "E4"; "G4"]%string)
    as (track1 & st' & _ & _ & Hstep & _).
  - cbn. lia.
  - cbn. discriminate.
  - vm_compute. discriminate.
  - left. reflexivity.
  - reflexivity.
  - vm_compute. discriminate.
  - exists st'. split; [exact Hstep |].
    apply (chord_index_rule "happy" happy "piano" st st' item events).
    + reflexivity.
    + exact Hstep.
    + repeat constructor.
Defined.

(** * The mixing loop on a planned melody *)

Lemma samples_total_app (pre post : list MelodyEvent) :
  samples_total (pre ++ post) = samples_total pre + samples_total post.
Proof.
  induction pre as [| item pre IH]; cbn [samples_total fold_right app]; [reflexivity |].
  fold (samples_total (pre ++ post)). fold (samples_total pre). lia.
Qed.

Lemma samples_total_nonneg (events : list MelodyEvent) :
  Forall (fun item => (0 <= duration item)%Q) events -> 0 <= samples_total events.
Proof.
  induction 1 as [| item rest Hitem Hrest IH]; cbn [samples_total fold_right]; [lia |].
  fold (samples_total rest).
  assert (0 <= duration_samples item); [| lia].
  unfold duration_samples. apply py_int_nonneg_le.
  apply Qmult_le_0_compat; [exact Hitem | discriminate].
Qed.

Lemma total_of_nonneg (events : list MelodyEvent) :
  Forall (fun item => (0 <= duration item)%Q) events -> (0 <= total_of events)%Q.
Proof.
  induction 1 as [| item rest Hitem Hrest IH]; cbn [total_of fold_right]; [lra |].
  fold (total_of rest). lra.
Qed.

(** The truncated sample counts of the events take up no more than the
    truncated sample count of their total duration. *)
Lemma samples_total_le (events : list MelodyEvent) :
  Forall (fun item => (0 <= duration item)%Q) events ->
  samples_total events <= py_int (sample_rate * total_of events).
Proof.
  induction 1 as [| item rest Hitem Hrest IH];
    cbn [samples_total total_of fold_right]; [reflexivity |].
  fold (samples_total rest). fold (total_of rest).
  pose proof (total_of_nonneg rest Hrest) as Hrest0.
  assert (Hsr : (0 <= sample_rate)%Q) by discriminate.
  rewrite (py_int_comp (sample_rate * (duration item + total_of rest))
             (duration item * sample_rate + sample_rate * total_of rest))
    by ring.
  etransitivity; [| apply py_int_superadd].
  - unfold duration_samples. lia.
  - apply Qmult_le_0_compat; assumption.
  - apply Qmult_le_0_compat; assumption.
Qed.

Section MixPlanned.

Variable mood : Mood.
Variable instrument : string.
Hypothesis bar_nonzero : bar_samples mood <> 0.
Hypothesis has_chords : (0 < List.length (chords mood))%nat.

Lemma render_step_planned (st : MixState) (item : MelodyEvent) :
  playable item ->
  0 <= current_pos_samples st ->
  (chord_index st < List.length (chords mood))%nat ->
  current_pos_samples st + duration_samples item
    <= Z.of_nat (List.length (final_track_data st)) ->
  exists st',
    render_step mood instrument st item = Ok st' /\
    List.length (final_track_data st') = List.length (final_track_data st) /\
    current_pos_samples st' = current_pos_samples st + duration_samples item /\
    (chord_index st' < List.length (chords mood))%nat.
Proof.
  intros [Hdur Hnote] Hpos Hindex Hfit.
  destruct (nth_error (chords mood) (chord_index st)) as [chord |] eqn:Hchord.
  2: { apply nth_error_None in Hchord. lia. }
  destruct (render_step_spec mood instrument st item chord
              Hpos Hdur Hfit Hnote Hchord bar_nonzero)
    as (track1 & st' & _ & _ & Hstep & Hlen & Hix & _).
  exists st'. split; [exact Hstep |]. split; [exact Hlen |].
  apply advance_indices_inv in Hix. destruct Hix as (_ & Hp & Hc).
  split; [exact Hp |]. rewrite Hc.
  destruct (_ <? _); [| exact Hindex].
  apply Nat.mod_upper_bound. lia.
Qed.

Lemma mix_loop_planned (events : list MelodyEvent) :
  Forall playable events ->
  forall st,
    0 <= current_pos_samples st ->
    (chord_index st < List.length (chords mood))%nat ->
    current_pos_samples st + samples_total events
      <= Z.of_nat (List.length (final_track_data st)) ->
    exists st',
      mix_loop mood instrument st events = Ok st' /\
      List.length (final_track_data st') = List.length (final_track_data st) /\
      current_pos_samples st' = current_pos_samples st + samples_total events /\
      (chord_index st' < List.length (chords mood))%nat.
Proof.
  induction 1 as [| item rest Hitem Hrest IH]; intros st Hpos Hindex Hfit;
    cbn [mix_loop samples_total fold_right] in *.
  - exists st. repeat split; auto; lia.
  - fold (samples_total rest) in *.
    assert (Hrest0 : 0 <= samples_total rest).
    { apply samples_total_nonneg. eapply Forall_impl; [| exact Hrest].
      intros e [He _]. exact He. }
    assert (Hn : 0 <= duration_samples item).
    { unfold duration_samples. apply py_int_nonneg_le.
      apply Qmult_le_0_compat; [apply Hitem | discriminate]. }
    destruct (render_step_planned st item Hitem Hpos Hindex ltac:(lia))
      as (st1 & Hstep & Hlen1 & Hpos1 & Hindex1).
    rewrite Hstep. cbn [bind].
    destruct (IH st1) as (st' & Hloop & Hlen' & Hpos' & Hindex');
      [lia | exact Hindex1 | rewrite Hlen1; lia |].
    exists st'. split; [exact Hloop |]. split; [congruence |]. split; [lia | exact Hindex'].
Qed.

End MixPlanned.

Lemma planned_events_playable (mood_key : string) (mood : Mood)
    (events : list MelodyEvent) :
  dict_get MOODS mood_key = Some mood ->
  Forall (fun item => (0 < duration item)%Q /\ In (note item) (scale mood ++ [REST]))
         events ->
  Forall playable events.
Proof.
  intros Hmood Hall. pose proof (catalog_scale_in_NOTES _ _ Hmood) as Hscale.
  rewrite forallb_forall in Hscale.
  eapply Forall_impl; [| exact Hall]. intros item [Hd Hn]. split; [lra |].
  apply in_app_or in Hn. destruct Hn as [Hs | [Hr | []]]; [right | left]; auto.
Qed.

(** The melody planned for a catalog mood and a positive duration is
    playable and takes up no more samples than the track has. *)
Lemma planned_melody_fits (mood_key : string) (mood : Mood) (rnd : nat -> nat) (d : Q) :
  dict_get MOODS mood_key = Some mood ->
  (0 < d)%Q ->
  exists melody_sequence,
    (forall fuel, (plan_fuel mood d <= fuel)%nat ->
       melody_sequence_of mood rnd d fuel = Some melody_sequence) /\
    Forall playable melody_sequence /\
    samples_total melody_sequence <= py_int (sample_rate * d).
Proof.
  intros Hmood Hd.
  destruct (planner_returns mood rnd d (catalog_bpm_pos _ _ Hmood))
    as (ms & Hret & Hall & Hsum).
  specialize (Hsum ltac:(lra)).
  pose proof (planned_events_playable _ _ _ Hmood Hall) as Hplay.
  exists ms. split; [exact Hret |]. split; [exact Hplay |].
  rewrite (py_int_comp (sample_rate * d) (sample_rate * total_of ms))
    by (rewrite Hsum; reflexivity).
  apply samples_total_le.
  eapply Forall_impl; [| exact Hplay]. intros e [He _]. exact He.
Qed.

(** A wave longer than what is left of the track cannot be added: numpy
    finds it cannot broadcast the wave to the slice. *)
Lemma slice_add_overflow (a : list R) (pos n : Z) (wave : list R) :
  0 <= pos <= Z.of_nat (List.length a) ->
  Z.of_nat (List.length a) < pos + n ->
  1 < n ->
  List.length wave = Z.to_nat n ->
  slice_add a pos (pos + n) wave = Raise ValueError.
Proof.
  intros Hpos Hover Hn Hwave. unfold slice_add.
  set (len := Z.of_nat (List.length a)) in *.
  assert (Hlo : Z.to_nat (slice_index len pos) = Z.to_nat pos).
  { unfold slice_index. destruct (pos <? 0) eqn:E; [apply Z.ltb_lt in E; lia |].
    f_equal. lia. }
  assert (Hhi : Z.to_nat (slice_index len (pos + n)) = Z.to_nat len).
  { unfold slice_index. destruct (pos + n <? 0) eqn:E; [apply Z.ltb_lt in E; lia |].
    f_equal. lia. }
  rewrite Hlo, Hhi, Hwave.
  destruct (Z.to_nat n =? Z.to_nat len - Z.to_nat pos)%nat eqn:E1;
    [apply Nat.eqb_eq in E1; lia |].
  destruct (Z.to_nat n =? 1)%nat eqn:E2; [apply Nat.eqb_eq in E2; lia |].
  reflexivity.
Qed.

(** The loop body on an event with a melody note whose window runs past the
    end of the track. *)
Lemma render_step_overflow (mood : Mood) (instrument : string) (st : MixState)
    (item : MelodyEvent) (freq : Q) :
  (note item =? REST)%string = false ->
  dict_get NOTES (note item) = Some freq ->
  0 <= current_pos_samples st <= Z.of_nat (List.length (final_track_data st)) ->
  Z.of_nat (List.length (final_track_data st))
    < current_pos_samples st + duration_samples item ->
  1 < duration_samples item ->
  render_step mood instrument st item = Raise ValueError.
Proof.
  intros Hrest Hfreq Hpos Hover Hn.
  destruct (create_waveform_ok freq (duration item) sample_rate instrument)
    as (wave & Hwave & Hlen & _).
  { rewrite duration_samples_count. lia. }
  rewrite duration_samples_count in Hlen.
  unfold render_step, add_melody, NOTES_item. rewrite Hrest, Hfreq. cbn [negb bind].
  rewrite Hwave. cbn [bind].
  rewrite slice_add_overflow; [reflexivity | exact Hpos | exact Hover | exact Hn |].
  rewrite length_map. exact Hlen.
Qed.

(** C10.  The code does not keep every add inside the track.  In double
    precision, for "sad", a total duration of 5.6 s and draws that pick the
    quarter note every time, the planning loop emits seven events of 0.8 s
    (the elapsed time comes to 5.6 exactly as the seventh is added, with no
    clipping); each takes [int(0.8 * 44100) = 35280] samples, 246960 in
    all, but the track has [int(44100 * 5.6) = 246959] samples, the double
    5.6 lying just below 56/10.  At the seventh event the cursor is at
    211680 and the slice has one sample less than the waveform: the add
    raises [ValueError], whatever the instrument. *)
Theorem mixing_overflows_track (instrument : string) :
  let total := Binary64.five_point_six in
  let quarter := Binary64.quarter_note_duration sad in
  let item := Binary64.event_of ("C4"%string, quarter) in
  let melody_sequence := [item; item; item; item; item; item; item] in
  Binary64.plan sad (fun _ => 0%nat) total 100 0 (Binary64.of_int 0)
    = Some (repeat ("C4"%string, quarter) 7) /\
  map Binary64.event_of (repeat ("C4"%string, quarter) 7) = melody_sequence /\
  Binary64.duration_samples quarter = Some 35280 /\
  Binary64.track_samples total = Some 246959 /\
  map duration_samples melody_sequence = repeat 35280 7 /\
  samples_total melody_sequence = 246960 /\
  py_int (sample_rate * Binary64.to_Q total) = 246959 /\
  (exists zeros st,
     np_zeros 246959 = Ok zeros /\
     mix_loop sad instrument (initial_state zeros) (firstn 6 melody_sequence) = Ok st /\
     current_pos_samples st = 211680 /\
     Z.of_nat (List.length (final_track_data st)) = 246959 /\
     render_step sad instrument st item = Raise ValueError /\
     mix_loop sad instrument (initial_state zeros) melody_sequence = Raise ValueError).
Proof.
  intros total quarter item melody_sequence.
  split; [vm_compute; reflexivity |].
  split; [reflexivity |].
  split; [vm_compute; reflexivity |].
  split; [vm_compute; reflexivity |].
  split; [vm_compute; reflexivity |].
  split; [vm_compute; reflexivity |].
  split; [vm_compute; reflexivity |].
  assert (Hplay : playable item).
  { split; [vm_compute; discriminate | right; reflexivity]. }
  assert (Hn : duration_samples item = 35280) by (vm_compute; reflexivity).
  assert (Hsix : samples_total (firstn 6 melody_sequence) = 211680)
    by (vm_compute; reflexivity).
  exists (repeat 0%R (Z.to_nat 246959)).
  assert (Hbar : bar_samples sad <> 0) by (vm_compute; discriminate).
  assert (Hchords : (0 < List.length (chords sad))%nat) by (cbn; lia).
  assert (Hall : Forall playable (firstn 6 melody_sequence)).
  { cbn [firstn melody_sequence]. repeat (constructor; [exact Hplay |]). constructor. }
  destruct (mix_loop_planned sad instrument Hbar Hchords (firstn 6 melody_sequence) Hall
              (initial_state (repeat 0%R (Z.to_nat 246959))))
    as (st & Hloop & Hlen & Hpos & _).
  - cbn [initial_state current_pos_samples]. lia.
  - cbn. lia.
  - cbn [initial_state current_pos_samples final_track_data].
    rewrite repeat_length, Hsix. lia.
  - cbn [initial_state current_pos_samples final_track_data] in Hlen, Hpos.
    rewrite repeat_length in Hlen. rewrite Hsix in Hpos.
    assert (Hstep : render_step sad instrument st item = Raise ValueError).
    { apply (render_step_overflow sad instrument st item (26163 # 100)).
      - reflexivity.
      - reflexivity.
      - rewrite Hlen, Hpos. lia.
      - rewrite Hlen, Hpos, Hn. lia.
      - rewrite Hn. lia. }
    exists st. split; [reflexivity |]. split; [exact Hloop |].
    split; [lia |]. split; [rewrite Hlen; lia |]. split; [exact Hstep |].
    change melody_sequence with (firstn 6 melody_sequence ++ [item]).
    rewrite mix_loop_app, Hloop. cbn [bind mix_loop]. rewrite Hstep. reflexivity.
Qed.


(** * [generate_music] as a whole *)

Lemma generate_music_mixes (mood_key : string) (mood : Mood) (rnd : nat -> nat)
    (d : Q) (instrument : string) (fuel : nat) :
  dict_get MOODS mood_key = Some mood ->
  (0 < d)%Q ->
  (plan_fuel mood d <= fuel)%nat ->
  exists st_end,
    Z.of_nat (List.length (final_track_data st_end)) = py_int (sample_rate * d) /\
    generate_music fuel rnd mood_key instrument d
      = Some (normalize (final_track_data st_end)).
Proof.
  intros Hmood Hd Hfuel.
  destruct (planned_melody_fits _ _ rnd d Hmood Hd) as (ms & Hret & Hplay & Htotal).
  destruct (catalog_bar _ _ Hmood) as (Hn & Hbar & Hchords & _).
  assert (Hbar0 : bar_samples mood <> 0) by lia.
  pose proof (catalog_bpm_pos _ _ Hmood) as Hbpm.
  set (N := py_int (sample_rate * d)) in *.
  assert (HN : 0 <= N).
  { apply py_int_nonneg_le. apply Qmult_le_0_compat; [discriminate | lra]. }
  destruct (mix_loop_planned mood instrument Hbar0 Hchords ms Hplay
              (initial_state (repeat 0%R (Z.to_nat N))))
    as (st_end & Hloop & Hlen & _);
    cbn [initial_state current_pos_samples chord_index final_track_data];
    rewrite ?repeat_length; try lia.
  cbn [initial_state final_track_data] in Hlen. rewrite repeat_length in Hlen.
  exists st_end. split; [lia |].
  unfold generate_music, MOODS_item. rewrite Hmood.
  destruct (bpm mood =? 0) eqn:E; [apply Z.eqb_eq in E; lia |].
  rewrite (Hret fuel Hfuel). f_equal.
  unfold np_zeros. fold N. destruct (N <? 0) eqn:E'; [apply Z.ltb_lt in E'; lia |].
  cbn [bind]. rewrite Hloop. reflexivity.
Qed.

(** For a catalog mood and a duration of at least one sample,
    [generate_music] returns a normalised track of [int(44100 * d)] samples,
    whatever the draws and the instrument. *)
Lemma generate_music_returns (mood_key : string) (mood : Mood) (rnd : nat -> nat)
    (d : Q) (instrument : string) (fuel : nat) :
  dict_get MOODS mood_key = Some mood ->
  (0 < d)%Q ->
  0 < py_int (sample_rate * d) ->
  (plan_fuel mood d <= fuel)%nat ->
  exists out,
    generate_music fuel rnd mood_key instrument d = Some (Ok out) /\
    Z.of_nat (List.length out) = py_int (sample_rate * d).
Proof.
  intros Hmood Hd HN Hfuel.
  destruct (generate_music_mixes _ _ rnd d instrument fuel Hmood Hd Hfuel)
    as (st_end & Hlen & Hgen).
  rewrite Hgen. unfold normalize.
  destruct (final_track_data st_end) as [| x rest] eqn:Htrack.
  { cbn [List.length] in Hlen. lia. }
  cbn [np_max_abs bind].
  destruct (Rlt_dec 0 _); eexists; (split; [reflexivity |]);
    rewrite ?length_map; exact Hlen.
Qed.

(** For a positive duration shorter than one sample the track is empty and
    [np.max] raises. *)
Lemma generate_music_empty_track (mood_key : string) (mood : Mood) (rnd : nat -> nat)
    (d : Q) (instrument : string) (fuel : nat) :
  dict_get MOODS mood_key = Some mood ->
  (0 < d)%Q ->
  py_int (sample_rate * d) = 0 ->
  (plan_fuel mood d <= fuel)%nat ->
  generate_music fuel rnd mood_key instrument d = Some (Raise ValueError).
Proof.
  intros Hmood Hd HN Hfuel.
  destruct (generate_music_mixes _ _ rnd d instrument fuel Hmood Hd Hfuel)
    as (st_end & Hlen & Hgen).
  rewrite Hgen. rewrite HN in Hlen.
  destruct (final_track_data st_end); [reflexivity | cbn [List.length] in Hlen; lia].
Qed.

(** * More about [create_waveform] *)

(** X1.  [create_waveform] raises exactly when the sample count
    [int(sample_rate * duration)] is negative, and then it is the
    [ValueError] of [np.linspace]; otherwise it returns exactly that many
    samples.  Neither the frequency nor the instrument name matters. *)
Theorem create_waveform_outcome (f d r : Q) (instrument : string) :
  (py_int (r * d) < 0 /\ create_waveform f d r instrument = Raise ValueError) \/
  (0 <= py_int (r * d) /\
   exists buf,
     create_waveform f d r instrument = Ok buf /\
     Z.of_nat (List.length buf) = py_int (r * d)).
Proof.
  destruct (Z.lt_ge_cases (py_int (r * d)) 0) as [Hneg | Hpos].
  - left. split; [exact Hneg |]. apply create_waveform_raises. exact Hneg.
  - right. split; [exact Hpos |].
    destruct (create_waveform_ok f d r instrument Hpos) as (buf & Hbuf & Hlen & _).
    exists buf. split; [exact Hbuf |]. rewrite Hlen. apply Z2Nat.id. exact Hpos.
Qed.

Lemma Rabs_le_of (x b : R) : (- b <= x <= b)%R -> (Rabs x <= b)%R.
Proof. intros H. apply Rabs_le. exact H. Qed.

Lemma np_sign_bound (x : R) : (-1 <= np_sign x <= 1)%R.
Proof. destruct (np_sign_cases x) as [-> | [-> | ->]]; lra. Qed.

Lemma recipe_bounded (instrument : string) (f t : R) :
  (Rabs (recipe instrument f t) <= recipe_peak instrument)%R.
Proof.
  unfold recipe, recipe_peak.
  pose proof (SIN_bound (2 * PI * f * t)) as H1.
  pose proof (SIN_bound (2 * PI * (f * 2) * t)) as H2.
  pose proof (SIN_bound (2 * PI * (f * 3) * t)) as H3.
  pose proof (SIN_bound (2 * PI * (f * (5 / 10)) * t)) as H4.
  pose proof (np_sign_bound (sin (2 * PI * f * t))) as H5.
  destruct (instrument =? "piano")%string; [apply Rabs_le_of; lra |].
  destruct (instrument =? "organ")%string; [apply Rabs_le_of; lra |].
  destruct (instrument =? "retro_synth")%string; apply Rabs_le_of; lra.
Qed.

Lemma recipe_peak_le (instrument : string) :
  (0 < recipe_peak instrument <= 13 / 10)%R.
Proof.
  unfold recipe_peak.
  destruct (instrument =? "piano")%string; [lra |].
  destruct (instrument =? "organ")%string; [lra |].
  destruct (instrument =? "retro_synth")%string; lra.
Qed.

Lemma recipe_onset (instrument : string) (f : R) : recipe instrument f 0 = 0%R.
Proof.
  unfold recipe.
  replace (2 * PI * f * 0)%R with 0%R by ring.
  replace (2 * PI * (f * 2) * 0)%R with 0%R by ring.
  replace (2 * PI * (f * 3) * 0)%R with 0%R by ring.
  replace (2 * PI * (f * (5 / 10)) * 0)%R with 0%R by ring.
  rewrite sin_0, np_sign_zero.
  destruct (instrument =? "piano")%string; [lra |].
  destruct (instrument =? "organ")%string; [lra |].
  destruct (instrument =? "retro_synth")%string; lra.
Qed.

(** Every value [waveform_sample] can take is bounded by the peak of the
    recipe. *)
Lemma waveform_sample_bounded (f d r : Q) (instrument : string) (j : nat) :
  (Rabs (waveform_sample f d r instrument j) <= recipe_peak instrument)%R.
Proof.
  unfold waveform_sample. cbv zeta.
  set (x := Q2R (linspace_point 0 (-5) _ true (Z.of_nat j))).
  assert (Hx : (x <= 0)%R).
  { unfold x. rewrite <- Q2R_zero. apply Qle_Rle. apply envelope_ramp_nonpos. }
  pose proof (exp_le_one x Hx) as [He0 He1].
  rewrite Rabs_mult, (Rabs_right (exp x)) by lra.
  pose proof (recipe_bounded instrument (Q2R f)
                (Q2R (linspace_point 0 d (py_int (r * d)) false (Z.of_nat j)))) as Hb.
  pose proof (Rabs_pos (recipe instrument (Q2R f)
                (Q2R (linspace_point 0 d (py_int (r * d)) false (Z.of_nat j))))) as Hp.
  nra.
Qed.

(** X2.  Whenever [create_waveform] returns, every sample is bounded in
    absolute value by the sum of the weights of the instrument's recipe
    (0.9 for piano, 1.3 for organ, 1 for retro_synth, 0.8 for any other
    name), hence by 1.3; and a buffer that is not empty starts with the
    sample 0, every note starting at phase zero. *)
Theorem waveform_amplitude (f d r : Q) (instrument : string) :
  0 <= py_int (r * d) ->
  exists buf,
    create_waveform f d r instrument = Ok buf /\
    (forall j, (Rabs (nth j buf 0) <= recipe_peak instrument)%R) /\
    (recipe_peak instrument <= 13 / 10)%R /\
    (buf <> [] -> nth 0 buf 0%R = 0%R).
Proof.
  intros HN.
  destruct (create_waveform_ok f d r instrument HN) as (buf & Hbuf & Hlen & Hnth).
  exists buf. split; [exact Hbuf |]. split; [| split].
  - intros j. destruct (Nat.lt_ge_cases j (List.length buf)) as [Hj | Hj].
    + rewrite Hnth by (rewrite <- Hlen; exact Hj). apply waveform_sample_bounded.
    + rewrite nth_overflow by exact Hj. rewrite Rabs_R0.
      pose proof (recipe_peak_le instrument). lra.
  - apply recipe_peak_le.
  - intros Hne. rewrite Hnth.
    + unfold waveform_sample. cbv zeta.
      assert (Ht : Q2R (linspace_point 0 d (py_int (r * d)) false (Z.of_nat 0)) = 0%R).
      { rewrite <- Q2R_zero. apply Q2R_of_Qeq. unfold linspace_point.
        change (inject_Z (Z.of_nat 0)) with 0%Q.
        destruct (0 <? py_int (r * d)); ring. }
      rewrite Ht, recipe_onset. ring.
    + rewrite <- Hlen. destruct buf; [congruence | cbn; lia].
Qed.

Lemma waveform_amplitude_witness :
  exists buf,
    create_waveform 440 (1 # 2) 44100 "organ" = Ok buf /\
    (forall j, (Rabs (nth j buf 0) <= recipe_peak "organ")%R) /\
    (recipe_peak "organ" <= 13 / 10)%R /\
    (buf <> [] -> nth 0 buf 0%R = 0%R).
Proof.
  apply (waveform_amplitude 440 (1 # 2) 44100 "organ").
  vm_compute. discriminate.
Defined.

Lemma Q2R_inject_Z (z : Z) : Q2R (inject_Z z) = IZR z.
Proof. unfold Q2R. cbn. field. Qed.

Lemma time_point_closed (d : Q) (N : Z) (j : nat) :
  0 < N ->
  Q2R (linspace_point 0 d N false (Z.of_nat j)) = (IZR (Z.of_nat j) * Q2R d / IZR N)%R.
Proof.
  intros HN. unfold linspace_point.
  destruct (0 <? N) eqn:E; [| apply Z.ltb_ge in E; lia].
  assert (HNq : ~ (inject_Z N == 0)%Q).
  { unfold Qeq. cbn. lia. }
  rewrite Q2R_plus, Q2R_mult, Q2R_div, Q2R_minus, !Q2R_inject_Z, Q2R_zero by exact HNq.
  field. apply not_0_IZR. lia.
Qed.

Lemma ramp_point_closed (N : Z) (j : nat) :
  2 <= N ->
  Q2R (linspace_point 0 (-5) (Z.of_nat (Z.to_nat N)) true (Z.of_nat j))
  = (-5 * IZR (Z.of_nat j) / IZR (N - 1))%R.
Proof.
  intros HN. rewrite Z2Nat.id by lia. unfold linspace_point.
  destruct (0 <? N - 1) eqn:E; [| apply Z.ltb_ge in E; lia].
  assert (HNq : ~ (inject_Z (N - 1) == 0)%Q).
  { unfold Qeq. cbn. lia. }
  rewrite Q2R_plus, Q2R_mult, Q2R_div, Q2R_minus, !Q2R_inject_Z, Q2R_zero by exact HNq.
  replace (Q2R (-5)) with (-5)%R by (unfold Q2R; cbn; lra).
  field. apply not_0_IZR. lia.
Qed.

(** X3.  The closed form of a note of two samples or more.  With
    [N = int(r * d)], sample [j] is the recipe at time [j * d / N] times
    the envelope [exp(-5 j / (N - 1))]; the envelope is 1 at the first
    sample, [exp(-5)] at the last and strictly decreasing in between; and
    the time step [d / N] is never shorter than the sampling period [1 / r],
    and equal to it exactly when [r * d] is a whole number. *)
Theorem waveform_closed_form (f d r : Q) (instrument : string) :
  (0 < d)%Q -> (0 < r)%Q ->
  2 <= py_int (r * d) ->
  let N := py_int (r * d) in
  let envelope (j : nat) : R := exp (-5 * IZR (Z.of_nat j) / IZR (N - 1)) in
  exists buf,
    create_waveform f d r instrument = Ok buf /\
    Z.of_nat (List.length buf) = N /\
    (forall j, (j < List.length buf)%nat ->
       nth j buf 0%R =
       (recipe instrument (Q2R f) (IZR (Z.of_nat j) * Q2R d / IZR N) * envelope j)%R) /\
    envelope 0%nat = 1%R /\
    envelope (Z.to_nat (N - 1)) = exp (-5) /\
    (forall j, (envelope (S j) < envelope j)%R) /\
    (1 / r <= d / inject_Z N)%Q /\
    ((1 / r == d / inject_Z N)%Q <-> (inject_Z N == r * d)%Q).
Proof.
  intros Hd Hr HN N envelope. fold N in HN.
  destruct (create_waveform_ok f d r instrument) as (buf & Hbuf & Hlen & Hnth);
    [fold N; lia |]. fold N in Hlen, Hnth.
  assert (HNq : (0 < inject_Z N)%Q).
  { change 0%Q with (inject_Z 0). rewrite <- Zlt_Qlt. lia. }
  assert (Hfloor : (inject_Z N <= r * d)%Q).
  { unfold N. rewrite py_int_nonneg by (apply Qmult_le_0_compat; lra).
    apply Qfloor_le. }
  assert (HN1 : (0 < IZR (N - 1))%R) by (apply IZR_lt; lia).
  exists buf. split; [exact Hbuf |]. split; [rewrite Hlen; lia |].
  split; [| split; [| split; [| split; [| split]]]].
  - intros j Hj. rewrite Hnth by (rewrite <- Hlen; exact Hj).
    unfold waveform_sample. cbv zeta. fold N.
    rewrite time_point_closed by lia. rewrite ramp_point_closed by lia. reflexivity.
  - unfold envelope. cbn [Z.of_nat].
    replace (-5 * 0 / IZR (N - 1))%R with 0%R by (field; lra). apply exp_0.
  - unfold envelope. rewrite Z2Nat.id by lia. f_equal. field. lra.
  - intros j. unfold envelope. apply exp_increasing.
    rewrite Nat2Z.inj_succ, succ_IZR.
    apply Rmult_lt_compat_r; [apply Rinv_0_lt_compat; exact HN1 | lra].
  - apply Qle_shift_div_l; [exact HNq |].
    assert (E : (1 / r * inject_Z N == inject_Z N / r)%Q) by (field; lra).
    rewrite E. apply Qle_shift_div_r; [exact Hr |]. rewrite Qmult_comm. exact Hfloor.
  - split; intros H.
    + assert (H' : (1 / r * (r * inject_Z N) == d / inject_Z N * (r * inject_Z N))%Q)
        by (rewrite H; reflexivity).
      assert (E1 : (1 / r * (r * inject_Z N) == inject_Z N)%Q) by (field; lra).
      assert (E2 : (d / inject_Z N * (r * inject_Z N) == r * d)%Q) by (field; lra).
      rewrite E1, E2 in H'. exact H'.
    + rewrite H. field. split; lra.
Qed.

Lemma waveform_closed_form_witness :
  let N := py_int (44100 * (1 # 2)) in
  let envelope (j : nat) : R := exp (-5 * IZR (Z.of_nat j) / IZR (N - 1)) in
  exists buf,
    create_waveform 440 (1 # 2) 44100 "piano" = Ok buf /\
    Z.of_nat (List.length buf) = N /\
    (forall j, (j < List.length buf)%nat ->
       nth j buf 0%R =
       (recipe "piano" (Q2R 440) (IZR (Z.of_nat j) * Q2R (1 # 2) / IZR N) * envelope j)%R) /\
    envelope 0%nat = 1%R /\
    envelope (Z.to_nat (N - 1)) = exp (-5) /\
    (forall j, (envelope (S j) < envelope j)%R) /\
    (1 / 44100 <= (1 # 2) / inject_Z N)%Q /\
    ((1 / 44100 == (1 # 2) / inject_Z N)%Q <-> (inject_Z N == 44100 * (1 # 2))%Q).
Proof.
  apply (waveform_closed_form 440 (1 # 2) 44100 "piano").
  - reflexivity.
  - reflexivity.
  - vm_compute. discriminate.
Defined.

(** * More about the planning loop *)

Section PlannerRhythms.

Local Open Scope Q_scope.

Variable mood : Mood.
Variable rnd : nat -> nat.
Variable total : Q.
Hypothesis bpm_pos : (0 < bpm mood)%Z.

Let q := quarter_note_duration mood.

Lemma rhythm_choice_le (draw : nat) :
  In (random_choice draw (rhythms mood) q) (rhythms mood) /\
  random_choice draw (rhythms mood) q <= q * (3 # 2).
Proof.
  pose proof (quarter_note_duration_pos mood bpm_pos) as Hq. fold q in Hq.
  assert (Hin : In (random_choice draw (rhythms mood) q) (rhythms mood))
    by (apply random_choice_In; discriminate).
  split; [exact Hin |].
  set (d := random_choice draw (rhythms mood) q) in *. clearbody d.
  unfold rhythms in Hin. fold q in Hin. simpl in Hin.
  destruct Hin as [<- | [<- | [<- | []]]]; qlra.
Qed.

(** An iteration either emits one of the three rhythm values, or clips and
    reaches the total duration. *)
Lemma plan_step_rhythm (k : nat) (current_time : Q) :
  current_time < total ->
  duration (fst (plan_step mood rnd total k current_time)) <= q * (3 # 2) /\
  (In (duration (fst (plan_step mood rnd total k current_time))) (rhythms mood) \/
   total <= snd (plan_step mood rnd total k current_time)).
Proof.
  intros Hlt. unfold plan_step. fold q.
  destruct (rhythm_choice_le (rnd (2 * k)%nat)) as [Hin Hle].
  set (d := random_choice (rnd (2 * k)%nat) (rhythms mood) q) in *.
  destruct (Qltb total (current_time + d)) eqn:Hclip; cbn [fst snd duration].
  - apply Qltb_lt in Hclip. split; [lra | right; lra].
  - split; [exact Hle | left; exact Hin].
Qed.

Lemma planning_loop_rhythms (fuel : nat) :
  forall k current_time melody_sequence,
    planning_loop mood rnd total fuel k current_time = Some melody_sequence ->
    (List.length melody_sequence < fuel)%nat /\
    Forall (fun item => duration item <= q * (3 # 2)) melody_sequence /\
    (forall pre item post,
       melody_sequence = pre ++ item :: post -> post <> [] ->
       In (duration item) (rhythms mood)).
Proof.
  induction fuel as [| fuel IH]; intros k ct ms H; [discriminate |].
  cbn [planning_loop] in H.
  destruct (Qltb ct total) eqn:Hc.
  - apply Qltb_lt in Hc.
    pose proof (plan_step_rhythm k ct Hc) as [Hle Hcase].
    destruct (plan_step mood rnd total k ct) as [item ct']. cbn [fst snd] in *.
    destruct (planning_loop mood rnd total fuel (S k) ct') as [ms' |] eqn:E;
      [| discriminate].
    injection H as <-.
    destruct (IH _ _ _ E) as (Hlen & Hall & Hrh).
    split; [cbn; lia |]. split; [constructor; assumption |].
    intros pre item0 post Hsplit Hpost.
    destruct pre as [| x pre]; cbn [app] in Hsplit; injection Hsplit as <- ->.
    + destruct Hcase as [Hin | Hend]; [exact Hin |].
      exfalso. apply Hpost.
      destruct fuel as [| fuel']; [discriminate |].
      cbn [planning_loop] in E.
      destruct (Qltb ct' total) eqn:Hc'; [apply Qltb_lt in Hc'; lra |].
      injection E as <-. reflexivity.
    + eapply Hrh; [reflexivity | exact Hpost].
  - injection H as <-. split; [cbn; lia |]. split; [constructor |].
    intros pre item post Hsplit. destruct pre; discriminate.
Qed.

Lemma total_of_le (bound : Q) (events : list MelodyEvent) :
  Forall (fun item => duration item <= bound) events ->
  total_of events <= inject_Z (Z.of_nat (List.length events)) * bound.
Proof.
  induction 1 as [| item rest Hitem Hrest IH]; cbn [total_of fold_right List.length].
  - change (inject_Z (Z.of_nat 0)) with 0. lra.
  - fold (total_of rest).
    rewrite Nat2Z.inj_succ, <- Z.add_1_r, inject_Z_plus.
    change (inject_Z 1) with 1. lra.
Qed.

End PlannerRhythms.


(** X5.  The number of planned events.  For a catalog mood and [d >= 0]
    the melody has at least [d / (1.5 q)] events, [q] being the quarter
    note; it is empty exactly when [d <= 0]. *)
Theorem planned_event_count
    (mood_key : string) (mood : Mood) (rnd : nat -> nat) (d : Q) :
  dict_get MOODS mood_key = Some mood ->
  exists melody_sequence,
    (forall fuel, (plan_fuel mood d <= fuel)%nat ->
       melody_sequence_of mood rnd d fuel = Some melody_sequence) /\
    ((0 <= d)%Q ->
     (d <= inject_Z (Z.of_nat (List.length melody_sequence))
           * (quarter_note_duration mood * (3 # 2)))%Q) /\
    (melody_sequence = [] <-> (d <= 0)%Q).
Proof.
  intros Hmood. pose proof (catalog_bpm_pos _ _ Hmood) as Hbpm.
  destruct (planner_returns mood rnd d Hbpm) as (ms & Hret & _ & Hsum).
  exists ms. split; [exact Hret |].
  pose proof (Hret _ (Nat.le_refl _)) as Hrun. unfold melody_sequence_of in Hrun.
  destruct (planning_loop_rhythms mood rnd d Hbpm _ _ _ _ Hrun) as (_ & Hle & _).
  split; [| split].
  - intros Hd. rewrite <- (Hsum Hd) at 1. apply total_of_le. exact Hle.
  - intros ->. destruct (Qlt_le_dec 0 d) as [Hpos | Hnonpos]; [| exact Hnonpos].
    assert (Hz : (total_of [] == d)%Q) by (apply Hsum; lra).
    cbn in Hz. lra.
  - intros Hd. unfold plan_fuel in Hrun. cbn [planning_loop] in Hrun.
    destruct (Qltb 0 d) eqn:E; [apply Qltb_lt in E; lra |].
    injection Hrun as <-. reflexivity.
Qed.

Lemma planned_event_count_witness :
  exists melody_sequence,
    (forall fuel, (plan_fuel happy 3 <= fuel)%nat ->
       melody_sequence_of happy (fun k => k) 3 fuel = Some melody_sequence) /\
    ((0 <= 3)%Q ->
     (3 <= inject_Z (Z.of_nat (List.length melody_sequence))
           * (quarter_note_duration happy * (3 # 2)))%Q) /\
    (melody_sequence = [] <-> (3 <= 0)%Q).
Proof.
  apply (planned_event_count "happy" happy (fun k => k) 3).
  reflexivity.
Defined.

(** * More about the mixing loop *)

Lemma slice_add_length (a : list R) (start stop : Z) (wave a' : list R) :
  slice_add a start stop wave = Ok a' -> List.length a' = List.length a.
Proof.
  unfold slice_add. intros H.
  destruct (_ =? _)%nat; [injection H as <-; apply imap_length |].
  destruct (_ =? _)%nat; [injection H as <-; apply imap_length | discriminate].
Qed.

Lemma add_melody_length (instrument : string) (item : MelodyEvent) (pos : Z)
    (track track' : list R) :
  add_melody instrument item pos track = Ok track' ->
  List.length track' = List.length track.
Proof.
  unfold add_melody. intros H.
  destruct (negb _); [| injection H as <-; reflexivity].
  destruct (NOTES_item _); cbn [bind] in H; [| discriminate].
  destruct (create_waveform _ _ _ _); cbn [bind] in H; [| discriminate].
  eapply slice_add_length. exact H.
Qed.

Lemma add_harmony_length (notes : list string) (item : MelodyEvent) (pos : Z) :
  forall track track',
    add_harmony notes item pos track = Ok track' ->
    List.length track' = List.length track.
Proof.
  induction notes as [| note_name rest IH]; intros track track' H; cbn [add_harmony] in H.
  - injection H as <-. reflexivity.
  - destruct (in_NOTES note_name); [| apply IH; exact H].
    destruct (NOTES_item _); cbn [bind] in H; [| discriminate].
    destruct (create_waveform _ _ _ _); cbn [bind] in H; [| discriminate].
    destruct (slice_add _ _ _ _) as [track1 |] eqn:E; cbn [bind] in H; [| discriminate].
    rewrite (IH _ _ H). eapply slice_add_length. exact E.
Qed.

Lemma render_step_frame (mood : Mood) (instrument : string) (st st' : MixState)
    (item : MelodyEvent) :
  render_step mood instrument st item = Ok st' ->
  List.length (final_track_data st') = List.length (final_track_data st) /\
  current_pos_samples st' = current_pos_samples st + duration_samples item /\
  (chord_index st < List.length (chords mood))%nat /\
  (chord_index st' < List.length (chords mood))%nat.
Proof.
  intros H. pose proof (render_step_indices _ _ _ _ _ H) as Hix.
  apply advance_indices_inv in Hix. destruct Hix as (_ & Hpos & Hci).
  unfold render_step in H.
  destruct (add_melody _ _ _ _) as [track1 |] eqn:E1; cbn [bind] in H; [| discriminate].
  destruct (nth_error _ _) as [chord |] eqn:E2; cbn [bind] in H; [| discriminate].
  destruct (add_harmony _ _ _ _) as [track2 |] eqn:E3; cbn [bind] in H; [| discriminate].
  destruct (advance_indices _ _ _ _) as [ix |]; cbn [bind] in H; [| discriminate].
  injection H as <-. cbn [final_track_data].
  assert (Hin : (chord_index st < List.length (chords mood))%nat).
  { apply nth_error_Some. congruence. }
  split; [rewrite (add_harmony_length _ _ _ _ _ E3); eapply add_melody_length; exact E1 |].
  split; [exact Hpos |]. split; [exact Hin |].
  cbn [chord_index current_pos_samples] in Hci. cbn [chord_index]. rewrite Hci.
  destruct (_ <? _); [| exact Hin].
  apply Nat.mod_upper_bound. lia.
Qed.

Lemma mix_loop_keeps (mood : Mood) (instrument : string)
    (events : list MelodyEvent) :
  forall st st',
    mix_loop mood instrument st events = Ok st' ->
    List.length (final_track_data st') = List.length (final_track_data st) /\
    current_pos_samples st' = current_pos_samples st + samples_total events /\
    ((chord_index st < List.length (chords mood))%nat ->
     (chord_index st' < List.length (chords mood))%nat).
Proof.
  induction events as [| item rest IH]; intros st st' H;
    cbn [mix_loop samples_total fold_right] in *.
  - injection H as <-. repeat split; auto; lia.
  - fold (samples_total rest).
    destruct (render_step mood instrument st item) as [st1 |] eqn:E; cbn [bind] in H;
      [| discriminate].
    destruct (render_step_frame _ _ _ _ _ E) as (Hlen & Hpos & _ & Hci).
    destruct (IH _ _ H) as (Hlen' & Hpos' & Hci').
    split; [congruence |]. split; [lia |]. intros _. apply Hci'. exact Hci.
Qed.

(** X6.  Whatever the mood, the instrument and the events: a run of the
    mixing loop that completes leaves the track at its length, moves the
    cursor by the sum of the events' sample counts, and keeps the chord
    index a valid index into the chord progression. *)
Theorem mix_loop_frame (mood : Mood) (instrument : string)
    (events : list MelodyEvent) (st st' : MixState) :
  mix_loop mood instrument st events = Ok st' ->
  List.length (final_track_data st') = List.length (final_track_data st) /\
  current_pos_samples st' = current_pos_samples st + samples_total events /\
  ((chord_index st < List.length (chords mood))%nat ->
   (chord_index st' < List.length (chords mood))%nat).
Proof.
  intros H. split; [| split].
  - apply (mix_loop_keeps mood instrument events st st' H).
  - apply (mix_loop_keeps mood instrument events st st' H).
  - intros Hci.
    destruct (mix_loop_keeps mood instrument events st st' H) as (_ & _ & Hk).
    apply Hk. exact Hci.
Qed.

Lemma mix_loop_frame_witness :
  let st := {| final_track_data := [0; 0; 0]%R; current_pos_samples := 0; chord_index := 0 |} in
  let item := {| note := "REST"; duration := 1 # 22050 |} in
  exists st',
    mix_loop happy "piano" st [item] = Ok st' /\
    List.length (final_track_data st') = List.length (final_track_data st) /\
    current_pos_samples st' = current_pos_samples st + samples_total [item] /\
    ((chord_index st < List.length (chords happy))%nat ->
     (chord_index st' < List.length (chords happy))%nat).
Proof.
  intros st item.
  destruct (render_step_spec happy "piano" st item ["C4"; "E4"; "G4"]%string)
    as (track1 & st' & _ & _ & Hstep & _).
  - cbn. lia.
  - cbn. discriminate.
  - vm_compute. discriminate.
  - left. reflexivity.
  - reflexivity.
  - vm_compute. discriminate.
  - assert (Hloop : mix_loop happy "piano" st [item] = Ok st')
      by (cbn [mix_loop]; rewrite Hstep; reflexivity).
    exists st'. split; [exact Hloop |].
    apply (mix_loop_frame happy "piano" [item] st st'). exact Hloop.
Defined.

Lemma in_window_iff (pos n : Z) (j : nat) :
  in_window pos n j = true <-> (Z.to_nat pos <= j < Z.to_nat pos + Z.to_nat n)%nat.
Proof.
  unfold in_window. rewrite andb_true_iff, Nat.leb_le, Nat.ltb_lt. reflexivity.
Qed.

(** An add that numpy accepts, at a cursor that is not negative: the wave
    lands on its window, and only on positions the track has. *)
Lemma slice_add_any (a a' : list R) (pos n : Z) (wave : list R) :
  slice_add a pos (pos + n) wave = Ok a' ->
  0 <= pos -> 0 <= n ->
  List.length wave = Z.to_nat n ->
  forall j,
    nth j a' 0%R =
    (nth j a 0 +
     if in_window pos n j && (j <? List.length a)%nat
     then nth (j - Z.to_nat pos) wave 0 else 0)%R.
Proof.
  intros H Hpos Hn Hwave j. unfold slice_add in H.
  set (len := Z.of_nat (List.length a)) in *.
  assert (Hlo : Z.to_nat (slice_index len pos) = Z.to_nat (Z.min pos len)).
  { unfold slice_index. destruct (pos <? 0) eqn:E; [apply Z.ltb_lt in E; lia |].
    reflexivity. }
  assert (Hhi : Z.to_nat (slice_index len (pos + n)) = Z.to_nat (Z.min (pos + n) len)).
  { unfold slice_index. destruct (pos + n <? 0) eqn:E; [apply Z.ltb_lt in E; lia |].
    reflexivity. }
  rewrite Hlo, Hhi, Hwave in H.
  set (lo := Z.to_nat (Z.min pos len)) in *.
  set (m := (Z.to_nat (Z.min (pos + n) len) - lo)%nat) in *.
  destruct (Nat.lt_ge_cases j (List.length a)) as [Hj | Hj].
  2: { assert (Hlen' : List.length a' = List.length a).
       { destruct (Z.to_nat n =? m)%nat; [injection H as <-; apply imap_length |].
         destruct (Z.to_nat n =? 1)%nat; [injection H as <-; apply imap_length |].
         discriminate. }
       rewrite !nth_overflow by lia.
       assert (E : (j <? List.length a)%nat = false) by (apply Nat.ltb_ge; exact Hj).
       rewrite E, andb_false_r. lra. }
  assert (E : (j <? List.length a)%nat = true) by (apply Nat.ltb_lt; exact Hj).
  rewrite E, andb_true_r.
  destruct (Z.to_nat n =? m)%nat eqn:E1.
  - apply Nat.eqb_eq in E1. injection H as <-.
    rewrite imap_nth by exact Hj. cbn [Nat.add].
    destruct (in_window pos n j) eqn:Hw.
    + apply in_window_iff in Hw.
      assert (Hin : ((lo <=? j) && (j <? lo + m))%nat = true).
      { apply andb_true_iff. rewrite Nat.leb_le, Nat.ltb_lt. unfold lo, m in *. lia. }
      rewrite Hin. replace (j - lo)%nat with (j - Z.to_nat pos)%nat by (unfold lo; lia).
      reflexivity.
    + assert (Hout : ((lo <=? j) && (j <? lo + m))%nat = false).
      { apply andb_false_iff. rewrite Nat.leb_gt, Nat.ltb_ge.
        assert (Hnw : ~ (Z.to_nat pos <= j < Z.to_nat pos + Z.to_nat n)%nat).
        { intros C. apply in_window_iff in C. congruence. }
        unfold lo, m in *. lia. }
      rewrite Hout. lra.
  - destruct (Z.to_nat n =? 1)%nat eqn:E2; [| discriminate].
    apply Nat.eqb_neq in E1. apply Nat.eqb_eq in E2. injection H as <-.
    rewrite imap_nth by exact Hj. cbn [Nat.add].
    assert (Hm : m = 0%nat) by (unfold lo, m in *; lia).
    assert (Hout : ((lo <=? j) && (j <? lo + m))%nat = false).
    { apply andb_false_iff. rewrite Nat.leb_gt, Nat.ltb_ge. lia. }
    rewrite Hout.
    destruct (in_window pos n j) eqn:Hw; [| lra].
    apply in_window_iff in Hw. unfold lo, m in *. lia.
Qed.

Lemma create_waveform_returned (freq dur rate : Q) (instrument : string) (wave : list R) :
  create_waveform freq dur rate instrument = Ok wave ->
  0 <= py_int (rate * dur) /\
  List.length wave = Z.to_nat (py_int (rate * dur)) /\
  forall j, (j < Z.to_nat (py_int (rate * dur)))%nat ->
    nth j wave 0%R = waveform_sample freq dur rate instrument j.
Proof.
  intros H.
  destruct (Z.lt_ge_cases (py_int (rate * dur)) 0) as [Hneg | Hpos].
  - rewrite create_waveform_raises in H by exact Hneg. discriminate.
  - destruct (create_waveform_ok freq dur rate instrument Hpos) as (buf & Hbuf & Hlen & Hnth).
    assert (buf = wave) by congruence. subst buf. auto.
Qed.

(** One synthesized voice that was added without error. *)
Lemma add_voice_any (track track' wave : list R) (pos : Z) (item : MelodyEvent)
    (freq : Q) (instrument : string) (gain : R) :
  create_waveform freq (duration item) sample_rate instrument = Ok wave ->
  slice_add track pos (pos + duration_samples item) (map (fun x => x * gain)%R wave)
    = Ok track' ->
  0 <= pos ->
  0 <= duration_samples item /\
  forall j,
    nth j track' 0%R =
    (nth j track 0 +
     if in_window pos (duration_samples item) j && (j <? List.length track)%nat
     then waveform_sample freq (duration item) sample_rate instrument
                          (j - Z.to_nat pos) * gain
     else 0)%R.
Proof.
  intros Hwave Hadd Hpos.
  destruct (create_waveform_returned _ _ _ _ _ Hwave) as (HN & Hlen & Hnth).
  rewrite duration_samples_count in HN, Hlen, Hnth.
  split; [exact HN |]. intros j.
  rewrite (slice_add_any _ _ _ _ _ Hadd Hpos HN) by (rewrite length_map; exact Hlen).
  destruct (in_window pos (duration_samples item) j) eqn:Hw; cbn [andb]; [| reflexivity].
  destruct (j <? List.length track)%nat; [| reflexivity].
  apply in_window_lt in Hw.
  rewrite (map_nth_in _ 0%R) by (rewrite Hlen; exact Hw).
  rewrite Hnth by exact Hw. reflexivity.
Qed.

Lemma add_melody_any (instrument : string) (item : MelodyEvent) (pos : Z)
    (track track' : list R) :
  add_melody instrument item pos track = Ok track' ->
  0 <= pos ->
  forall j,
    nth j track' 0%R =
    (nth j track 0 +
     if in_window pos (duration_samples item) j && (j <? List.length track)%nat
     then melody_sample instrument item (j - Z.to_nat pos)
     else 0)%R.
Proof.
  unfold add_melody, melody_sample. intros H Hpos j.
  destruct (note item =? REST)%string; cbn [negb] in H.
  - injection H as <-. destruct (_ && _); lra.
  - unfold NOTES_item in H.
    destruct (dict_get NOTES (note item)) as [freq |]; cbn [bind] in H; [| discriminate].
    destruct (create_waveform freq (duration item) sample_rate instrument)
      as [wave |] eqn:Hwave; cbn [bind] in H; [| discriminate].
    destruct (add_voice_any _ _ _ _ _ _ _ _ Hwave H Hpos) as [_ Hnth]. apply Hnth.
Qed.

Lemma add_harmony_any (notes : list string) (item : MelodyEvent) (pos : Z) :
  0 <= pos ->
  forall track track',
    add_harmony notes item pos track = Ok track' ->
    (existsb in_NOTES notes = true -> 0 <= duration_samples item) /\
    forall j,
      nth j track' 0%R =
      (nth j track 0 +
       if in_window pos (duration_samples item) j && (j <? List.length track)%nat
       then harmony_sample notes item (j - Z.to_nat pos)
       else 0)%R.
Proof.
  intros Hpos. induction notes as [| note_name rest IH]; intros track track' H;
    cbn [add_harmony harmony_sample existsb] in *.
  - injection H as <-. split; [discriminate |]. intros j. destruct (_ && _); lra.
  - unfold in_NOTES, NOTES_item in *.
    destruct (dict_get NOTES note_name) as [freq |]; cbn [orb].
    + cbn [bind] in H.
      destruct (create_waveform freq (duration item) sample_rate "organ")
        as [wave |] eqn:Hwave; cbn [bind] in H; [| discriminate].
      destruct (slice_add track pos (pos + duration_samples item) _)
        as [track1 |] eqn:Hadd; cbn [bind] in H; [| discriminate].
      destruct (add_voice_any _ _ _ _ _ _ _ _ Hwave Hadd Hpos) as [Hn Hnth1].
      destruct (IH _ _ H) as [_ Hnth].
      split; [intros _; exact Hn |]. intros j.
      rewrite Hnth, Hnth1, (slice_add_length _ _ _ _ _ Hadd).
      destruct (_ && _); lra.
    + destruct (IH _ _ H) as [Hn Hnth].
      split; [exact Hn |]. intros j. rewrite Hnth. destruct (_ && _); lra.
Qed.

(** An iteration of the mixing loop that completes, at a cursor that is not
    negative: what it adds, sample by sample. *)
Lemma render_step_any (mood : Mood) (instrument : string) (st st' : MixState)
    (item : MelodyEvent) :
  render_step mood instrument st item = Ok st' ->
  0 <= current_pos_samples st ->
  exists chord,
    nth_error (chords mood) (chord_index st) = Some chord /\
    (existsb in_NOTES chord = true -> 0 <= duration_samples item) /\
    forall j,
      nth j (final_track_data st') 0%R =
      (nth j (final_track_data st) 0 +
       if in_window (current_pos_samples st) (duration_samples item) j
          && (j <? List.length (final_track_data st))%nat
       then melody_sample instrument item (j - Z.to_nat (current_pos_samples st)) +
            harmony_sample chord item (j - Z.to_nat (current_pos_samples st))
       else 0)%R.
Proof.
  intros H Hpos. unfold render_step in H.
  destruct (add_melody _ _ _ _) as [track1 |] eqn:E1; cbn [bind] in H; [| discriminate].
  destruct (nth_error _ _) as [chord |] eqn:E2; cbn [bind] in H; [| discriminate].
  destruct (add_harmony _ _ _ _) as [track2 |] eqn:E3; cbn [bind] in H; [| discriminate].
  destruct (advance_indices _ _ _ _) as [ix |]; cbn [bind] in H; [| discriminate].
  injection H as <-. cbn [final_track_data].
  exists chord. split; [reflexivity |].
  destruct (add_harmony_any chord item _ Hpos _ _ E3) as [Hn Hnth2].
  split; [exact Hn |]. intros j.
  rewrite Hnth2, (add_melody_any _ _ _ _ _ E1 Hpos), (add_melody_length _ _ _ _ _ E1).
  destruct (_ && _); lra.
Qed.

Section MixSamples.

Variable mood : Mood.
Variable instrument : string.
Hypothesis chords_sound :
  Forall (fun chord => existsb in_NOTES chord = true) (chords mood).

Lemma render_step_forward (st st' : MixState) (item : MelodyEvent) :
  render_step mood instrument st item = Ok st' ->
  0 <= current_pos_samples st ->
  0 <= duration_samples item.
Proof.
  intros H Hpos.
  destruct (render_step_any _ _ _ _ _ H Hpos) as (chord & Hchord & Hn & _).
  apply Hn. rewrite Forall_forall in chords_sound. apply chords_sound.
  eapply nth_error_In. exact Hchord.
Qed.

(** A run that completes touches nothing before the cursor it starts from
    and nothing from the cursor it ends at. *)
Lemma mix_loop_outside (events : list MelodyEvent) :
  forall st st',
    mix_loop mood instrument st events = Ok st' ->
    0 <= current_pos_samples st ->
    current_pos_samples st <= current_pos_samples st' /\
    forall j,
      (j < Z.to_nat (current_pos_samples st))%nat \/
      (Z.to_nat (current_pos_samples st') <= j)%nat ->
      nth j (final_track_data st') 0%R = nth j (final_track_data st) 0%R.
Proof.
  induction events as [| item rest IH]; intros st st' H Hpos; cbn [mix_loop] in H.
  - injection H as <-. split; [lia | auto].
  - destruct (render_step mood instrument st item) as [st1 |] eqn:Hstep;
      cbn [bind] in H; [| discriminate].
    pose proof (render_step_forward _ _ _ Hstep Hpos) as Hn.
    destruct (render_step_frame _ _ _ _ _ Hstep) as (_ & Hpos1 & _).
    destruct (render_step_any _ _ _ _ _ Hstep Hpos) as (chord & _ & _ & Hnth).
    destruct (IH _ _ H ltac:(lia)) as [Hle Hout].
    split; [lia |]. intros j Hj.
    rewrite Hout by lia. rewrite Hnth.
    destruct (in_window (current_pos_samples st) (duration_samples item) j) eqn:Hw;
      cbn [andb]; [| lra].
    apply in_window_iff in Hw. lia.
Qed.

(** A bound that holds for what any single event adds holds for the track
    after a run that completes, when the track was silent from the cursor
    on. *)
Lemma mix_loop_bounded (B : R) (events : list MelodyEvent) :
  (forall item chord i,
     In chord (chords mood) ->
     (Rabs (melody_sample instrument item i + harmony_sample chord item i) <= B)%R) ->
  forall st st',
    mix_loop mood instrument st events = Ok st' ->
    0 <= current_pos_samples st ->
    (forall j, (Z.to_nat (current_pos_samples st) <= j)%nat ->
       nth j (final_track_data st) 0%R = 0%R) ->
    (forall j, (Rabs (nth j (final_track_data st) 0) <= B)%R) ->
    forall j, (Rabs (nth j (final_track_data st') 0) <= B)%R.
Proof.
  intros HB. induction events as [| item rest IH];
    intros st st' H Hpos Hzero Hbound; cbn [mix_loop] in H.
  - injection H as <-. exact Hbound.
  - destruct (render_step mood instrument st item) as [st1 |] eqn:Hstep;
      cbn [bind] in H; [| discriminate].
    pose proof (render_step_forward _ _ _ Hstep Hpos) as Hn.
    destruct (render_step_frame _ _ _ _ _ Hstep) as (_ & Hpos1 & _).
    destruct (render_step_any _ _ _ _ _ Hstep Hpos) as (chord & Hchord & _ & Hnth).
    apply (IH _ _ H); [lia | |].
    + intros j Hj. rewrite Hnth, Hzero by lia.
      destruct (in_window (current_pos_samples st) (duration_samples item) j) eqn:Hw;
        cbn [andb]; [| lra].
      apply in_window_iff in Hw. lia.
    + intros j. rewrite Hnth.
      destruct (in_window (current_pos_samples st) (duration_samples item) j) eqn:Hw;
        cbn [andb].
      * destruct (j <? List.length (final_track_data st))%nat.
        -- apply in_window_iff in Hw. rewrite Hzero by lia. rewrite Rplus_0_l.
           apply HB. eapply nth_error_In. exact Hchord.
        -- rewrite Rplus_0_r. apply Hbound.
      * rewrite Rplus_0_r. apply Hbound.
Qed.

End MixSamples.

Lemma catalog_chord_sizes (mood_key : string) (mood : Mood) :
  dict_get MOODS mood_key = Some mood ->
  Forall (fun chord => (List.length chord <= 4)%nat) (chords mood).
Proof.
  intros H. destruct (catalog_cases _ _ H) as [-> | [-> | ->]];
    repeat constructor.
Qed.

Lemma melody_sample_bounded (instrument : string) (item : MelodyEvent) (i : nat) :
  (Rabs (melody_sample instrument item i) <= 45 / 100 * recipe_peak instrument)%R.
Proof.
  pose proof (recipe_peak_le instrument) as [Hp _].
  unfold melody_sample.
  destruct (note item =? REST)%string; [rewrite Rabs_R0; lra |].
  destruct (dict_get NOTES (note item)) as [freq |]; [| rewrite Rabs_R0; lra].
  rewrite Rabs_mult, (Rabs_right (45 / 100)) by lra.
  pose proof (waveform_sample_bounded freq (duration item) sample_rate instrument i).
  lra.
Qed.

Lemma harmony_sample_bounded (chord : list string) (item : MelodyEvent) (i : nat) :
  (Rabs (harmony_sample chord item i) <= INR (List.length chord) * (26 / 100))%R.
Proof.
  induction chord as [| note_name rest IH]; cbn [harmony_sample List.length].
  - cbn [INR]. rewrite Rabs_R0. lra.
  - rewrite S_INR.
    eapply Rle_trans; [apply Rabs_triang |].
    assert (Hone : (Rabs match dict_get NOTES note_name with
                         | Some freq =>
                             waveform_sample freq (duration item) sample_rate "organ" i
                             * (20 / 100)
                         | None => 0
                         end <= 26 / 100)%R).
    { destruct (dict_get NOTES note_name) as [freq |]; [| rewrite Rabs_R0; lra].
      rewrite Rabs_mult, (Rabs_right (20 / 100)) by lra.
      pose proof (waveform_sample_bounded freq (duration item) sample_rate "organ" i) as Hw.
      change (recipe_peak "organ") with (13 / 10)%R in Hw. lra. }
    lra.
Qed.

Lemma catalog_chords_sound (mood_key : string) (mood : Mood) :
  dict_get MOODS mood_key = Some mood ->
  Forall (fun chord => existsb in_NOTES chord = true) (chords mood).
Proof.
  intros H. destruct (catalog_cases _ _ H) as [-> | [-> | ->]];
    repeat (constructor; [reflexivity |]); constructor.
Qed.

Lemma voices_bounded (mood_key : string) (mood : Mood) (instrument : string) :
  dict_get MOODS mood_key = Some mood ->
  forall item chord i,
    In chord (chords mood) ->
    (Rabs (melody_sample instrument item i + harmony_sample chord item i)
     <= 45 / 100 * recipe_peak instrument + 4 * (26 / 100))%R.
Proof.
  intros Hmood item chord i Hin.
  pose proof (catalog_chord_sizes _ _ Hmood) as Hsizes.
  rewrite Forall_forall in Hsizes.
  eapply Rle_trans; [apply Rabs_triang |].
  pose proof (melody_sample_bounded instrument item i) as Hm.
  pose proof (harmony_sample_bounded chord item i) as Hh.
  assert (Hc : (INR (List.length chord) <= 4)%R).
  { replace 4%R with (INR 4) by (cbn; lra). apply le_INR. apply Hsizes. exact Hin. }
  nra.
Qed.

(** A run of the mixing loop on two events that completes: a 0.8 s melody
    note and a 0.4 s rest of the sad mood, on two seconds of silence. *)
Lemma two_event_run (instrument : string) :
  exists st_end,
    mix_loop sad instrument (initial_state (repeat 0%R (Z.to_nat 88200)))
             ([{| note := "C4"; duration := 4 # 5 |}] ++
              {| note := REST; duration := 2 # 5 |} :: []) = Ok st_end.
Proof.
  destruct (mix_loop_planned sad instrument ltac:(discriminate) ltac:(cbn; lia)
              ([{| note := "C4"; duration := 4 # 5 |}] ++
               {| note := REST; duration := 2 # 5 |} :: [])
              ltac:(repeat (constructor;
                            [split; [discriminate | cbn; auto] |]); constructor)
              (initial_state (repeat 0%R (Z.to_nat 88200))))
    as (st_end & Hrun & _).
  - cbn [initial_state current_pos_samples]. lia.
  - cbn. lia.
  - cbn [initial_state current_pos_samples final_track_data].
    rewrite repeat_length, Z2Nat.id by lia. vm_compute. discriminate.
  - exists st_end. exact Hrun.
Qed.

(** X7.  Each sample of the track is written by one event only.  For a
    catalog mood, whenever the mixing loop completes on a silent track of
    [n] samples: the cursor at an event is the sum of the sample counts of
    the events before it; at every position of the track inside the window
    of an event the track ends up holding exactly that event's melody sample
    plus its chord samples, for the chord that was current when the event
    was processed; and from the end of the last window on the track is
    still zero. *)
Theorem completed_mix_samples (mood_key : string) (mood : Mood)
    (instrument : string) (n : nat) (pre post : list MelodyEvent)
    (item : MelodyEvent) (st_end : MixState) :
  dict_get MOODS mood_key = Some mood ->
  mix_loop mood instrument (initial_state (repeat 0%R n)) (pre ++ item :: post)
    = Ok st_end ->
  exists st chord,
    mix_loop mood instrument (initial_state (repeat 0%R n)) pre = Ok st /\
    current_pos_samples st = samples_total pre /\
    nth_error (chords mood) (chord_index st) = Some chord /\
    (forall j,
       in_window (samples_total pre) (duration_samples item) j = true ->
       (j < n)%nat ->
       nth j (final_track_data st_end) 0%R =
       (melody_sample instrument item (j - Z.to_nat (samples_total pre)) +
        harmony_sample chord item (j - Z.to_nat (samples_total pre)))%R) /\
    (forall j, (Z.to_nat (samples_total (pre ++ item :: post)) <= j)%nat ->
       nth j (final_track_data st_end) 0%R = 0%R).
Proof.
  intros Hmood Hloop.
  pose proof (catalog_chords_sound _ _ Hmood) as Hsound.
  assert (Hsilent : forall j, nth j (repeat 0%R n) 0%R = 0%R).
  { intros j. apply nth_repeat. }
  pose proof Hloop as Hsplit.
  rewrite mix_loop_app in Hsplit.
  destruct (mix_loop mood instrument (initial_state (repeat 0%R n)) pre)
    as [st |] eqn:Hrun; cbn [bind] in Hsplit; [| discriminate].
  cbn [mix_loop] in Hsplit.
  destruct (render_step mood instrument st item) as [st1 |] eqn:Hstep;
    cbn [bind] in Hsplit; [| discriminate].
  destruct (mix_loop_keeps _ _ _ _ _ Hrun) as (Hlen & Hpos & _).
  cbn [initial_state current_pos_samples final_track_data] in Hlen, Hpos.
  rewrite repeat_length in Hlen. rewrite Z.add_0_l in Hpos.
  destruct (mix_loop_outside mood instrument Hsound pre _ _ Hrun) as [Hpre0 Hout_pre];
    [cbn; lia |].
  cbn [initial_state current_pos_samples final_track_data] in Hpre0, Hout_pre.
  pose proof (render_step_forward mood instrument Hsound _ _ _ Hstep ltac:(lia)) as Hn.
  destruct (render_step_frame _ _ _ _ _ Hstep) as (_ & Hpos1 & _).
  destruct (render_step_any _ _ _ _ _ Hstep ltac:(lia)) as (chord & Hchord & _ & Hnth).
  destruct (mix_loop_outside mood instrument Hsound post _ _ Hsplit) as [_ Hout_post];
    [lia |].
  exists st, chord. split; [reflexivity |]. split; [exact Hpos |].
  split; [exact Hchord |]. split.
  - intros j Hw Hj. pose proof Hw as Hw'. apply in_window_iff in Hw'.
    rewrite Hout_post by (left; rewrite Hpos1, Hpos; lia).
    rewrite Hnth, Hpos, Hw, Hlen.
    assert (E : (j <? n)%nat = true) by (apply Nat.ltb_lt; exact Hj).
    rewrite E. cbn [andb].
    rewrite Hout_pre by (right; lia). rewrite Hsilent. ring.
  - intros j Hj.
    destruct (mix_loop_keeps _ _ _ _ _ Hloop) as (_ & Hend & _).
    cbn [initial_state current_pos_samples] in Hend. rewrite Z.add_0_l in Hend.
    destruct (mix_loop_outside mood instrument Hsound _ _ _ Hloop) as [_ Hout];
      [cbn; lia |].
    rewrite Hout by (right; rewrite Hend; exact Hj).
    cbn [initial_state final_track_data]. apply Hsilent.
Qed.

Lemma completed_mix_samples_witness :
  exists st_end,
    mix_loop sad "piano" (initial_state (repeat 0%R (Z.to_nat 88200)))
             ([{| note := "C4"; duration := 4 # 5 |}] ++
              {| note := REST; duration := 2 # 5 |} :: []) = Ok st_end /\
    exists st chord,
      mix_loop sad "piano" (initial_state (repeat 0%R (Z.to_nat 88200)))
               [{| note := "C4"; duration := 4 # 5 |}] = Ok st /\
      current_pos_samples st = samples_total [{| note := "C4"; duration := 4 # 5 |}] /\
      nth_error (chords sad) (chord_index st) = Some chord /\
      (forall j,
         in_window (samples_total [{| note := "C4"; duration := 4 # 5 |}])
                   (duration_samples {| note := REST; duration := 2 # 5 |}) j = true ->
         (j < Z.to_nat 88200)%nat ->
         nth j (final_track_data st_end) 0%R =
         (melody_sample "piano" {| note := REST; duration := 2 # 5 |}
            (j - Z.to_nat (samples_total [{| note := "C4"; duration := 4 # 5 |}])) +
          harmony_sample chord {| note := REST; duration := 2 # 5 |}
            (j - Z.to_nat (samples_total [{| note := "C4"; duration := 4 # 5 |}])))%R) /\
      (forall j,
         (Z.to_nat (samples_total ([{| note := "C4"; duration := 4 # 5 |}] ++
                                   {| note := REST; duration := 2 # 5 |} :: []))
          <= j)%nat ->
         nth j (final_track_data st_end) 0%R = 0%R).
Proof.
  destruct (two_event_run "piano") as [st_end Hrun].
  exists st_end. split; [exact Hrun |].
  apply (completed_mix_samples "sad" sad "piano" (Z.to_nat 88200)
           [{| note := "C4"; duration := 4 # 5 |}] []
           {| note := REST; duration := 2 # 5 |} st_end); [reflexivity | exact Hrun].
Defined.

(** X8.  Before normalisation the mix is bounded.  For a catalog mood,
    whenever the mixing loop completes on a silent track, every sample of
    the track is at most 0.45 times the peak of the melody instrument plus
    four chord notes of 0.20 * 1.3 each in absolute value, hence at most
    1.625. *)
Theorem completed_mix_bounded (mood_key : string) (mood : Mood)
    (instrument : string) (n : nat) (events : list MelodyEvent)
    (st_end : MixState) :
  dict_get MOODS mood_key = Some mood ->
  mix_loop mood instrument (initial_state (repeat 0%R n)) events = Ok st_end ->
  (forall j,
     (Rabs (nth j (final_track_data st_end) 0)
      <= 45 / 100 * recipe_peak instrument + 4 * (26 / 100))%R) /\
  (45 / 100 * recipe_peak instrument + 4 * (26 / 100) <= 1625 / 1000)%R.
Proof.
  intros Hmood Hloop.
  pose proof (recipe_peak_le instrument) as [Hp0 Hp1].
  split; [| lra].
  assert (Hsilent : forall j, nth j (repeat 0%R n) 0%R = 0%R).
  { intros j. apply nth_repeat. }
  apply (mix_loop_bounded mood instrument (catalog_chords_sound _ _ Hmood)
           (45 / 100 * recipe_peak instrument + 4 * (26 / 100))%R events
           (voices_bounded _ _ instrument Hmood) _ _ Hloop).
  - cbn. lia.
  - intros j _. cbn [initial_state final_track_data]. apply Hsilent.
  - intros j. cbn [initial_state final_track_data]. rewrite Hsilent, Rabs_R0. lra.
Qed.

Lemma completed_mix_bounded_witness :
  exists st_end,
    mix_loop sad "organ" (initial_state (repeat 0%R (Z.to_nat 88200)))
             ([{| note := "C4"; duration := 4 # 5 |}] ++
              {| note := REST; duration := 2 # 5 |} :: []) = Ok st_end /\
    (forall j,
       (Rabs (nth j (final_track_data st_end) 0)
        <= 45 / 100 * recipe_peak "organ" + 4 * (26 / 100))%R) /\
    (45 / 100 * recipe_peak "organ" + 4 * (26 / 100) <= 1625 / 1000)%R.
Proof.
  destruct (two_event_run "organ") as [st_end Hrun].
  exists st_end. split; [exact Hrun |].
  apply (completed_mix_bounded "sad" sad "organ" (Z.to_nat 88200)
           ([{| note := "C4"; duration := 4 # 5 |}] ++
            {| note := REST; duration := 2 # 5 |} :: []) st_end);
    [reflexivity | exact Hrun].
Defined.

(** * More about the normalisation, and the 16-bit samples *)

Lemma normalize_cases (track out : list R) :
  normalize track = Ok out ->
  exists max_amp,
    np_max_abs track = Ok max_amp /\
    ((max_amp = 0%R /\ out = track /\ Forall (fun x => x = 0%R) track) \/
     (0 < max_amp /\ out = map (fun x => x / max_amp) track)%R).
Proof.
  unfold normalize. intros H.
  destruct (np_max_abs track) as [m |] eqn:Hmax; cbn [bind] in H; [| discriminate].
  exists m. split; [reflexivity |].
  pose proof Hmax as Hspec. apply np_max_abs_spec in Hspec.
  destruct Hspec as (Hub & y & Hy & Hatt).
  destruct (Rlt_dec 0 m) as [Hpos | Hzero]; injection H as <-.
  - right. split; [exact Hpos | reflexivity].
  - left. assert (Hm : m = 0%R).
    { pose proof (Rabs_pos y). lra. }
    split; [exact Hm |]. split; [reflexivity |].
    apply Forall_forall. intros x Hx. specialize (Hub x Hx).
    destruct (Req_dec x 0) as [E | E]; [exact E |].
    pose proof (Rabs_pos_lt x E). lra.
Qed.

Lemma normalize_nonempty (track : list R) :
  track <> [] -> exists out, normalize track = Ok out.
Proof.
  destruct track as [| x rest]; [congruence |]. intros _.
  unfold normalize. cbn [np_max_abs bind].
  destruct (Rlt_dec 0 _); eauto.
Qed.

Lemma map_all_zero (f : R -> R) (l : list R) :
  (f 0 = 0)%R -> Forall (fun x => x = 0%R) l -> map f l = l.
Proof.
  intros Hf. induction 1 as [| x l Hx Hl IH]; cbn; [reflexivity |].
  rewrite IH, Hx, Hf. reflexivity.
Qed.

(** A normalised track has every sample in [-1, 1], and a sample of
    absolute value 1 unless it is silent. *)
Lemma normalize_unit (track out : list R) :
  normalize track = Ok out ->
  List.length out = List.length track /\
  Forall (fun x => (-1 <= x <= 1)%R) out /\
  ((exists x, In x track /\ x <> 0%R) -> exists y, In y out /\ Rabs y = 1%R).
Proof.
  intros H. destruct (normalize_cases _ _ H) as (m & Hmax & Hcase).
  apply np_max_abs_spec in Hmax. destruct Hmax as (Hub & y & Hy & Hatt).
  destruct Hcase as [(Hm & -> & Hzero) | (Hpos & ->)].
  - split; [reflexivity |]. split.
    + eapply Forall_impl; [| exact Hzero]. intros x ->. lra.
    + intros (x & Hx & Hne). rewrite Forall_forall in Hzero.
      exfalso. apply Hne. apply Hzero. exact Hx.
  - split; [apply length_map |]. split.
    + apply Forall_forall. intros z Hz. apply in_map_iff in Hz.
      destruct Hz as (x & <- & Hx). specialize (Hub x Hx).
      assert (Hq : (Rabs (x / m) <= 1)%R).
      { unfold Rdiv. rewrite Rabs_mult, (Rabs_right (/ m)).
        - apply Rmult_le_reg_r with m; [exact Hpos |].
          rewrite Rmult_assoc, Rinv_l by lra. lra.
        - left. apply Rinv_0_lt_compat. exact Hpos. }
      pose proof (Rle_abs (x / m)) as Hup.
      pose proof (Rle_abs (- (x / m))) as Hdown. rewrite Rabs_Ropp in Hdown. lra.
    + intros _. exists (y / m)%R. split; [apply in_map_iff; eauto |].
      unfold Rdiv. rewrite Rabs_mult, (Rabs_right (/ m)).
      * rewrite <- Hatt. field. lra.
      * left. apply Rinv_0_lt_compat. exact Hpos.
Qed.

(** X9.  Normalising twice is normalising once: a track that [normalize]
    returns is returned unchanged by [normalize]. *)
Theorem normalize_idempotent (track : list R) :
  track <> [] ->
  exists out, normalize track = Ok out /\ normalize out = Ok out.
Proof.
  intros Hne. destruct (normalize_nonempty track Hne) as [out H].
  exists out. split; [exact H |].
  destruct (normalize_cases _ _ H) as (m & Hmax & Hcase).
  destruct Hcase as [(Hm & -> & Hzero) | (Hpos & Hout)]; [exact H |].
  destruct (normalize_unit _ _ H) as (Hlen & Hunit & Hpeak).
  pose proof Hmax as Hspec. apply np_max_abs_spec in Hspec.
  destruct Hspec as (Hub & y & Hy & Hatt).
  assert (Hy0 : y <> 0%R).
  { intros E. rewrite E, Rabs_R0 in Hatt. lra. }
  destruct (Hpeak (ex_intro _ y (conj Hy Hy0))) as (z & Hz & Hz1).
  assert (Hone : np_max_abs out = Ok 1%R).
  { apply np_max_abs_spec. split.
    - intros x Hx. rewrite Forall_forall in Hunit. apply Rabs_le. apply Hunit. exact Hx.
    - exists z. split; [exact Hz | symmetry; exact Hz1]. }
  unfold normalize. rewrite Hone. cbn [bind].
  destruct (Rlt_dec 0 1) as [_ | Hn]; [| lra].
  f_equal. rewrite <- (map_id out) at 2. apply map_ext. intros x. field.
Qed.

Lemma normalize_idempotent_witness :
  exists out, normalize [1; -2]%R = Ok out /\ normalize out = Ok out.
Proof.
  apply (normalize_idempotent [1; -2]%R). discriminate.
Defined.

(** X10.  The overall level of the mix does not matter: a track and the
    same track with every sample multiplied by a gain [k > 0] normalise to
    the same result. *)
Theorem normalize_gain_invariant (k : R) (track : list R) :
  (0 < k)%R ->
  normalize (map (fun x => k * x)%R track) = normalize track.
Proof.
  intros Hk. destruct track as [| x0 rest]; [reflexivity |].
  set (track := x0 :: rest).
  destruct (np_max_abs track) as [m | e] eqn:Hmax; [| discriminate].
  pose proof Hmax as Hspec. apply np_max_abs_spec in Hspec.
  destruct Hspec as (Hub & y & Hy & Hatt).
  assert (Hscaled : np_max_abs (map (fun x => k * x)%R track) = Ok (k * m)%R).
  { apply np_max_abs_spec. split.
    - intros z Hz. apply in_map_iff in Hz. destruct Hz as (x & <- & Hx).
      rewrite Rabs_mult, (Rabs_right k) by lra. specialize (Hub x Hx). nra.
    - exists (k * y)%R. split; [apply in_map_iff; eauto |].
      rewrite Rabs_mult, (Rabs_right k) by lra. rewrite Hatt. reflexivity. }
  unfold normalize. rewrite Hscaled, Hmax. cbn [bind].
  assert (Hm : (0 <= m)%R) by (rewrite Hatt; apply Rabs_pos).
  destruct (Rlt_dec 0 m) as [Hpos | Hzero].
  - destruct (Rlt_dec 0 (k * m)) as [_ | Hn]; [| nra].
    f_equal. rewrite map_map. apply map_ext. intros x. field. lra.
  - destruct (Rlt_dec 0 (k * m)) as [Hn | _]; [nra |].
    f_equal. apply map_all_zero; [ring |].
    apply Forall_forall. intros x Hx. specialize (Hub x Hx).
    destruct (Req_dec x 0) as [E | E]; [exact E |].
    pose proof (Rabs_pos_lt x E). lra.
Qed.

Lemma normalize_gain_invariant_witness :
  normalize (map (fun x => 2 * x)%R [1; -3]%R) = normalize [1; -3]%R.
Proof.
  apply (normalize_gain_invariant 2 [1; -3]%R). lra.
Defined.

Lemma trunc_R_bounds (y : R) (b : Z) :
  0 <= b -> (- IZR b <= y <= IZR b)%R -> - b <= trunc_R y <= b.
Proof.
  intros Hb [Hlo Hhi]. unfold trunc_R.
  destruct (Rle_dec 0 y) as [Hy | Hy].
  - pose proof (base_Int_part y) as [H1 H2].
    assert (Hle : Int_part y <= b) by (apply le_IZR; lra).
    assert (Hge : -1 < Int_part y) by (apply lt_IZR; lra).
    lia.
  - pose proof (base_Int_part (- y)) as [H1 H2].
    assert (Hle : Int_part (- y) <= b) by (apply le_IZR; lra).
    assert (Hge : -1 < Int_part (- y)) by (apply lt_IZR; lra).
    lia.
Qed.

Lemma trunc_R_IZR (z : Z) : trunc_R (IZR z) = z.
Proof.
  unfold trunc_R. destruct (Rle_dec 0 (IZR z)) as [Hz | Hz].
  - symmetry. apply Int_part_spec. lra.
  - rewrite <- opp_IZR. rewrite <- (Int_part_spec (IZR (- z)) (- z)) by lra. lia.
Qed.

Lemma wrap_int16_small (z : Z) : -32768 <= z <= 32767 -> wrap_int16 z = z.
Proof. intros H. unfold wrap_int16. rewrite Z.mod_small by lia. lia. Qed.

(** The 16-bit samples of a track whose samples lie in [-1, 1]. *)
Lemma scaled_data_unit (out : list R) :
  Forall (fun x => (-1 <= x <= 1)%R) out ->
  scaled_data out = map (fun x => trunc_R (x * 32767)) out /\
  Forall (fun z => -32767 <= z <= 32767) (scaled_data out).
Proof.
  intros Hunit. unfold scaled_data, astype_int16. rewrite map_map.
  assert (Hb : forall x, In x out -> -32767 <= trunc_R (x * 32767) <= 32767).
  { intros x Hx. rewrite Forall_forall in Hunit. specialize (Hunit x Hx).
    apply (trunc_R_bounds (x * 32767) 32767); [lia | lra]. }
  assert (Heq : map (fun x => wrap_int16 (trunc_R (x * 32767))) out
                = map (fun x => trunc_R (x * 32767)) out).
  { apply map_ext_in. intros x Hx. apply wrap_int16_small. specialize (Hb x Hx). lia. }
  split; [exact Heq |]. rewrite Heq.
  apply Forall_forall. intros z Hz. apply in_map_iff in Hz.
  destruct Hz as (x & <- & Hx). apply Hb. exact Hx.
Qed.

(** X11.  The 16-bit samples of a normalised track.  For a track that is
    not empty, [normalize] returns and the conversion gives one integer per
    sample, each the truncation of [32767 x] with no wrap-around and within
    -32767 .. 32767; unless the track is silent, full scale is reached: one
    of the integers is 32767 or -32767. *)
Theorem scaled_data_range (track : list R) :
  track <> [] ->
  exists out,
    normalize track = Ok out /\
    List.length (scaled_data out) = List.length track /\
    scaled_data out = map (fun x => trunc_R (x * 32767)) out /\
    Forall (fun z => -32767 <= z <= 32767) (scaled_data out) /\
    ((exists x, In x track /\ x <> 0%R) ->
     In 32767 (scaled_data out) \/ In (-32767) (scaled_data out)).
Proof.
  intros Hne. destruct (normalize_nonempty track Hne) as [out H].
  exists out. split; [exact H |].
  destruct (normalize_unit _ _ H) as (Hlen & Hunit & Hpeak).
  destruct (scaled_data_unit out Hunit) as [Heq Hrange].
  split.
  { unfold scaled_data, astype_int16. rewrite !length_map. exact Hlen. }
  split; [exact Heq |]. split; [exact Hrange |].
  intros Hloud. destruct (Hpeak Hloud) as (y & Hy & Hy1).
  rewrite Heq.
  destruct (Rcase_abs y) as [Hneg | Hpos].
  - right. apply in_map_iff. exists y. split; [| exact Hy].
    rewrite Rabs_left in Hy1 by exact Hneg.
    replace (y * 32767)%R with (IZR (-32767)) by lra. apply trunc_R_IZR.
  - left. apply in_map_iff. exists y. split; [| exact Hy].
    rewrite Rabs_right in Hy1 by exact Hpos.
    replace (y * 32767)%R with (IZR 32767) by lra. apply trunc_R_IZR.
Qed.

Lemma scaled_data_range_witness :
  exists out,
    normalize [1; -2]%R = Ok out /\
    List.length (scaled_data out) = List.length [1; -2]%R /\
    scaled_data out = map (fun x => trunc_R (x * 32767)) out /\
    Forall (fun z => -32767 <= z <= 32767) (scaled_data out) /\
    ((exists x, In x [1; -2]%R /\ x <> 0%R) ->
     In 32767 (scaled_data out) \/ In (-32767) (scaled_data out)).
Proof.
  apply (scaled_data_range [1; -2]%R). discriminate.
Defined.

(** * [generate_music] and the script: every outcome *)

Lemma py_int_inject_Z (z : Z) : py_int (inject_Z z) = z.
Proof. unfold py_int, inject_Z. cbn. apply Z.quot_1_r. Qed.

Lemma py_int_nonpos_le (x : Q) : (x <= 0)%Q -> py_int x <= 0.
Proof.
  intros H. rewrite py_int_neg by exact H.
  rewrite <- (Qceiling_Z 0). apply Qceiling_resp_le. exact H.
Qed.

Lemma MOODS_item_ok (mood_key : string) (mood : Mood) :
  dict_get MOODS mood_key = Some mood -> MOODS_item mood_key = Ok mood.
Proof. unfold MOODS_item. intros ->. reflexivity. Qed.

(** With a total duration that is not positive nothing is planned, and the
    track has no sample for [np.max] to look at, or a negative length. *)
Lemma generate_music_nonpositive (mood_key : string) (mood : Mood) (rnd : nat -> nat)
    (d : Q) (instrument : string) (fuel : nat) :
  dict_get MOODS mood_key = Some mood ->
  (d <= 0)%Q ->
  (1 <= fuel)%nat ->
  generate_music fuel rnd mood_key instrument d = Some (Raise ValueError).
Proof.
  intros Hmood Hd Hfuel. pose proof (catalog_bpm_pos _ _ Hmood) as Hbpm.
  unfold generate_music. rewrite (MOODS_item_ok _ _ Hmood).
  destruct (bpm mood =? 0) eqn:E; [apply Z.eqb_eq in E; lia |].
  destruct fuel as [| fuel]; [lia |].
  unfold melody_sequence_of. cbn [planning_loop].
  destruct (Qltb 0 d) eqn:Hc; [apply Qltb_lt in Hc; lra |].
  f_equal.
  assert (HN : py_int (sample_rate * d) <= 0).
  { apply py_int_nonpos_le.
    assert (Hsr : (0 < sample_rate)%Q) by reflexivity. nra. }
  unfold np_zeros. destruct (py_int (sample_rate * d) <? 0) eqn:E'; [reflexivity |].
  apply Z.ltb_ge in E'.
  replace (py_int (sample_rate * d)) with 0 by lia. reflexivity.
Qed.

(** The errors of the loop body: numpy's [ValueError] only, when the melody
    note is a rest or a key of [NOTES], the chord index is inside the chord
    list and a bar has samples. *)
Lemma create_waveform_error (freq dur rate : Q) (instrument : string) (e : py_error) :
  create_waveform freq dur rate instrument = Raise e -> e = ValueError.
Proof.
  intros H.
  destruct (Z.lt_ge_cases (py_int (rate * dur)) 0) as [Hneg | Hpos].
  - rewrite create_waveform_raises in H by exact Hneg. congruence.
  - destruct (create_waveform_ok freq dur rate instrument Hpos) as (buf & Hbuf & _).
    congruence.
Qed.

Lemma slice_add_error (a : list R) (start stop : Z) (wave : list R) (e : py_error) :
  slice_add a start stop wave = Raise e -> e = ValueError.
Proof.
  unfold slice_add. intros H.
  destruct (_ =? _)%nat; [discriminate |].
  destruct (_ =? _)%nat; [discriminate |]. congruence.
Qed.

Lemma add_melody_error (instrument : string) (item : MelodyEvent) (pos : Z)
    (track : list R) (e : py_error) :
  note item = REST \/ in_NOTES (note item) = true ->
  add_melody instrument item pos track = Raise e -> e = ValueError.
Proof.
  unfold add_melody. intros Hnote H.
  destruct (note item =? REST)%string eqn:Hrest; cbn [negb] in H; [discriminate |].
  destruct Hnote as [Hr | Hin]; [apply String.eqb_eq in Hr; congruence |].
  unfold in_NOTES in Hin. unfold NOTES_item in H.
  destruct (dict_get NOTES (note item)) as [freq |]; [| discriminate].
  cbn [bind] in H.
  destruct (create_waveform freq (duration item) sample_rate instrument)
    as [wave | e'] eqn:Hwave; cbn [bind] in H.
  - eapply slice_add_error. exact H.
  - apply create_waveform_error in Hwave. congruence.
Qed.

Lemma add_harmony_error (notes : list string) (item : MelodyEvent) (pos : Z)
    (e : py_error) :
  forall track, add_harmony notes item pos track = Raise e -> e = ValueError.
Proof.
  induction notes as [| note_name rest IH]; intros track H; cbn [add_harmony] in H;
    [discriminate |].
  unfold in_NOTES, NOTES_item in H.
  destruct (dict_get NOTES note_name) as [freq |]; [| eapply IH; exact H].
  cbn [bind] in H.
  destruct (create_waveform freq (duration item) sample_rate "organ")
    as [wave | e'] eqn:Hwave; cbn [bind] in H.
  - destruct (slice_add track pos (pos + duration_samples item) _)
      as [track1 | e'] eqn:Hadd; cbn [bind] in H.
    + eapply IH. exact H.
    + apply slice_add_error in Hadd. congruence.
  - apply create_waveform_error in Hwave. congruence.
Qed.

Lemma render_step_error (mood : Mood) (instrument : string) (st : MixState)
    (item : MelodyEvent) (e : py_error) :
  bar_samples mood <> 0 ->
  (chord_index st < List.length (chords mood))%nat ->
  note item = REST \/ in_NOTES (note item) = true ->
  render_step mood instrument st item = Raise e -> e = ValueError.
Proof.
  intros Hbar Hci Hnote H. unfold render_step in H.
  destruct (add_melody _ _ _ _) as [track1 | e1] eqn:E1; cbn [bind] in H.
  2: { apply add_melody_error in E1; [congruence | exact Hnote]. }
  destruct (nth_error _ _) as [chord |] eqn:E2; cbn [bind] in H.
  2: { apply nth_error_None in E2. lia. }
  destruct (add_harmony _ _ _ _) as [track2 | e3] eqn:E3; cbn [bind] in H.
  2: { apply add_harmony_error in E3. congruence. }
  unfold advance_indices in H.
  destruct (bar_samples mood =? 0) eqn:E4; [apply Z.eqb_eq in E4; contradiction |].
  destruct (_ <? _); discriminate.
Qed.

Lemma mix_loop_error (mood : Mood) (instrument : string)
    (events : list MelodyEvent) (e : py_error) :
  bar_samples mood <> 0 ->
  Forall (fun item => note item = REST \/ in_NOTES (note item) = true) events ->
  forall st,
    (chord_index st < List.length (chords mood))%nat ->
    mix_loop mood instrument st events = Raise e -> e = ValueError.
Proof.
  intros Hbar Hall. induction Hall as [| item rest Hitem Hrest IH];
    intros st Hci H; cbn [mix_loop] in H; [discriminate |].
  destruct (render_step mood instrument st item) as [st1 | e1] eqn:Hstep;
    cbn [bind] in H.
  - destruct (render_step_frame _ _ _ _ _ Hstep) as (_ & _ & _ & Hci1).
    eapply IH; [exact Hci1 | exact H].
  - apply render_step_error in Hstep; auto. congruence.
Qed.

(** The melody once planned, for a catalog mood: the rest of
    [generate_music] raises [ValueError] or returns a track of
    [int(44100 * d)] samples, each in [-1, 1]. *)
Lemma render_track_outcome (mood_key : string) (mood : Mood) (instrument : string)
    (d : Q) (melody_sequence : list MelodyEvent) :
  dict_get MOODS mood_key = Some mood ->
  Forall (fun item => note item = REST \/ in_NOTES (note item) = true)
         melody_sequence ->
  render_track mood instrument d melody_sequence = Raise ValueError \/
  exists out,
    render_track mood instrument d melody_sequence = Ok out /\
    0 < py_int (sample_rate * d) /\
    Z.of_nat (List.length out) = py_int (sample_rate * d) /\
    Forall (fun x => (-1 <= x <= 1)%R) out.
Proof.
  intros Hmood Hall.
  destruct (catalog_bar _ _ Hmood) as (Hn & Hbar & Hchords & _).
  unfold render_track, np_zeros.
  set (N := py_int (sample_rate * d)).
  destruct (N <? 0) eqn:HN; [left; reflexivity |].
  apply Z.ltb_ge in HN. cbn [bind].
  destruct (mix_loop mood instrument (initial_state (repeat 0%R (Z.to_nat N)))
                     melody_sequence) as [st | e] eqn:Hloop; cbn [bind].
  2: { left. apply mix_loop_error in Hloop; [congruence | lia | exact Hall |].
       cbn [initial_state chord_index]. exact Hchords. }
  destruct (mix_loop_keeps _ _ _ _ _ Hloop) as (Hlen & _).
  cbn [initial_state final_track_data] in Hlen. rewrite repeat_length in Hlen.
  destruct (final_track_data st) as [| x rest] eqn:Htrack.
  - left. reflexivity.
  - right. destruct (normalize_nonempty (x :: rest)) as [out Hout]; [discriminate |].
    destruct (normalize_unit _ _ Hout) as (Hlen' & Hunit & _).
    exists out. split; [exact Hout |].
    cbn [List.length] in Hlen, Hlen'.
    split; [lia |]. split; [rewrite Hlen'; cbn [List.length]; lia | exact Hunit].
Qed.

(** X12.  Every outcome of [generate_music].  An unknown mood raises
    [KeyError] before anything is planned.  For a catalog mood: a total
    duration that is not positive raises [ValueError]; whatever melody of
    rests and notes of the note table is mixed, the part after the planning
    raises [ValueError] or returns a track of [int(44100 * d)] samples with
    [int(44100 * d) > 0], each sample in [-1, 1]; and the planning loop
    returns such a melody, whatever the draws and the instrument, so that the
    call ends in one of these two ways and never in another error. *)
Theorem generate_music_outcome (fuel : nat) (rnd : nat -> nat)
    (mood_key instrument : string) (d : Q) :
  match dict_get MOODS mood_key with
  | None => generate_music fuel rnd mood_key instrument d = Some (Raise KeyError)
  | Some mood =>
      ((d <= 0)%Q -> (1 <= fuel)%nat ->
       generate_music fuel rnd mood_key instrument d = Some (Raise ValueError)) /\
      (forall melody_sequence,
         Forall (fun item => note item = REST \/ in_NOTES (note item) = true)
                melody_sequence ->
         render_track mood instrument d melody_sequence = Raise ValueError \/
         exists out,
           render_track mood instrument d melody_sequence = Ok out /\
           0 < py_int (sample_rate * d) /\
           Z.of_nat (List.length out) = py_int (sample_rate * d) /\
           Forall (fun x => (-1 <= x <= 1)%R) out) /\
      ((plan_fuel mood d <= fuel)%nat ->
       exists melody_sequence,
         melody_sequence_of mood rnd d fuel = Some melody_sequence /\
         Forall (fun item => note item = REST \/ in_NOTES (note item) = true)
                melody_sequence /\
         generate_music fuel rnd mood_key instrument d
           = Some (render_track mood instrument d melody_sequence))
  end.
Proof.
  destruct (dict_get MOODS mood_key) as [mood |] eqn:Hmood.
  2: { unfold generate_music, MOODS_item. rewrite Hmood. reflexivity. }
  split; [| split].
  - intros Hd Hfuel. apply (generate_music_nonpositive _ mood); auto.
  - intros melody_sequence Hall.
    apply (render_track_outcome mood_key); assumption.
  - intros Hfuel. pose proof (catalog_bpm_pos _ _ Hmood) as Hbpm.
    destruct (planner_returns mood rnd d Hbpm) as (ms & Hret & Hall & _).
    exists ms. split; [apply Hret; exact Hfuel |]. split.
    + pose proof (planned_events_playable _ _ _ Hmood Hall) as Hplay.
      eapply Forall_impl; [| exact Hplay]. intros item [_ Hnote]. exact Hnote.
    + unfold generate_music. rewrite (MOODS_item_ok _ _ Hmood).
      destruct (bpm mood =? 0) eqn:E; [apply Z.eqb_eq in E; lia |].
      rewrite (Hret _ Hfuel). reflexivity.
Qed.

Lemma generate_music_outcome_witness :
  ((28 # 5 <= 0)%Q -> (1 <= plan_fuel sad (28 # 5))%nat ->
   generate_music (plan_fuel sad (28 # 5)) (fun _ => 0%nat) "sad" "piano" (28 # 5)
     = Some (Raise ValueError)) /\
  (forall melody_sequence,
     Forall (fun item => note item = REST \/ in_NOTES (note item) = true)
            melody_sequence ->
     render_track sad "piano" (28 # 5) melody_sequence = Raise ValueError \/
     exists out,
       render_track sad "piano" (28 # 5) melody_sequence = Ok out /\
       0 < py_int (sample_rate * (28 # 5)) /\
       Z.of_nat (List.length out) = py_int (sample_rate * (28 # 5)) /\
       Forall (fun x => (-1 <= x <= 1)%R) out) /\
  ((plan_fuel sad (28 # 5) <= plan_fuel sad (28 # 5))%nat ->
   exists melody_sequence,
     melody_sequence_of sad (fun _ => 0%nat) (28 # 5) (plan_fuel sad (28 # 5))
       = Some melody_sequence /\
     Forall (fun item => note item = REST \/ in_NOTES (note item) = true)
            melody_sequence /\
     generate_music (plan_fuel sad (28 # 5)) (fun _ => 0%nat) "sad" "piano" (28 # 5)
       = Some (render_track sad "piano" (28 # 5) melody_sequence)).
Proof.
  apply (generate_music_outcome (plan_fuel sad (28 # 5)) (fun _ => 0%nat)
           "sad" "piano" (28 # 5)).
Defined.

(** Indexing a list of three with [choice - 1]: the choices 1, 2, 3 and,
    counting from the end, 0, -1, -2. *)
Lemma py_list_item_three {A : Type} (a b c : A) (choice : Z) :
  (-2 <= choice <= 3 /\
   py_list_item [a; b; c] (choice - 1)
   = Ok (nth (Z.to_nat ((choice - 1) mod 3)) [a; b; c] a)) \/
  (~ (-2 <= choice <= 3) /\ py_list_item [a; b; c] (choice - 1) = Raise IndexError).
Proof.
  destruct (Z_le_dec (-2) choice) as [Hlo | Hlo];
    [destruct (Z_le_dec choice 3) as [Hhi | Hhi] |].
  - left. split; [lia |].
    assert (Hc : choice = -2 \/ choice = -1 \/ choice = 0 \/
                 choice = 1 \/ choice = 2 \/ choice = 3) by lia.
    destruct Hc as [-> | [-> | [-> | [-> | [-> | ->]]]]]; reflexivity.
  - right. split; [lia |]. unfold py_list_item.
    change (Z.of_nat (List.length [a; b; c])) with 3.
    destruct (choice - 1 <? 0) eqn:E; [apply Z.ltb_lt in E; lia |].
    rewrite E. cbn [orb].
    destruct (3 <=? choice - 1) eqn:E2; [reflexivity |].
    apply Z.leb_gt in E2. lia.
  - right. split; [lia |]. unfold py_list_item.
    change (Z.of_nat (List.length [a; b; c])) with 3.
    destruct (choice - 1 <? 0) eqn:E; [| apply Z.ltb_ge in E; lia].
    destruct (choice - 1 + 3 <? 0) eqn:E1; [reflexivity |].
    apply Z.ltb_ge in E1. lia.
Qed.

Lemma mood_options_in_catalog (mood_key : string) :
  In mood_key mood_options -> exists mood, dict_get MOODS mood_key = Some mood.
Proof.
  intros [<- | [<- | [<- | []]]]; eexists; reflexivity.
Qed.

Lemma sample_count_of_int (d : Z) : py_int (sample_rate * inject_Z d) = 44100 * d.
Proof.
  rewrite (py_int_comp _ (inject_Z (44100 * d))).
  - apply py_int_inject_Z.
  - rewrite inject_Z_mult. reflexivity.
Qed.

(** What [generate_music] hands to [write] for a catalog mood and a whole
    number of seconds. *)
Lemma generate_music_file_outcome (fuel : nat) (rnd : nat -> nat)
    (mood_key instrument : string) (mood : Mood) (d timestamp : Z) :
  dict_get MOODS mood_key = Some mood ->
  (plan_fuel mood (inject_Z d) <= fuel)%nat ->
  (d <= 0 /\
   generate_music_file fuel rnd mood_key instrument (inject_Z d) timestamp
   = Some (Raise ValueError)) \/
  (1 <= d /\
   exists data,
     generate_music_file fuel rnd mood_key instrument (inject_Z d) timestamp
     = Some (Ok (track_filename mood_key instrument timestamp, 44100, data)) /\
     Z.of_nat (List.length data) = 44100 * d /\
     Forall (fun z => -32767 <= z <= 32767) data).
Proof.
  intros Hmood Hfuel. unfold generate_music_file.
  destruct (Z_le_dec d 0) as [Hd | Hd].
  - left. split; [exact Hd |].
    rewrite (generate_music_nonpositive _ mood); auto.
    + change 0%Q with (inject_Z 0). rewrite <- Zle_Qle. exact Hd.
    + unfold plan_fuel in Hfuel. lia.
  - right. split; [lia |].
    assert (Hdq : (0 < inject_Z d)%Q).
    { change 0%Q with (inject_Z 0). rewrite <- Zlt_Qlt. lia. }
    destruct (generate_music_mixes _ _ rnd (inject_Z d) instrument fuel Hmood Hdq Hfuel)
      as (st_end & Hlen & Hgen).
    rewrite sample_count_of_int in Hlen.
    destruct (normalize_nonempty (final_track_data st_end)) as [out Hout].
    { intros E. rewrite E in Hlen. cbn [List.length] in Hlen. lia. }
    destruct (normalize_unit _ _ Hout) as (Hlen' & Hunit & _).
    destruct (scaled_data_unit out Hunit) as [_ Hrange].
    exists (scaled_data out). rewrite Hgen, Hout. cbn [bind].
    split; [reflexivity |]. split; [| exact Hrange].
    unfold scaled_data, astype_int16. rewrite !length_map, Hlen'. exact Hlen.
Qed.

Section Script.

Variable fuel : nat.
Variable rnd : nat -> nat.
Variable timestamp : Z.
Variables inst_choice_num mood_choice_num duration : Z.
Variable more : list (option Z).

Hypothesis enough_fuel :
  forall mood_key mood,
    dict_get MOODS mood_key = Some mood ->
    (plan_fuel mood (inject_Z duration) <= fuel)%nat.

Let stdin : list (option Z) :=
  Some inst_choice_num :: Some mood_choice_num :: Some duration :: more.

Lemma script_saves_parsed :
  -2 <= inst_choice_num <= 3 ->
  -2 <= mood_choice_num <= 3 ->
  1 <= duration ->
  exists data,
    script fuel rnd timestamp stdin
    = Some (Saved (track_filename
                     (nth (Z.to_nat ((mood_choice_num - 1) mod 3)) mood_options "happy"%string)
                     (nth (Z.to_nat ((inst_choice_num - 1) mod 3)) instrument_options
                          "piano"%string)
                     timestamp)
                  44100 data) /\
    Z.of_nat (List.length data) = 44100 * duration /\
    Forall (fun z => -32767 <= z <= 32767) data.
Proof.
  intros Hi Hm Hd.
  destruct (py_list_item_three "piano"%string "organ"%string "retro_synth"%string
              inst_choice_num) as [[_ Hinst] | [Hn _]]; [| lia].
  destruct (py_list_item_three "happy"%string "sad"%string "dreamy"%string
              mood_choice_num) as [[_ Hmood] | [Hn _]]; [| lia].
  set (chosen_instrument :=
         nth (Z.to_nat ((inst_choice_num - 1) mod 3)) instrument_options "piano"%string).
  set (chosen_mood :=
         nth (Z.to_nat ((mood_choice_num - 1) mod 3)) mood_options "happy"%string).
  assert (Hin : In chosen_mood mood_options).
  { pose proof (Z.mod_pos_bound (mood_choice_num - 1) 3 ltac:(lia)) as Hb.
    apply (nth_In mood_options).
    change (List.length mood_options) with 3%nat. lia. }
  destruct (mood_options_in_catalog _ Hin) as [mood Hcat].
  destruct (generate_music_file_outcome fuel rnd chosen_mood chosen_instrument mood
              duration timestamp Hcat (enough_fuel _ _ Hcat))
    as [[Hn _] | (_ & data & Hfile & Hlen & Hrange)]; [lia |].
  exists data. split; [| split; [exact Hlen | exact Hrange]].
  unfold script, script_body, stdin. cbn [input_int].
  change (py_list_item instrument_options (inst_choice_num - 1))
    with (py_list_item ["piano"; "organ"; "retro_synth"]%string (inst_choice_num - 1)).
  rewrite Hinst. cbn [lift_result].
  change (py_list_item mood_options (mood_choice_num - 1))
    with (py_list_item ["happy"; "sad"; "dreamy"]%string (mood_choice_num - 1)).
  rewrite Hmood. cbn [lift_result].
  fold chosen_instrument. 
  change (nth (Z.to_nat ((mood_choice_num - 1) mod 3)) ["happy"; "sad"; "dreamy"]%string
              "happy"%string) with chosen_mood.
  change (nth (Z.to_nat ((inst_choice_num - 1) mod 3))
              ["piano"; "organ"; "retro_synth"]%string "piano"%string)
    with chosen_instrument.
  rewrite Hfile. reflexivity.
Qed.

Lemma script_rejects_parsed :
  ~ (-2 <= inst_choice_num <= 3 /\ -2 <= mood_choice_num <= 3 /\ 1 <= duration) ->
  script fuel rnd timestamp stdin = Some InvalidChoice.
Proof.
  intros Hbad. unfold script, script_body, stdin. cbn [input_int].
  destruct (py_list_item_three "piano"%string "organ"%string "retro_synth"%string
              inst_choice_num) as [[Hi Hinst] | [_ Hinst]];
    change (py_list_item instrument_options (inst_choice_num - 1))
      with (py_list_item ["piano"; "organ"; "retro_synth"]%string (inst_choice_num - 1));
    rewrite Hinst; cbn [lift_result]; [| reflexivity].
  destruct (py_list_item_three "happy"%string "sad"%string "dreamy"%string
              mood_choice_num) as [[Hm Hmood] | [_ Hmood]];
    change (py_list_item mood_options (mood_choice_num - 1))
      with (py_list_item ["happy"; "sad"; "dreamy"]%string (mood_choice_num - 1));
    rewrite Hmood; cbn [lift_result]; [| reflexivity].
  set (chosen_mood :=
         nth (Z.to_nat ((mood_choice_num - 1) mod 3)) ["happy"; "sad"; "dreamy"]%string
             "happy"%string).
  assert (Hin : In chosen_mood mood_options).
  { pose proof (Z.mod_pos_bound (mood_choice_num - 1) 3 ltac:(lia)) as Hb.
    apply (nth_In ["happy"; "sad"; "dreamy"]%string).
    change (List.length ["happy"; "sad"; "dreamy"]%string) with 3%nat. lia. }
  destruct (mood_options_in_catalog _ Hin) as [mood Hcat].
  destruct (generate_music_file_outcome fuel rnd chosen_mood
              (nth (Z.to_nat ((inst_choice_num - 1) mod 3))
                   ["piano"; "organ"; "retro_synth"]%string "piano"%string)
              mood duration timestamp Hcat (enough_fuel _ _ Hcat))
    as [[_ Hfile] | (Hd & _)]; [| lia].
  rewrite Hfile. reflexivity.
Qed.

End Script.

(** X13.  A run of the script that saves a track.  With three integers
    typed, an instrument choice and a mood choice between -2 and 3 and a
    duration of at least one second, the script saves: the choices 1, 2, 3
    pick the options in order, and 0, -1, -2 pick the third, second and
    first, a Python index counting from the end; the file is named after
    the chosen mood, the chosen instrument and the time; the data are
    [44100 * duration] 16-bit samples, all within -32767 .. 32767. *)
Theorem script_saves (fuel : nat) (rnd : nat -> nat) (timestamp : Z)
    (inst_choice_num mood_choice_num duration : Z) (more : list (option Z)) :
  (forall mood_key mood,
     dict_get MOODS mood_key = Some mood ->
     (plan_fuel mood (inject_Z duration) <= fuel)%nat) ->
  -2 <= inst_choice_num <= 3 ->
  -2 <= mood_choice_num <= 3 ->
  1 <= duration ->
  exists data,
    script fuel rnd timestamp
           (Some inst_choice_num :: Some mood_choice_num :: Some duration :: more)
    = Some (Saved (track_filename
                     (nth (Z.to_nat ((mood_choice_num - 1) mod 3)) mood_options "happy"%string)
                     (nth (Z.to_nat ((inst_choice_num - 1) mod 3)) instrument_options
                          "piano"%string)
                     timestamp)
                  44100 data) /\
    Z.of_nat (List.length data) = 44100 * duration /\
    Forall (fun z => -32767 <= z <= 32767) data.
Proof.
  intros Hfuel Hi Hm Hd.
  exact (script_saves_parsed fuel rnd timestamp inst_choice_num mood_choice_num
           duration more Hfuel Hi Hm Hd).
Qed.

(** The choice 0 for the instrument and 2 for the mood: "retro_synth" and
    "sad", for one second. *)
Lemma script_saves_witness :
  exists data,
    script 100 (fun k => k) 1700000000 [Some 0; Some 2; Some 1]
    = Some (Saved (track_filename
                     (nth (Z.to_nat ((2 - 1) mod 3)) mood_options "happy"%string)
                     (nth (Z.to_nat ((0 - 1) mod 3)) instrument_options "piano"%string)
                     1700000000)
                  44100 data) /\
    Z.of_nat (List.length data) = 44100 * 1 /\
    Forall (fun z => -32767 <= z <= 32767) data.
Proof.
  apply (script_saves 100 (fun k => k) 1700000000 0 2 1 []).
  - intros mood_key mood H.
    destruct (catalog_cases _ _ H) as [-> | [-> | ->]]; vm_compute; lia.
  - lia.
  - lia.
  - lia.
Defined.

(** X14.  With three integers typed, every other input is answered with
    the "Invalid choice" message: a choice outside -2 .. 3 raises
    [IndexError], and a duration of zero or less makes [generate_music]
    raise [ValueError]; nothing is saved. *)
Theorem script_rejects (fuel : nat) (rnd : nat -> nat) (timestamp : Z)
    (inst_choice_num mood_choice_num duration : Z) (more : list (option Z)) :
  (forall mood_key mood,
     dict_get MOODS mood_key = Some mood ->
     (plan_fuel mood (inject_Z duration) <= fuel)%nat) ->
  ~ (-2 <= inst_choice_num <= 3 /\ -2 <= mood_choice_num <= 3 /\ 1 <= duration) ->
  script fuel rnd timestamp
         (Some inst_choice_num :: Some mood_choice_num :: Some duration :: more)
  = Some InvalidChoice.
Proof.
  intros Hfuel Hbad.
  exact (script_rejects_parsed fuel rnd timestamp inst_choice_num mood_choice_num
           duration more Hfuel Hbad).
Qed.

Lemma script_rejects_witness :
  script 100 (fun k => k) 1700000000 [Some 1; Some 1; Some 0] = Some InvalidChoice.
Proof.
  apply (script_rejects 100 (fun k => k) 1700000000 1 1 0 []).
  - intros mood_key mood H.
    destruct (catalog_cases _ _ H) as [-> | [-> | ->]]; vm_compute; lia.
  - lia.
Defined.

(** X15.  The "unexpected error" message is for an input that ends early
    only.  With three lines or more on the input the script ends either by
    saving a track or with the "Invalid choice" message, whether the lines
    parse as integers or not; with no input at all it ends with the
    "unexpected error" message, on the [EOFError] of [input]. *)
Theorem script_three_lines (fuel : nat) (rnd : nat -> nat) (timestamp : Z)
    (stdin : list (option Z)) :
  (forall duration mood_key mood,
     nth_error stdin 2 = Some (Some duration) ->
     dict_get MOODS mood_key = Some mood ->
     (plan_fuel mood (inject_Z duration) <= fuel)%nat) ->
  (3 <= List.length stdin)%nat ->
  (script fuel rnd timestamp stdin = Some InvalidChoice \/
   exists filename data, script fuel rnd timestamp stdin = Some (Saved filename 44100 data)) /\
  script fuel rnd timestamp [] = Some UnexpectedError.
Proof.
  intros Hfuel Hlen. split; [| reflexivity].
  destruct stdin as [| line1 [| line2 [| line3 more]]]; cbn [List.length] in Hlen; try lia.
  destruct line1 as [i |]; [| left; reflexivity].
  destruct (py_list_item_three "piano"%string "organ"%string "retro_synth"%string i)
    as [[Hi Hinst] | [Hi Hinst]].
  2: { left. unfold script, script_body. cbn [input_int].
       change (py_list_item instrument_options (i - 1))
         with (py_list_item ["piano"; "organ"; "retro_synth"]%string (i - 1)).
       rewrite Hinst. reflexivity. }
  destruct line2 as [m |].
  2: { left. unfold script, script_body. cbn [input_int].
       change (py_list_item instrument_options (i - 1))
         with (py_list_item ["piano"; "organ"; "retro_synth"]%string (i - 1)).
       rewrite Hinst. reflexivity. }
  destruct (py_list_item_three "happy"%string "sad"%string "dreamy"%string m)
    as [[Hm Hmood] | [Hm Hmood]].
  2: { left. unfold script, script_body. cbn [input_int].
       change (py_list_item instrument_options (i - 1))
         with (py_list_item ["piano"; "organ"; "retro_synth"]%string (i - 1)).
       rewrite Hinst. cbn [lift_result].
       change (py_list_item mood_options (m - 1))
         with (py_list_item ["happy"; "sad"; "dreamy"]%string (m - 1)).
       rewrite Hmood. reflexivity. }
  destruct line3 as [d |].
  2: { left. unfold script, script_body. cbn [input_int].
       change (py_list_item instrument_options (i - 1))
         with (py_list_item ["piano"; "organ"; "retro_synth"]%string (i - 1)).
       rewrite Hinst. cbn [lift_result].
       change (py_list_item mood_options (m - 1))
         with (py_list_item ["happy"; "sad"; "dreamy"]%string (m - 1)).
       rewrite Hmood. reflexivity. }
  assert (Hfuel' : forall mood_key mood,
             dict_get MOODS mood_key = Some mood ->
             (plan_fuel mood (inject_Z d) <= fuel)%nat).
  { intros mood_key mood. apply Hfuel. reflexivity. }
  destruct (Z_le_dec 1 d) as [Hd | Hd].
  - right.
    destruct (script_saves_parsed fuel rnd timestamp i m d more Hfuel' Hi Hm Hd)
      as (data & Hrun & _).
    eexists _, data. exact Hrun.
  - left. apply (script_rejects_parsed fuel rnd timestamp i m d more Hfuel'). lia.
Qed.

Lemma script_three_lines_witness :
  (script 100 (fun k => k) 1700000000 [Some 7; None; Some 5] = Some InvalidChoice \/
   exists filename data,
     script 100 (fun k => k) 1700000000 [Some 7; None; Some 5]
     = Some (Saved filename 44100 data)) /\
  script 100 (fun k => k) 1700000000 [] = Some UnexpectedError.
Proof.
  apply (script_three_lines 100 (fun k => k) 1700000000 [Some 7; None; Some 5]).
  - intros duration mood_key mood Hd H. injection Hd as <-.
    destruct (catalog_cases _ _ H) as [-> | [-> | ->]]; vm_compute; lia.
  - cbn. lia.
Defined.

(** * The file name *)

Lemma string_length_append (x s : string) :
  String.length (x ++ s) = (String.length x + String.length s)%nat.
Proof. induction x as [| a x IH]; cbn; [| rewrite IH]; reflexivity. Qed.

Lemma string_append_inj_l (p x y : string) : (p ++ x = p ++ y)%string -> x = y.
Proof.
  induction p as [| a p IH]; cbn; intros H; [exact H |].
  injection H as H. apply IH. exact H.
Qed.

Lemma string_append_inj_r (s : string) :
  forall x y : string, (x ++ s = y ++ s)%string -> x = y.
Proof.
  induction x as [| a x IH]; intros [| b y] H; cbn in H.
  - reflexivity.
  - apply (f_equal String.length) in H. cbn in H.
    rewrite string_length_append in H. lia.
  - apply (f_equal String.length) in H. cbn in H.
    rewrite string_length_append in H. lia.
  - injection H as -> H. f_equal. apply IH. exact H.
Qed.

Lemma to_int_printable (n : Z) :
  Z.to_int n <> Decimal.Pos Decimal.Nil /\ Z.to_int n <> Decimal.Neg Decimal.Nil.
Proof.
  destruct n as [| p | p]; cbn; split; try discriminate.
  - intros H. injection H as H. revert H. apply DecimalPos.Unsigned.to_uint_nonnil.
  - intros H. injection H as H. revert H. apply DecimalPos.Unsigned.to_uint_nonnil.
Qed.

Lemma py_str_int_inj (a b : Z) : py_str_int a = py_str_int b -> a = b.
Proof.
  unfold py_str_int. intros H.
  apply (f_equal DecimalString.NilZero.int_of_string) in H.
  destruct (to_int_printable a) as [Ha1 Ha2]. destruct (to_int_printable b) as [Hb1 Hb2].
  rewrite !DecimalString.NilZero.isi in H by assumption.
  injection H as H. apply DecimalZ.to_int_inj. exact H.
Qed.

(** X16.  For a given mood and instrument the file name determines the
    timestamp: two file names are equal exactly when the timestamps are. *)
Theorem track_filename_timestamp (mood_key instrument : string) (t1 t2 : Z) :
  track_filename mood_key instrument t1 = track_filename mood_key instrument t2
  <-> t1 = t2.
Proof.
  split; [| intros ->; reflexivity].
  unfold track_filename. intros H.
  apply string_append_inj_l in H. apply string_append_inj_l in H.
  apply string_append_inj_l in H. apply string_append_inj_l in H.
  apply string_append_inj_l in H. apply string_append_inj_r in H.
  apply py_str_int_inj. exact H.
Qed.

(** * Unknown instruments *)

Lemma recipe_default (instrument : string) (f t : R) :
  (instrument =? "piano")%string = false ->
  (instrument =? "organ")%string = false ->
  (instrument =? "retro_synth")%string = false ->
  recipe instrument f t
  = (6 / 10 * sin (2 * PI * f * t) + 2 / 10 * sin (2 * PI * (f * 2) * t))%R.
Proof. unfold recipe. intros -> -> ->. reflexivity. Qed.

(** X17.  An instrument name other than 'piano', 'organ' and 'retro_synth'
    is no error: whenever the sample count is not negative,
    [create_waveform] returns for it the two-partial default recipe
    [0.6 sin(2 pi f t) + 0.2 sin(2 pi 2f t)] under the envelope, the same
    buffer for every such name. *)
Theorem unknown_instrument_default (f d r : Q) (instrument other : string) :
  instrument <> "piano"%string -> instrument <> "organ"%string ->
  instrument <> "retro_synth"%string ->
  other <> "piano"%string -> other <> "organ"%string ->
  other <> "retro_synth"%string ->
  0 <= py_int (r * d) ->
  exists buf,
    create_waveform f d r instrument = Ok buf /\
    create_waveform f d r other = Ok buf /\
    forall j, (j < List.length buf)%nat ->
      nth j buf 0%R =
      ((6 / 10 * sin (2 * PI * Q2R f *
                      Q2R (linspace_point 0 d (py_int (r * d)) false (Z.of_nat j))) +
        2 / 10 * sin (2 * PI * (Q2R f * 2) *
                      Q2R (linspace_point 0 d (py_int (r * d)) false (Z.of_nat j)))) *
       exp (Q2R (linspace_point 0 (-5) (Z.of_nat (Z.to_nat (py_int (r * d)))) true
                                (Z.of_nat j))))%R.
Proof.
  intros H1 H2 H3 H4 H5 H6 HN.
  apply String.eqb_neq in H1, H2, H3, H4, H5, H6.
  destruct (create_waveform_ok f d r instrument HN) as (buf & Hbuf & Hlen & Hnth).
  destruct (create_waveform_ok f d r other HN) as (buf' & Hbuf' & Hlen' & Hnth').
  assert (Hsame : buf' = buf).
  { apply (nth_ext _ _ 0%R 0%R); [congruence |].
    intros j Hj. rewrite Hnth, Hnth' by lia.
    unfold waveform_sample. cbv zeta.
    rewrite !recipe_default by assumption. reflexivity. }
  subst buf'. exists buf. split; [exact Hbuf |]. split; [exact Hbuf' |].
  intros j Hj. rewrite Hnth by lia.
  unfold waveform_sample. cbv zeta. rewrite recipe_default by assumption. reflexivity.
Qed.

Lemma unknown_instrument_default_witness :
  exists buf,
    create_waveform 440 (1 # 2) 44100 "kazoo" = Ok buf /\
    create_waveform 440 (1 # 2) 44100 "" = Ok buf /\
    forall j, (j < List.length buf)%nat ->
      nth j buf 0%R =
      ((6 / 10 * sin (2 * PI * Q2R 440 *
                      Q2R (linspace_point 0 (1 # 2) (py_int (44100 * (1 # 2))) false
                                          (Z.of_nat j))) +
        2 / 10 * sin (2 * PI * (Q2R 440 * 2) *
                      Q2R (linspace_point 0 (1 # 2) (py_int (44100 * (1 # 2))) false
                                          (Z.of_nat j)))) *
       exp (Q2R (linspace_point 0 (-5) (Z.of_nat (Z.to_nat (py_int (44100 * (1 # 2)))))
                                true (Z.of_nat j))))%R.
Proof.
  apply (unknown_instrument_default 440 (1 # 2) 44100 "kazoo" "");
    discriminate.
Defined.

